(** * simsig: a shallow embedding of [src/simsig/simsig.py]

    The Python module wraps the [signal] module of the standard library:
    it installs handlers, chains them, overrides them for the time of a
    [with] block, arms an alarm around a block and masks delivery around
    a block.  The embedding below follows the source function by
    function.  Python state (the process-wide disposition table, the
    blocked set, the pending alarm, the two private attributes of the
    [SimSig] instance) is threaded explicitly; exceptions are results;
    what the code does to the outside (calls of [signal.signal], log
    records, invocations of user callables) is collected as a trace. *)

From Stdlib Require Import ZArith String Ascii List Bool Lia.
From stdpp Require Import base gmap strings list.

Local Open Scope string_scope.
Local Open Scope list_scope.
Local Open Scope Z_scope.

(** ** Python values *)

(** [class SigReaction(IntEnum)]: [dflt = 0], [ign = 1], [fin = 2]. *)
Inductive SigReaction := dflt | ign | fin.

Definition SigReaction_value (r : SigReaction) : Z :=
  match r with dflt => 0 | ign => 1 | fin => 2 end.

(** The validated [order] captured by the closure [chained_handler]: at
    the point where the closure is built the source has already checked
    [order in ["before", "after"]]. *)
Inductive Order := before | after.

(** Callables the program deals with.  [PyFunction] is a user function
    ([def] or [lambda]: it has a [__name__] and is truthy);
    [PyCallableObj] is any other user callable (an instance with
    [__call__], a [functools.partial]), which may lack [__name__] and may
    be falsy.  The other three are the closures the source creates; each
    carries the identity of the function object ([oid]) and the variables
    it closes over.

    [Disposition] is what [signal.getsignal] reports: [SIG_DFL],
    [SIG_IGN], [None] (a handler that was not installed from Python) or a
    callable. *)
Inductive Callable :=
| PyFunction (id : nat)
| PyCallableObj (id : nat) (named truthy : bool)
| FinHandler (oid : nat)
| ChainedHandler (oid : nat) (order : Order)
                 (callback : Callable) (original_handler : Disposition)
| TimeoutHandler (oid : nat) (seconds : Z)
with Disposition :=
| SIG_DFL
| SIG_IGN
| NoPyHandler
| Handler (c : Callable).

(** Values a caller may pass where the source inspects the dynamic type
    of an argument.  A member of the [Signals] enumeration is an
    [IntEnum], hence an [int]: it is [PyInt] of its value.  [PyList]
    stands for a list or a tuple. *)
#[warnings="-register-all"]
Inductive PyObj :=
| PyNone
| PyInt (z : Z)
| PyStr (s : string)
| PyList (items : list PyObj)
| PySIG_DFL
| PySIG_IGN
| PyReaction (r : SigReaction)
| PyCallable (c : Callable).

(** [callable(x)], with the callable it found. *)
Definition callable (x : PyObj) : option Callable :=
  match x with
  | PyCallable c => Some c
  | _ => None
  end.

(** [x.__name__] exists.  Functions and closures have one. *)
Definition has_name (c : Callable) : bool :=
  match c with
  | PyCallableObj _ named _ => named
  | _ => true
  end.

(** Truth value of a callable, as tested by [if cb:]. *)
Definition truthy (c : Callable) : bool :=
  match c with
  | PyCallableObj _ _ t => t
  | _ => true
  end.

(** ** Exceptions and results *)

(** [SimSigTimeoutError] derives from [TimeoutError], a subclass of
    [OSError]. *)
Inductive Exn :=
| TypeError
| ValueError
| OSError
| OverflowError
| AttributeError
| NotImplementedError
| SimSigTimeoutError (seconds : Z)
| SystemExit (code : Z)
| UserError (tag : nat).

(** [except (ValueError, OSError)] *)
Definition is_ValueError_or_OSError (e : Exn) : bool :=
  match e with
  | ValueError | OSError | SimSigTimeoutError _ => true
  | _ => false
  end.

(** A computation returns, raises, or the process is ended by the
    default action of a signal (then no Python code runs any more, not
    even a [finally]). *)
Inductive Outcome (A : Type) :=
| Ok (a : A)
| Raise (e : Exn)
| Killed (signum : Z).
Arguments Ok {A} a.
Arguments Raise {A} e.
Arguments Killed {A} signum.

(** ** Trace *)

Inductive LogLevel := DEBUG | INFO | WARNING.

(** One constructor per [logger] call of the source, holding the values
    its message interpolates. *)
Inductive LogMsg :=
| MsgInstanceCreated
| MsgCreatingFin
| MsgReceivedTerminating (sig_name : string)
| MsgExecutingShutdown
| MsgSettingHandler (sig_name : string) (reaction : PyObj)
| MsgCouldNotSet (sig_name : string) (e : Exn)
| MsgRegistering (callback : Callable)
| MsgChaining (callback : Callable) (sig_name : string) (order : Order)
| MsgEnterTemp (sig_names : list string)
| MsgExitTemp
| MsgEnterTimeout (seconds : Z)
| MsgExitTimeout
| MsgBlocking (sig_names : list string)
| MsgUnblocking.

Inductive SigmaskHow := SIG_BLOCK | SIG_UNBLOCK.

Inductive Event :=
| EvLog (level : LogLevel) (msg : LogMsg)
| EvSignal (sig : Z) (handler : Disposition) (failure : option Exn)
| EvAlarm (seconds : Z)
| EvSigmask (how : SigmaskHow) (sigs : list Z)
| EvCall (f : Callable) (signum : option Z).

(** ** State *)

(** The process-wide state the [signal] module exposes, the two private
    attributes of the [SimSig] instance, and the allocator of function
    objects (every evaluation of a nested [def] makes a new object). *)
Record World := mkWorld {
  handlers : Z -> Disposition;
  blocked : gset Z;
  alarm : Z;
  _graceful_shutdown_callback : option Callable;
  _fin_handler : option Callable;
  next_oid : nat
}.

Definition with_handlers (f : Z -> Disposition) (w : World) : World :=
  mkWorld f (blocked w) (alarm w) (_graceful_shutdown_callback w)
          (_fin_handler w) (next_oid w).
Definition with_blocked (b : gset Z) (w : World) : World :=
  mkWorld (handlers w) b (alarm w) (_graceful_shutdown_callback w)
          (_fin_handler w) (next_oid w).
Definition with_alarm (a : Z) (w : World) : World :=
  mkWorld (handlers w) (blocked w) a (_graceful_shutdown_callback w)
          (_fin_handler w) (next_oid w).
Definition with_shutdown_callback (c : option Callable) (w : World) : World :=
  mkWorld (handlers w) (blocked w) (alarm w) c (_fin_handler w) (next_oid w).
Definition with_fin_handler (c : option Callable) (w : World) : World :=
  mkWorld (handlers w) (blocked w) (alarm w) (_graceful_shutdown_callback w)
          c (next_oid w).
Definition with_next_oid (n : nat) (w : World) : World :=
  mkWorld (handlers w) (blocked w) (alarm w) (_graceful_shutdown_callback w)
          (_fin_handler w) n.

Definition update (f : Z -> Disposition) (k : Z) (v : Disposition) : Z -> Disposition :=
  fun j => if Z.eqb j k then v else f j.

(** ** The monad of the embedding *)

Definition M (A : Type) : Type := World -> Outcome A * World * list Event.

Definition ret {A} (a : A) : M A := fun w => (Ok a, w, []).
Definition raise {A} (e : Exn) : M A := fun w => (Raise e, w, []).
Definition emit (ev : Event) : M unit := fun w => (Ok tt, w, [ev]).
Definition gets {A} (f : World -> A) : M A := fun w => (Ok (f w), w, []).
Definition modify (f : World -> World) : M unit := fun w => (Ok tt, f w, []).

Definition bind {A B} (m : M A) (k : A -> M B) : M B := fun w =>
  match m w with
  | (Ok a, w1, t1) => let '(r, w2, t2) := k a w1 in (r, w2, t1 ++ t2)
  | (Raise e, w1, t1) => (Raise e, w1, t1)
  | (Killed s, w1, t1) => (Killed s, w1, t1)
  end.

Notation "'do' x <- m ; k" := (bind m (fun x => k))
  (at level 10, x name, m at level 100, k at level 200).
Notation "m ;; k" := (bind m (fun _ => k))
  (at level 100, k at level 200, right associativity).

(** [try: body except (ValueError, OSError) as e: handler e] *)
Definition try_except {A} (body : M A) (handler : Exn -> M A) : M A := fun w =>
  match body w with
  | (Raise e, w1, t1) =>
      if is_ValueError_or_OSError e
      then let '(r, w2, t2) := handler e w1 in (r, w2, t1 ++ t2)
      else (Raise e, w1, t1)
  | res => res
  end.

(** [try: body finally: cleanup].  An exception of [cleanup] replaces
    the pending one. *)
Definition try_finally {A} (body : M A) (cleanup : M unit) : M A := fun w =>
  match body w with
  | (Killed s, w1, t1) => (Killed s, w1, t1)
  | (r, w1, t1) =>
      match cleanup w1 with
      | (Ok _, w2, t2) => (r, w2, t1 ++ t2)
      | (Raise e, w2, t2) => (Raise e, w2, t1 ++ t2)
      | (Killed s, w2, t2) => (Killed s, w2, t1 ++ t2)
      end
  end.

(** [[f(x) for x in xs]] *)
Fixpoint mapM {A B} (f : A -> M B) (xs : list A) : M (list B) :=
  match xs with
  | [] => ret []
  | x :: rest => do y <- f x; do ys <- mapM f rest; ret (y :: ys)
  end.

(** [for x in xs: f(x)] *)
Fixpoint forM_ {A} (xs : list A) (f : A -> M unit) : M unit :=
  match xs with
  | [] => ret tt
  | x :: rest => f x;; forM_ rest f
  end.

Definition lift {A} (o : Outcome A) : M A := fun w => (o, w, []).

Definition outcome {A} (x : Outcome A * World * list Event) : Outcome A := fst (fst x).
Definition world {A} (x : Outcome A * World * list Event) : World := snd (fst x).
Definition trace {A} (x : Outcome A * World * list Event) : list Event := snd x.

(** ** The platform *)

(** What the interpreter and the operating system fix for one run: the
    integer attributes of the [signal] module in the order of
    [signal.__dict__], the bound [NSIG] on signal numbers, whether the
    calling thread is the main thread of the main interpreter, which
    signals [sigaction] refuses to change ([SIGKILL], [SIGSTOP]), whether
    [signal.pthread_sigmask] exists, and which signals the kernel never
    blocks. *)
Class Platform := {
  signal_module_ints : list (string * Z);
  NSIG : Z;
  main_thread : bool;
  uncatchable : Z -> bool;
  has_pthread_sigmask : bool;
  unblockable : Z -> bool
}.

(** Behaviour of the user's callables: [fn_body id None] is the call
    [f()], [fn_body id (Some n)] the call [f(n, frame)]. *)
Class UserCode := {
  fn_body : nat -> option Z -> World -> Outcome unit * World
}.

(** ** Conversions of the built-in [int] *)

Definition is_space (c : ascii) : bool :=
  let n := nat_of_ascii c in
  ((9 <=? n) && (n <=? 13) || (28 <=? n) && (n <=? 32))%nat.

Definition digit_value (c : ascii) : option Z :=
  let n := nat_of_ascii c in
  if ((48 <=? n) && (n <=? 57))%nat then Some (Z.of_nat n - 48) else None.

Fixpoint lstrip (cs : list ascii) : list ascii :=
  match cs with
  | c :: rest => if is_space c then lstrip rest else cs
  | [] => []
  end.

Definition strip (cs : list ascii) : list ascii := rev (lstrip (rev (lstrip cs))).

(** Decimal digits, single underscores between digits allowed. *)
Fixpoint parse_digits (acc : Z) (after_digit : bool) (cs : list ascii) : option Z :=
  match cs with
  | [] => if after_digit then Some acc else None
  | c :: rest =>
      if Ascii.eqb c "_"%char
      then (if after_digit then parse_digits acc false rest else None)
      else match digit_value c with
           | Some d => parse_digits (10 * acc + d) true rest
           | None => None
           end
  end.

(** [int(s)] for an ASCII string [s] in base 10: surrounding white space,
    an optional sign, digits.  (Decimal digits and white space outside
    ASCII, which [int] also takes, and the interpreter's limit on the
    number of digits are not modelled.) *)
Definition int_of_str (s : string) : option Z :=
  match strip (list_ascii_of_string s) with
  | c :: rest =>
      if Ascii.eqb c "+"%char then parse_digits 0 false rest
      else if Ascii.eqb c "-"%char then option_map Z.opp (parse_digits 0 false rest)
      else parse_digits 0 false (c :: rest)
  | [] => None
  end.

(** The integer behind an [int] or an [IntEnum] member. *)
Definition int_like (x : PyObj) : option Z :=
  match x with
  | PyInt z => Some z
  | PyReaction r => Some (SigReaction_value r)
  | PySIG_DFL => Some 0
  | PySIG_IGN => Some 1
  | _ => None
  end.

(** [int(x)] *)
Definition py_int (x : PyObj) : Outcome Z :=
  match x with
  | PyStr s => match int_of_str s with Some z => Ok z | None => Raise ValueError end
  | _ => match int_like x with Some z => Ok z | None => Raise TypeError end
  end.

Section Model.
Context {P : Platform} {U : UserCode}.

(** ** The [Signals] enumeration *)

(** [_AVAILABLE_SIGNALS]: the names that start with [SIG] but not with
    [SIG_]. *)
Definition _AVAILABLE_SIGNALS : list (string * Z) :=
  List.filter (fun nv => String.prefix "SIG" (fst nv) && negb (String.prefix "SIG_" (fst nv)))
              signal_module_ints.

(** [Signals(v).name]: the first name defined with value [v] (later
    names with the same value are aliases), [ValueError] when there is
    none. *)
Definition Signals_name (v : Z) : Outcome string :=
  match List.find (fun nv => Z.eqb (snd nv) v) _AVAILABLE_SIGNALS with
  | Some nv => Ok (fst nv)
  | None => Raise ValueError
  end.

(** [Signals(x).name] for an argument of any type: only integers are
    values of members. *)
Definition Signals_name_of (x : PyObj) : Outcome string :=
  match int_like x with
  | Some v => Signals_name v
  | None => Raise ValueError
  end.

(** [Signals[name]] as far as [hasattr(signal, name)] is concerned. *)
Definition Signals_value (name : string) : option Z :=
  option_map snd (List.find (fun nv => String.eqb (fst nv) name) _AVAILABLE_SIGNALS).

(** [for s in Signals]: the members without aliases, in definition
    order, as (name, value). *)
Definition Signals_iter : list (string * Z) :=
  List.filter (fun nv => match Signals_name (snd nv) with
                         | Ok n => String.eqb n (fst nv)
                         | _ => false
                         end) _AVAILABLE_SIGNALS.

Definition name_in (names : list string) (n : string) : bool :=
  existsb (String.eqb n) names.

(** [self._terminating_by_default], set in [__init__] and never assigned
    again.  The source holds a set; the list fixes one iteration order. *)
Definition _terminating_by_default : list (string * Z) :=
  List.filter (fun nv => name_in
     ["SIGHUP"; "SIGINT"; "SIGQUIT"; "SIGILL"; "SIGABRT"; "SIGFPE";
      "SIGSEGV"; "SIGPIPE"; "SIGALRM"; "SIGTERM"; "SIGXCPU"; "SIGXFSZ";
      "SIGVTALRM"; "SIGPROF"; "SIGUSR1"; "SIGUSR2"] (fst nv)) Signals_iter.

(** [self._suspending_by_default] *)
Definition _suspending_by_default : list (string * Z) :=
  List.filter (fun nv => name_in ["SIGSTOP"; "SIGTSTP"; "SIGTTIN"; "SIGTTOU"] (fst nv))
              Signals_iter.

(** [SimSig.__init__] *)
Definition __init__ : M unit :=
  modify (with_shutdown_callback None);;
  modify (with_fin_handler None);;
  emit (EvLog DEBUG MsgInstanceCreated).

(** ** Primitives of the [signal] module *)

Definition in_range (sig : Z) : bool := (1 <=? sig) && (sig <? NSIG).

(** [signal.getsignal(sig)].  The interpreter converts the number to a
    C [int] ([OverflowError] when it does not fit) and then wants it in
    [1 .. NSIG - 1] ([ValueError]).  The range is tested first here: a
    number in range is a C [int], [NSIG] being one, so the results are
    the same. *)
Definition signal_getsignal (sig : Z) : M Disposition := fun w =>
  if in_range sig then (Ok (handlers w sig), w, [])
  else if (sig <? - 2 ^ 31) || (2 ^ 31 <=? sig) then (Raise OverflowError, w, [])
  else (Raise ValueError, w, []).

(** [signal.signal(sig, handler)]: the checks in the order the
    interpreter makes them; every call leaves one [EvSignal].  The
    methods below call it for members of [Signals] and for numbers
    [signal.getsignal] has accepted only, all of them C [int]s, so the
    [OverflowError] of the conversion is left out. *)
Definition signal_signal (sig : Z) (handler : Disposition) : M Disposition := fun w =>
  let fail e := (Raise e, w, [EvSignal sig handler (Some e)]) in
  if negb main_thread then fail ValueError
  else if negb (in_range sig) then fail ValueError
  else match handler with
       | NoPyHandler => fail TypeError
       | _ =>
           if uncatchable sig then fail OSError
           else (Ok (handlers w sig),
                 with_handlers (update (handlers w) sig handler) w,
                 [EvSignal sig handler None])
       end.

(** [signal.alarm(seconds)]: the argument is a C [int], handed to
    [alarm(unsigned)]; zero cancels the pending alarm. *)
Definition signal_alarm (seconds : Z) : M Z := fun w =>
  if (seconds <? - 2 ^ 31) || (2 ^ 31 <=? seconds) then (Raise OverflowError, w, [])
  else (Ok (alarm w), with_alarm (seconds mod 2 ^ 32) w, [EvAlarm seconds]).

(** [signal.pthread_sigmask(how, sigs)]: the arithmetic on the set of
    blocked signals.  Signals that arrived while they were blocked are
    not part of the state, so the handlers the interpreter runs for them
    inside a [SIG_UNBLOCK] call are not modelled: what is proved of
    [block_signals] is about the mask. *)
Definition signal_pthread_sigmask (how : SigmaskHow) (sigs : list Z) : M (gset Z) := fun w =>
  if forallb in_range sigs then
    let new :=
      match how with
      | SIG_BLOCK => blocked w ∪ list_to_set (List.filter (fun s => negb (unblockable s)) sigs)
      | SIG_UNBLOCK => blocked w ∖ list_to_set sigs
      end in
    (Ok (blocked w), with_blocked new w, [EvSigmask how sigs])
  else (Raise ValueError, w, []).

(** ** Calling callables *)

Definition call_user (c : Callable) (id : nat) (arg : option Z) : M unit := fun w =>
  let '(r, w') := fn_body id arg w in (r, w', [EvCall c arg]).

(** [c()]: the closures of this module take two positional arguments. *)
Definition call0 (c : Callable) : M unit :=
  match c with
  | PyFunction id | PyCallableObj id _ _ => call_user c id None
  | _ => raise TypeError
  end.

(** The closure [handler(signum, frame)] of [_create_fin_handler]. *)
Definition handler (signum : Z) : M unit :=
  do sig_name <- lift (Signals_name signum);
  emit (EvLog WARNING (MsgReceivedTerminating sig_name));;
  do cb <- gets _graceful_shutdown_callback;
  match cb with
  | Some c => if truthy c
              then emit (EvLog INFO MsgExecutingShutdown);; call0 c
              else ret tt
  | None => ret tt
  end;;
  raise (SystemExit (128 + signum)).

(** The closure [_timeout_handler(signum, frame)] of [with_timeout]. *)
Definition _timeout_handler (seconds : Z) : M unit :=
  raise (SimSigTimeoutError seconds).

(** [c(signum, frame)].  The case of [ChainedHandler] is the body of the
    closure [chained_handler] of [chain_handler]. *)
Fixpoint call2 (c : Callable) (signum : Z) : M unit :=
  match c with
  | PyFunction id | PyCallableObj id _ _ => call_user c id (Some signum)
  | FinHandler _ => handler signum
  | ChainedHandler _ order callback original_handler =>
      match order with
      | before =>
          call2 callback signum;;
          match original_handler with
          | Handler o => call2 o signum
          | _ => ret tt
          end
      | after =>
          match original_handler with
          | Handler o => call2 o signum
          | _ => ret tt
          end;;
          call2 callback signum
      end
  | TimeoutHandler _ seconds => _timeout_handler seconds
  end.

End Model.

Section SimSig.
Context {P : Platform} {U : UserCode}.

(** ** The methods of [SimSig] *)

(** [SimSig._normalize_signals] *)
Definition _normalize_signals (signals : PyObj) : M (list Z) :=
  match signals with
  | PyList items => mapM (fun s => lift (py_int s)) items
  | _ => do z <- lift (py_int signals); ret [z]
  end.

(** [SimSig._create_fin_handler] *)
Definition _create_fin_handler : M Callable :=
  do cached <- gets _fin_handler;
  match cached with
  | None =>
      emit (EvLog DEBUG MsgCreatingFin);;
      do oid <- gets next_oid;
      modify (with_next_oid (S oid));;
      modify (with_fin_handler (Some (FinHandler oid)));;
      ret (FinHandler oid)
  | Some h => ret h
  end.

(** The first half of [set_handler]: the value of [handler_to_set].  For
    a [SigReaction] the source builds the whole [reaction_map] first, so
    [_create_fin_handler] is called for [dflt] and [ign] as well. *)
Definition handler_to_set (reaction : PyObj) : M Disposition :=
  match reaction with
  | PyReaction r =>
      do fin_handler <- _create_fin_handler;
      ret (match r with
           | dflt => SIG_DFL
           | ign => SIG_IGN
           | fin => Handler fin_handler
           end)
  | _ =>
      match callable reaction with
      | Some c => ret (Handler c)
      | None => raise TypeError
      end
  end.

(** The body of the [for] loop of [set_handler]. *)
Definition set_one (reaction : PyObj) (h : Disposition) (sig : Z) : M unit :=
  do sig_name <- lift (Signals_name sig);
  emit (EvLog INFO (MsgSettingHandler sig_name reaction));;
  try_except (signal_signal sig h;; ret tt)
             (fun e => emit (EvLog WARNING (MsgCouldNotSet sig_name e))).

(** [SimSig.set_handler] *)
Definition set_handler (signals reaction : PyObj) : M unit :=
  do signal_list <- _normalize_signals signals;
  do h <- handler_to_set reaction;
  forM_ signal_list (set_one reaction h).

(** [SimSig.graceful_shutdown] *)
Definition graceful_shutdown (callback : PyObj) : M unit :=
  match callable callback with
  | None => raise TypeError
  | Some c =>
      (if has_name c then ret tt else raise AttributeError);;
      emit (EvLog INFO (MsgRegistering c));;
      modify (with_shutdown_callback (Some c));;
      let signals_to_set :=
        List.filter (fun nv => negb (String.eqb (fst nv) "SIGKILL"))
                    _terminating_by_default in
      set_handler (PyList (map (fun nv => PyInt (snd nv)) signals_to_set))
                  (PyReaction fin)
  end.

(** [SimSig.get_signal_setting] *)
Definition get_signal_setting (sig : PyObj) : M Disposition :=
  do n <- lift (py_int sig); signal_getsignal n.

(** [order in ["before", "after"]], with the order it found. *)
Definition order_of (order : PyObj) : option Order :=
  match order with
  | PyStr s =>
      if String.eqb s "before" then Some before
      else if String.eqb s "after" then Some after
      else None
  | _ => None
  end.

(** [SimSig.chain_handler].  [callback.__name__] is read for the log
    record before anything is installed. *)
Definition chain_handler (sig callback order : PyObj) : M unit :=
  match order_of order with
  | None => raise ValueError
  | Some ord =>
      do original_handler <- get_signal_setting sig;
      do sig_name <- lift (Signals_name_of sig);
      match callable callback with
      | Some cb =>
          if has_name cb then
            emit (EvLog INFO (MsgChaining cb sig_name ord));;
            do oid <- gets next_oid;
            modify (with_next_oid (S oid));;
            set_handler sig (PyCallable (ChainedHandler oid ord cb original_handler))
          else raise AttributeError
      | None => raise AttributeError
      end
  end.

(** A Python [dict] from signal number to handler: assignment to a key
    that is present replaces its value in place, a new key goes last. *)
Fixpoint dict_set (d : list (Z * Disposition)) (k : Z) (v : Disposition)
  : list (Z * Disposition) :=
  match d with
  | [] => [(k, v)]
  | (k', v') :: rest =>
      if Z.eqb k' k then (k', v) :: rest else (k', v') :: dict_set rest k v
  end.

(** [{sig: self.get_signal_setting(sig) for sig in signal_list}] *)
Fixpoint snapshot (signal_list : list Z) (d : list (Z * Disposition))
  : M (list (Z * Disposition)) :=
  match signal_list with
  | [] => ret d
  | sig :: rest =>
      do h <- get_signal_setting (PyInt sig);
      snapshot rest (dict_set d sig h)
  end.

(** The loop in the [finally] of [temp_handler]. *)
Definition restore_one (entry : Z * Disposition) : M unit :=
  match snd entry with
  | NoPyHandler => ret tt
  | h => try_except (signal_signal (fst entry) h;; ret tt) (fun _ => ret tt)
  end.

Definition restore (original_handlers : list (Z * Disposition)) : M unit :=
  forM_ original_handlers restore_one.

(** [SimSig.temp_handler], applied to the block of the [with]
    statement. *)
Definition temp_handler {A} (signals reaction : PyObj) (block : M A) : M A :=
  do signal_list <- _normalize_signals signals;
  do original_handlers <- snapshot signal_list [];
  do names <- mapM (fun s => lift (Signals_name s)) signal_list;
  emit (EvLog DEBUG (MsgEnterTemp names));;
  try_finally
    (set_handler (PyList (map PyInt signal_list)) reaction;; block)
    (emit (EvLog DEBUG MsgExitTemp);; restore original_handlers).

(** [SimSig.with_timeout], applied to the block of the [with]
    statement. *)
Definition with_timeout {A} (seconds : Z) (block : M A) : M A :=
  match Signals_value "SIGALRM" with
  | None => raise NotImplementedError
  | Some SIGALRM =>
      do oid <- gets next_oid;
      modify (with_next_oid (S oid));;
      emit (EvLog DEBUG (MsgEnterTimeout seconds));;
      do original_handler <- get_signal_setting (PyInt SIGALRM);
      signal_signal SIGALRM (Handler (TimeoutHandler oid seconds));;
      signal_alarm seconds;;
      try_finally block
        (signal_alarm 0;;
         signal_signal SIGALRM original_handler;;
         emit (EvLog DEBUG MsgExitTimeout))
  end.

(** [SimSig.block_signals], applied to the block of the [with]
    statement. *)
Definition block_signals {A} (signals : PyObj) (block : M A) : M A :=
  if negb has_pthread_sigmask then raise NotImplementedError
  else
    do signal_list <- _normalize_signals signals;
    do names <- mapM (fun s => lift (Signals_name s)) signal_list;
    emit (EvLog DEBUG (MsgBlocking names));;
    try_finally
      (signal_pthread_sigmask SIG_BLOCK signal_list;; block)
      (emit (EvLog DEBUG MsgUnblocking);;
       signal_pthread_sigmask SIG_UNBLOCK signal_list;; ret tt).

(** [SimSig.has_sig] *)
Definition has_sig (sig_identifier : PyObj) : bool :=
  match sig_identifier with
  | PyStr s => existsb (fun nv => String.eqb (fst nv) s) _AVAILABLE_SIGNALS
  | _ =>
      match int_like sig_identifier with
      | Some v => existsb (fun nv => Z.eqb (snd nv) v) _AVAILABLE_SIGNALS
      | None => false
      end
  end.

(** ** Delivery of signals and passing of time *)

(** The signal [signum] arrives and is not blocked: a Python handler is
    called; [SIG_DFL] is the default action of the system, which ends the
    process for the signals of [_terminating_by_default]. *)
Definition deliver (signum : Z) : M unit := fun w =>
  match handlers w signum with
  | Handler c => call2 c signum w
  | SIG_DFL =>
      if existsb (fun nv => Z.eqb (snd nv) signum) _terminating_by_default
      then (Killed signum, w, [])
      else (Ok tt, w, [])
  | SIG_IGN | NoPyHandler => (Ok tt, w, [])
  end.

(** One second passes.  An armed alarm counts down; when it reaches
    zero [SIGALRM] is raised, and delivered when it is not blocked.
    When it is blocked the system keeps it pending until it is
    unblocked; pending signals are not part of the state, so that later
    delivery is not modelled, and the statements about timed blocks are
    made for [SIGALRM] not blocked. *)
Definition tick : M unit := fun w =>
  if alarm w <=? 0 then (Ok tt, w, [])
  else if alarm w =? 1 then
    match Signals_value "SIGALRM" with
    | Some SIGALRM =>
        if bool_decide (SIGALRM ∈ blocked w) then (Ok tt, with_alarm 0 w, [])
        else deliver SIGALRM (with_alarm 0 w)
    | None => (Ok tt, with_alarm 0 w, [])
    end
  else (Ok tt, with_alarm (alarm w - 1) w, []).

(** A block made of steps that take one second each. *)
Fixpoint timed_block (steps : list (M unit)) : M unit :=
  match steps with
  | [] => ret tt
  | step :: rest => step;; tick;; timed_block rest
  end.

(** ** Client programs *)

(** Calls of the methods that install handlers. *)
Inductive Op :=
| OpSetHandler (signals reaction : PyObj)
| OpGracefulShutdown (callback : PyObj)
| OpChainHandler (sig callback order : PyObj).

Definition run_op (o : Op) : M unit :=
  match o with
  | OpSetHandler signals reaction => set_handler signals reaction
  | OpGracefulShutdown callback => graceful_shutdown callback
  | OpChainHandler sig callback order => chain_handler sig callback order
  end.

(** A client that makes the calls one after the other and goes on when
    one of them raises. *)
Fixpoint run_ops (ops : list Op) (w : World) : World * list Event :=
  match ops with
  | [] => (w, [])
  | o :: rest =>
      let '(_, w1, t1) := run_op o w in
      let '(w2, t2) := run_ops rest w1 in
      (w2, t1 ++ t2)
  end.

End SimSig.


(** ** The utility methods of [SimSig] *)

(** Log records of [ignore_terminal_signals] and [reset_to_defaults]. *)
Inductive UtilityMsg :=
| MsgIgnoringTerminal (sig_names : list string)
| MsgResettingAll
| MsgCouldNotReset (sig_name : string).

(** Their trace: what [set_handler] leaves, and their own log
    records. *)
Inductive UtilityEvent :=
| EvInner (ev : Event)
| EvUtilityLog (level : LogLevel) (msg : UtilityMsg).

(** [except (OSError, ValueError, RuntimeError)]: [NotImplementedError]
    derives from [RuntimeError], [SimSigTimeoutError] from [OSError]. *)
Definition is_OSError_ValueError_or_RuntimeError (e : Exn) : bool :=
  match e with
  | OSError | ValueError | NotImplementedError | SimSigTimeoutError _ => true
  | _ => false
  end.

Section Utilities.
Context {P : Platform} {U : UserCode}.

(** [name in Signals.__members__] *)
Definition in_members (name : string) : bool :=
  existsb (fun nv => String.eqb (fst nv) name) _AVAILABLE_SIGNALS.

(** [Signals[name]]: the member of that name, as its own name and its
    value.  For an alias it is the member first defined with the
    value. *)
Definition Signals_getitem (name : string) : option (string * Z) :=
  match Signals_value name with
  | Some v => List.find (fun nv => Z.eqb (snd nv) v) _AVAILABLE_SIGNALS
  | None => None
  end.

Definition terminal_signal_names : list string :=
  ["SIGHUP"; "SIGINT"; "SIGTSTP"; "SIGTTIN"; "SIGTTOU"; "SIGWINCH"].

(** [[Signals[name] for name in terminal_signal_names
      if name in Signals.__members__]] *)
Definition signals_to_ignore : list (string * Z) :=
  flat_map (fun name =>
              if in_members name
              then match Signals_getitem name with
                   | Some m => [m]
                   | None => []
                   end
              else []) terminal_signal_names.

(** [SimSig.ignore_terminal_signals] *)
Definition ignore_terminal_signals (w : World)
  : Outcome unit * World * list UtilityEvent :=
  match signals_to_ignore with
  | [] => (Ok tt, w, [])
  | _ =>
      let '(r, w1, t1) :=
        set_handler (PyList (map (fun m => PyInt (snd m)) signals_to_ignore))
                    (PyReaction ign) w in
      (r, w1,
       EvUtilityLog INFO (MsgIgnoringTerminal (map fst signals_to_ignore)) ::
       map EvInner t1)
  end.

(** The loop of [reset_to_defaults] over the members that are left. *)
Fixpoint reset_loop (members : list (string * Z)) (w : World)
  : Outcome unit * World * list UtilityEvent :=
  match members with
  | [] => (Ok tt, w, [])
  | sig :: rest =>
      match set_handler (PyInt (snd sig)) (PyReaction dflt) w with
      | (Ok _, w1, t1) =>
          let '(r, w2, t2) := reset_loop rest w1 in
          (r, w2, map EvInner t1 ++ t2)
      | (Raise e, w1, t1) =>
          if is_OSError_ValueError_or_RuntimeError e
          then
            let '(r, w2, t2) := reset_loop rest w1 in
            (r, w2,
             map EvInner t1 ++
             EvUtilityLog DEBUG (MsgCouldNotReset (fst sig)) :: t2)
          else (Raise e, w1, map EvInner t1)
      | (Killed s, w1, t1) => (Killed s, w1, map EvInner t1)
      end
  end.

(** [SimSig.reset_to_defaults] *)
Definition reset_to_defaults (w : World)
  : Outcome unit * World * list UtilityEvent :=
  let '(r, w1, t1) := reset_loop Signals_iter w in
  (r, w1, EvUtilityLog INFO MsgResettingAll :: t1).

End Utilities.
(** ** Vocabulary of the statements *)

Scheme Callable_mut := Induction for Callable Sort Prop
  with Disposition_mut := Induction for Disposition Sort Prop.


Section Vocabulary.
Context {P : Platform} {U : UserCode}.

(** Why [signal.signal(sig, h)] fails, if it does. *)
Definition signal_failure (sig : Z) (h : Disposition) : option Exn :=
  if negb main_thread then Some ValueError
  else if negb (in_range sig) then Some ValueError
  else match h with
       | NoPyHandler => Some TypeError
       | _ => if uncatchable sig then Some OSError else None
       end.

(** The platform lets the disposition of [sig] be changed. *)
Definition accepts (sig : Z) : bool :=
  main_thread && in_range sig && negb (uncatchable sig).

Definition is_member (sig : Z) : bool :=
  match Signals_name sig with Ok _ => true | _ => false end.

(** The signals [signal.signal] was called for, in order. *)
Definition attempted (t : list Event) : list Z :=
  flat_map (fun ev => match ev with EvSignal s _ _ => [s] | _ => [] end) t.

(** A reaction [set_handler] takes: a [SigReaction] or a callable. *)
Definition valid_reaction (reaction : PyObj) : bool :=
  match reaction with
  | PyReaction _ | PyCallable _ => true
  | _ => false
  end.

(** The terminate handler of the instance once it has been asked for. *)
Definition fin_handler_of (w : World) : Callable :=
  match _fin_handler w with
  | Some c => c
  | None => FinHandler (next_oid w)
  end.

(** The handler a valid reaction stands for in the state [w]. *)
Definition resolved (reaction : PyObj) (w : World) : Disposition :=
  match reaction with
  | PyReaction dflt => SIG_DFL
  | PyReaction ign => SIG_IGN
  | PyReaction fin => Handler (fin_handler_of w)
  | PyCallable c => Handler c
  | _ => SIG_DFL
  end.

(** The state after [_create_fin_handler]. *)
Definition fin_created (w : World) : World :=
  match _fin_handler w with
  | Some _ => w
  | None => with_fin_handler (Some (FinHandler (next_oid w)))
                             (with_next_oid (S (next_oid w)) w)
  end.

(** The state after [signal.signal(sig, h)], whether it failed or
    not. *)
Definition install (h : Disposition) (w : World) (sig : Z) : World :=
  match signal_failure sig h with
  | None => with_handlers (update (handlers w) sig h) w
  | Some _ => w
  end.

(** What one round of the loop of [set_handler] leaves in the trace. *)
Definition set_one_trace (reaction : PyObj) (h : Disposition) (sig : Z) : list Event :=
  match Signals_name sig with
  | Ok name =>
      EvLog INFO (MsgSettingHandler name reaction) ::
      EvSignal sig h (signal_failure sig h) ::
      match signal_failure sig h with
      | Some e => [EvLog WARNING (MsgCouldNotSet name e)]
      | None => []
      end
  | _ => []
  end.

(** The user callable behind a callable, if it is one. *)
Definition user_id (c : Callable) : option nat :=
  match c with
  | PyFunction id | PyCallableObj id _ _ => Some id
  | _ => None
  end.

(** The invocations of user callables in a trace, in order. *)
Definition calls (t : list Event) : list (Callable * option Z) :=
  flat_map (fun ev => match ev with EvCall f a => [(f, a)] | _ => [] end) t.

(** The cached terminate handler, if there is one, is a closure made by
    [_create_fin_handler]. *)
Definition fin_cache_ok (w : World) : bool :=
  match _fin_handler w with
  | None | Some (FinHandler _) => true
  | _ => false
  end.

(** How often the terminate handler was created. *)
Definition creations (t : list Event) : nat :=
  length (List.filter (fun ev => match ev with
                                 | EvLog _ MsgCreatingFin => true
                                 | _ => false
                                 end) t).

Definition cached (w : World) : nat :=
  match _fin_handler w with Some _ => 1 | None => 0 end.

(** The spelling of an order. *)
Definition order_str (ord : Order) : string :=
  match ord with before => "before" | after => "after" end.

(** The user callables a handler calls, in order, when each of them
    returns. *)
Fixpoint expected_calls (c : Callable) : list Callable :=
  match c with
  | PyFunction _ | PyCallableObj _ _ _ => [c]
  | FinHandler _ | TimeoutHandler _ _ => []
  | ChainedHandler _ before callback original_handler =>
      expected_calls callback ++
      match original_handler with Handler o => expected_calls o | _ => [] end
  | ChainedHandler _ after callback original_handler =>
      match original_handler with Handler o => expected_calls o | _ => [] end ++
      expected_calls callback
  end.

Definition expected_of (d : Disposition) : list Callable :=
  match d with Handler o => expected_calls o | _ => [] end.

(** Handlers made of user callables and chains of them only. *)
Fixpoint plain (c : Callable) : bool :=
  match c with
  | PyFunction _ | PyCallableObj _ _ _ => true
  | FinHandler _ | TimeoutHandler _ _ => false
  | ChainedHandler _ _ callback original_handler =>
      plain callback &&
      match original_handler with Handler o => plain o | _ => true end
  end.

Definition plain_disposition (d : Disposition) : bool :=
  match d with Handler o => plain o | _ => true end.

(** A computation that neither touches the cached terminate handler
    nor creates one. *)
Definition cache_stable {A} (m : M A) : Prop :=
  forall w, _fin_handler (world (m w)) = _fin_handler w /\
            creations (trace (m w)) = 0%nat.

(** A computation that creates the terminate handler only when none is
    cached, and never replaces a cached one. *)
Definition cache_monotone {A} (m : M A) : Prop :=
  forall w, cached (world (m w)) = (cached w + creations (trace (m w)))%nat /\
            forall c, _fin_handler w = Some c -> _fin_handler (world (m w)) = Some c.

(** A member of [Signals] whose number the [signal] module takes. *)
Definition valid_signal (sig : Z) : bool := is_member sig && in_range sig.

(** The signals of a list that the kernel does block. *)
Definition blockable (sigs : list Z) : gset Z :=
  list_to_set (List.filter (fun s => negb (unblockable s)) sigs).

(** A client: a [block_signals] scope for [inner] inside one for
    [outer]; the mask is read after the inner scope has ended, still
    inside the outer one. *)
Definition nested_probe (outer inner : list Z) : M (gset Z) :=
  block_signals (PyList (map PyInt outer))
    (block_signals (PyList (map PyInt inner)) (ret tt);; gets blocked).

(** The snapshot [temp_handler] takes of the handlers of a list. *)
Definition snapshot_of (w : World) (signal_list : list Z) (d : list (Z * Disposition))
  : list (Z * Disposition) :=
  fold_left (fun d s => dict_set d s (handlers w s)) signal_list d.

(** The state after one round of the loop that restores. *)
Definition restore_step (w : World) (entry : Z * Disposition) : World :=
  match snd entry with
  | NoPyHandler => w
  | h => install h w (fst entry)
  end.

(** The keys of a snapshot that the loop calls [signal.signal] for. *)
Definition restorable (d : list (Z * Disposition)) : list Z :=
  flat_map (fun e => match snd e with NoPyHandler => [] | _ => [fst e] end) d.

(** What the loop that restores leaves in the trace. *)
Definition restore_trace (d : list (Z * Disposition)) : list Event :=
  flat_map (fun e => match snd e with
                     | NoPyHandler => []
                     | h => [EvSignal (fst e) h (signal_failure (fst e) h)]
                     end) d.

(** A snapshot of the state [w]: one entry per key, holding the handler
    [w] has for it. *)
Definition snapshot_ok (w : World) (d : list (Z * Disposition)) : Prop :=
  List.NoDup (map fst d) /\ forall k v, In (k, v) d -> v = handlers w k.

(** The state in which the block of [with_timeout] starts: the timeout
    closure is installed for [SIGALRM] (number [a]) and the alarm is
    armed. *)
Definition armed (seconds a : Z) (w : World) : World :=
  with_alarm (seconds mod 2 ^ 32)
    (with_handlers
       (update (handlers w) a (Handler (TimeoutHandler (next_oid w) seconds)))
       (with_next_oid (S (next_oid w)) w)).

(** A step of a block that returns and leaves the alarm, the handler of
    signal [a] and its place in the blocked set alone. *)
Definition quiet (a : Z) (step : M unit) : Prop :=
  forall w, outcome (step w) = Ok tt /\
            alarm (world (step w)) = alarm w /\
            handlers (world (step w)) a = handlers w a /\
            (a ∈ blocked (world (step w)) <-> a ∈ blocked w).

(** The signals the loop of [set_handler] gets to: the members of
    [Signals] at the head of the batch, up to the first number that is
    not one. *)
Fixpoint known_prefix (l : list Z) : list Z :=
  match l with
  | s :: rest => if is_member s then s :: known_prefix rest else []
  | [] => []
  end.

(** [if callable(original_handler): original_handler(signum, frame)],
    as it stands in the closure [chained_handler]. *)
Definition call_if_callable (d : Disposition) (signum : Z) : M unit :=
  match d with
  | Handler o => call2 o signum
  | _ => ret tt
  end.

(** What is expected of two user callables called one after the other
    with the signal number: the first runs; the second runs, in the
    state the first has left, only when the first has returned. *)
Definition user_sequence (c1 : Callable) (id1 : nat) (c2 : Callable) (id2 : nat)
    (signum : Z) (w : World) : Outcome unit * World * list Event :=
  match fn_body id1 (Some signum) w with
  | (Ok _, w1) =>
      (fst (fn_body id2 (Some signum) w1), snd (fn_body id2 (Some signum) w1),
       [EvCall c1 (Some signum); EvCall c2 (Some signum)])
  | (o1, w1) => (o1, w1, [EvCall c1 (Some signum)])
  end.

(** What is expected of the terminate handler for signal [n] named
    [name] when the stored callback is the user callable [cb]: [cb]
    runs once, without arguments; when it has returned the handler
    raises [SystemExit(128 + n)], otherwise what ended [cb] ends the
    handler. *)
Definition shutdown_run (cb : Callable) (id : nat) (name : string) (n : Z) (w : World)
  : Outcome unit * World * list Event :=
  (match fst (fn_body id None w) with
   | Ok _ => Raise (SystemExit (128 + n))
   | Raise e => Raise e
   | Killed s => Killed s
   end,
   snd (fn_body id None w),
   [EvLog WARNING (MsgReceivedTerminating name); EvLog INFO MsgExecutingShutdown;
    EvCall cb None]).

End Vocabulary.

(** ** Vocabulary for the utility methods *)

(** The events of [set_handler] in the trace of a utility method. *)
Definition inner (t : list UtilityEvent) : list Event :=
  flat_map (fun ev => match ev with EvInner e => [e] | _ => [] end) t.

(** The names [reset_to_defaults] logged as impossible to reset. *)
Definition could_not_reset (t : list UtilityEvent) : list string :=
  flat_map (fun ev => match ev with
                      | EvUtilityLog _ (MsgCouldNotReset n) => [n]
                      | _ => []
                      end) t.

(** No shutdown callback would run: none is stored, or the stored one is
    falsy. *)
Definition no_live_callback (w : World) : bool :=
  match _graceful_shutdown_callback w with
  | None => true
  | Some c => negb (truthy c)
  end.

(** A computation that leaves the blocked set and the alarm alone,
    calls no user callable and does not end the process. *)
Definition installs_only {A} (m : M A) : Prop :=
  forall w, blocked (world (m w)) = blocked w /\
            alarm (world (m w)) = alarm w /\
            calls (trace (m w)) = [] /\
            forall s, outcome (m w) <> Killed s.

(** ** A concrete platform *)

(** CPython 3.11 on Linux (x86-64), called from the main thread.  The
    table lists the integer attributes of [signal] in the order of its
    [__dict__].  [SIGIOT] comes before [SIGABRT] and [SIGCLD] before
    [SIGCHLD], so in the [Signals] enumeration of this module
    [SIGABRT] and [SIGCHLD] are aliases. *)
Definition linux : Platform := {|
  signal_module_ints :=
    [("NSIG", 65); ("SIG_BLOCK", 0); ("SIG_UNBLOCK", 1); ("SIG_SETMASK", 2);
     ("SIGHUP", 1); ("SIGINT", 2); ("SIGQUIT", 3); ("SIGILL", 4);
     ("SIGTRAP", 5); ("SIGIOT", 6); ("SIGABRT", 6); ("SIGFPE", 8);
     ("SIGKILL", 9); ("SIGBUS", 7); ("SIGSEGV", 11); ("SIGSYS", 31);
     ("SIGPIPE", 13); ("SIGALRM", 14); ("SIGTERM", 15); ("SIGUSR1", 10);
     ("SIGUSR2", 12); ("SIGCLD", 17); ("SIGCHLD", 17); ("SIGPWR", 30);
     ("SIGIO", 29); ("SIGURG", 23); ("SIGWINCH", 28); ("SIGPOLL", 29);
     ("SIGSTOP", 19); ("SIGTSTP", 20); ("SIGCONT", 18); ("SIGTTIN", 21);
     ("SIGTTOU", 22); ("SIGVTALRM", 26); ("SIGPROF", 27); ("SIGXCPU", 24);
     ("SIGXFSZ", 25); ("SIGRTMIN", 34); ("SIGRTMAX", 64); ("SIGSTKFLT", 16);
     ("ITIMER_REAL", 0); ("ITIMER_VIRTUAL", 1); ("ITIMER_PROF", 2);
     ("SIG_DFL", 0); ("SIG_IGN", 1)];
  NSIG := 65;
  main_thread := true;
  uncatchable := fun s => (s =? 9) || (s =? 19) || (s =? 32) || (s =? 33);
  has_pthread_sigmask := true;
  unblockable := fun s => (s =? 9) || (s =? 19)
|}.

(** User callables that return at once and change nothing. *)
Definition inert : UserCode := {| fn_body := fun _ _ w => (Ok tt, w) |}.

(** The state of a fresh interpreter: [SIGINT] has the interpreter's
    own handler (function 0), [SIGPIPE] and [SIGXFSZ] are ignored,
    nothing is blocked, no alarm is pending. *)
Definition fresh : World := {|
  handlers := fun s =>
    if s =? 2 then Handler (PyFunction 0)
    else if (s =? 13) || (s =? 25) then SIG_IGN
    else SIG_DFL;
  blocked := ∅;
  alarm := 0;
  _graceful_shutdown_callback := None;
  _fin_handler := None;
  next_oid := 0
|}.

(** A state in which the handler of [SIGUSR1] was installed by code
    outside of Python, so that [signal.getsignal] reports [None]. *)
Definition foreign : World :=
  with_handlers (update (handlers fresh) 10 NoPyHandler) fresh.

(** A block that takes three seconds and does nothing else. *)
Definition three_seconds : list (M unit) := [ret tt; ret tt; ret tt].

(** User callables that raise as soon as they are called. *)
Definition failing : UserCode :=
  {| fn_body := fun _ _ w => (Raise (UserError 0), w) |}.

(** A state in which the handler of [SIGALRM] was installed by code
    outside of Python. *)
Definition foreign_alarm : World :=
  with_handlers (update (handlers fresh) 14 NoPyHandler) fresh.

(** A state in which the terminate handler is cached and installed for
    [SIGTERM]. *)
Definition terminating : World :=
  with_fin_handler (Some (FinHandler 0))
    (with_next_oid 1
       (with_handlers (update (handlers fresh) 15 (Handler (FinHandler 0))) fresh)).

(** * Properties *)

Section Properties.
Context {P : Platform} {U : UserCode}.

(** ** Laws of the monad *)

Lemma bind_ok {A B} (m : M A) (k : A -> M B) w a w1 t1 r w2 t2 :
  m w = (Ok a, w1, t1) -> k a w1 = (r, w2, t2) ->
  bind m k w = (r, w2, t1 ++ t2).
Proof. intros Hm Hk. unfold bind. now rewrite Hm, Hk. Qed.

Lemma bind_ok_cons {A B} (m : M A) (k : A -> M B) w a w1 ev r w2 t2 :
  m w = (Ok a, w1, [ev]) -> k a w1 = (r, w2, t2) ->
  bind m k w = (r, w2, ev :: t2).
Proof. intros Hm Hk. unfold bind. now rewrite Hm, Hk. Qed.

Lemma bind_raise {A B} (m : M A) (k : A -> M B) w e w1 t1 :
  m w = (Raise e, w1, t1) -> bind m k w = (Raise e, w1, t1).
Proof. intros Hm. unfold bind. now rewrite Hm. Qed.

Lemma bind_killed {A B} (m : M A) (k : A -> M B) w s w1 t1 :
  m w = (Killed s, w1, t1) -> bind m k w = (Killed s, w1, t1).
Proof. intros Hm. unfold bind. now rewrite Hm. Qed.

Lemma bind_ret_l {A B} (a : A) (k : A -> M B) w : bind (ret a) k w = k a w.
Proof. unfold bind, ret. now destruct (k a w) as [[r w2] t2]. Qed.

Lemma bind_lift_ok {A B} (a : A) (k : A -> M B) w : bind (lift (Ok a)) k w = k a w.
Proof. unfold bind, lift. now destruct (k a w) as [[r w2] t2]. Qed.

Lemma bind_gets {A B} (f : World -> A) (k : A -> M B) w :
  bind (gets f) k w = k (f w) w.
Proof. unfold bind, gets. now destruct (k (f w) w) as [[r w2] t2]. Qed.

Lemma bind_modify {B} (f : World -> World) (k : unit -> M B) w :
  bind (modify f) k w = k tt (f w).
Proof. unfold bind, modify. now destruct (k tt (f w)) as [[r w2] t2]. Qed.

Lemma bind_emit {B} ev (k : unit -> M B) w r w2 t2 :
  k tt w = (r, w2, t2) -> bind (emit ev) k w = (r, w2, ev :: t2).
Proof. intros Hk. unfold bind, emit. now rewrite Hk. Qed.

Lemma bind_pure {A B} (m : M A) (k : A -> M B) w a :
  m w = (Ok a, w, []) -> bind m k w = k a w.
Proof. intros Hm. unfold bind. rewrite Hm. now destruct (k a w) as [[r w2] t2]. Qed.

Lemma bind_pure_state {A B} (m : M A) (k : A -> M B) w a w1 :
  m w = (Ok a, w1, []) -> bind m k w = k a w1.
Proof. intros Hm. unfold bind. rewrite Hm. now destruct (k a w1) as [[r w2] t2]. Qed.

Lemma bind_raise_l {A B} e (k : A -> M B) w : bind (raise e) k w = (Raise e, w, []).
Proof. reflexivity. Qed.

Lemma surjective_result {A} (x : Outcome A * World * list Event) :
  x = (outcome x, world x, trace x).
Proof. now destruct x as [[r w] t]. Qed.

(** ** Facts about the primitives *)

Lemma signal_signal_eq sig h w :
  signal_signal sig h w =
  match signal_failure sig h with
  | Some e => (Raise e, w, [EvSignal sig h (Some e)])
  | None => (Ok (handlers w sig), with_handlers (update (handlers w) sig h) w,
             [EvSignal sig h None])
  end.
Proof.
  unfold signal_signal, signal_failure.
  destruct main_thread; simpl; [|reflexivity].
  destruct (in_range sig); simpl; [|reflexivity].
  destruct h; try reflexivity; now destruct (uncatchable sig).
Qed.

Lemma signal_failure_accepts sig h :
  h <> NoPyHandler ->
  signal_failure sig h = None <-> accepts sig = true.
Proof.
  intros Hh. unfold signal_failure, accepts.
  destruct main_thread, (in_range sig), (uncatchable sig); simpl;
    destruct h; simpl; try tauto; try (split; congruence).
Qed.

Lemma signal_failure_caught sig h e :
  h <> NoPyHandler -> signal_failure sig h = Some e ->
  is_ValueError_or_OSError e = true.
Proof.
  intros Hh. unfold signal_failure.
  destruct main_thread, (in_range sig), (uncatchable sig); simpl;
    destruct h; simpl; try congruence; intros [= <-]; reflexivity.
Qed.

Lemma update_eq f k v : update f k v k = v.
Proof. unfold update. now rewrite Z.eqb_refl. Qed.

Lemma update_ne f k v j : j <> k -> update f k v j = f j.
Proof. intros H. unfold update. apply Z.eqb_neq in H. now rewrite H. Qed.

(** ** [_normalize_signals] *)

Lemma mapM_py_int_ints (l : list Z) w :
  mapM (fun s => lift (py_int s)) (map PyInt l) w = (Ok l, w, []).
Proof.
  revert w. induction l as [|z l IH]; intros w; [reflexivity|].
  cbn [map mapM]. cbn [py_int int_like]. rewrite bind_lift_ok.
  erewrite bind_ok; [| apply IH | reflexivity]. reflexivity.
Qed.

Lemma normalize_int_list (l : list Z) w :
  _normalize_signals (PyList (map PyInt l)) w = (Ok l, w, []).
Proof. apply mapM_py_int_ints. Qed.

Lemma normalize_int (z : Z) w :
  _normalize_signals (PyInt z) w = (Ok [z], w, []).
Proof. reflexivity. Qed.

(** ** [_create_fin_handler] and [handler_to_set] *)

Lemma create_fin_handler_eq w :
  _create_fin_handler w =
  (Ok (fin_handler_of w), fin_created w,
   match _fin_handler w with
   | Some _ => []
   | None => [EvLog DEBUG MsgCreatingFin]
   end).
Proof.
  unfold _create_fin_handler, fin_handler_of, fin_created.
  rewrite bind_gets. destruct (_fin_handler w); reflexivity.
Qed.

Lemma handler_to_set_reaction r w :
  handler_to_set (PyReaction r) w =
  (Ok (resolved (PyReaction r) w), fin_created w,
   match _fin_handler w with
   | Some _ => []
   | None => [EvLog DEBUG MsgCreatingFin]
   end).
Proof.
  unfold handler_to_set.
  erewrite bind_ok; [| apply create_fin_handler_eq | reflexivity].
  rewrite app_nil_r. now destruct r.
Qed.

Lemma handler_to_set_callable c w :
  handler_to_set (PyCallable c) w = (Ok (Handler c), w, []).
Proof. reflexivity. Qed.

Lemma handler_to_set_invalid reaction w :
  valid_reaction reaction = false ->
  handler_to_set reaction w = (Raise TypeError, w, []).
Proof. destruct reaction; simpl; intros H; try discriminate H; reflexivity. Qed.

Lemma resolved_not_None reaction w : resolved reaction w <> NoPyHandler.
Proof. destruct reaction as [| | | | | |[]|]; simpl; congruence. Qed.

Lemma handlers_fin_created w : handlers (fin_created w) = handlers w.
Proof. unfold fin_created. now destruct (_fin_handler w). Qed.

(** ** The loop of [set_handler] *)

Lemma guarded_signal_eq sig h (k : Exn -> M unit) w :
  h <> NoPyHandler ->
  try_except (signal_signal sig h;; ret tt) k w =
  match signal_failure sig h with
  | None => (Ok tt, with_handlers (update (handlers w) sig h) w, [EvSignal sig h None])
  | Some e => let '(r, w2, t2) := k e w in (r, w2, EvSignal sig h (Some e) :: t2)
  end.
Proof.
  intros Hh. unfold try_except, bind. rewrite signal_signal_eq.
  destruct (signal_failure sig h) as [e|] eqn:Hf; simpl; [|reflexivity].
  rewrite (signal_failure_caught _ _ _ Hh Hf).
  now destruct (k e w) as [[r w2] t2].
Qed.

Lemma set_one_eq reaction h sig w :
  is_member sig = true -> h <> NoPyHandler ->
  set_one reaction h sig w = (Ok tt, install h w sig, set_one_trace reaction h sig).
Proof.
  intros Hm Hh. unfold is_member in Hm. unfold set_one, set_one_trace, install.
  destruct (Signals_name sig) as [name| |]; try discriminate.
  rewrite bind_lift_ok. apply bind_emit. rewrite guarded_signal_eq by assumption.
  now destruct (signal_failure sig h).
Qed.

Lemma set_loop_eq reaction h (l : list Z) w :
  Forall (fun s => is_member s = true) l -> h <> NoPyHandler ->
  forM_ l (set_one reaction h) w =
  (Ok tt, fold_left (install h) l w, flat_map (set_one_trace reaction h) l).
Proof.
  intros Hl Hh. revert w. induction Hl as [|s l Hs Hl IH]; intros w; [reflexivity|].
  cbn [forM_ fold_left flat_map].
  erewrite bind_ok; [reflexivity | now apply set_one_eq | apply IH].
Qed.

Lemma handlers_install_loop h (l : list Z) w s :
  handlers (fold_left (install h) l w) s =
  if existsb (fun x => (x =? s) && match signal_failure x h with None => true | _ => false end) l
  then h else handlers w s.
Proof.
  revert w. induction l as [|x l IH]; intros w; [reflexivity|].
  cbn [fold_left existsb]. rewrite IH. unfold install.
  destruct (existsb _ l); [now rewrite orb_true_r|]. rewrite orb_false_r.
  destruct (signal_failure x h); simpl.
  - now rewrite andb_false_r.
  - rewrite andb_true_r. unfold update. now rewrite (Z.eqb_sym s x).
Qed.

Lemma install_loop_frame h (l : list Z) w :
  blocked (fold_left (install h) l w) = blocked w /\
  alarm (fold_left (install h) l w) = alarm w /\
  _graceful_shutdown_callback (fold_left (install h) l w) = _graceful_shutdown_callback w /\
  _fin_handler (fold_left (install h) l w) = _fin_handler w /\
  next_oid (fold_left (install h) l w) = next_oid w.
Proof.
  revert w. induction l as [|x l IH]; intros w; [now repeat split|].
  cbn [fold_left]. destruct (IH (install h w x)) as (-> & -> & -> & -> & ->).
  unfold install. now destruct (signal_failure x h).
Qed.

Lemma attempted_set_loop reaction h (l : list Z) :
  Forall (fun s => is_member s = true) l ->
  attempted (flat_map (set_one_trace reaction h) l) = l.
Proof.
  induction 1 as [|s l Hs Hl IH]; [reflexivity|].
  cbn [flat_map]. unfold attempted in *. rewrite flat_map_app, IH.
  unfold set_one_trace. unfold is_member in Hs.
  destruct (Signals_name s); try discriminate.
  now destruct (signal_failure s h).
Qed.

Lemma set_handler_normalized signals (l : list Z) reaction w :
  _normalize_signals signals w = (Ok l, w, []) ->
  Forall (fun s => is_member s = true) l ->
  valid_reaction reaction = true ->
  set_handler signals reaction w =
  (Ok tt,
   fold_left (install (resolved reaction w)) l
             (match reaction with PyReaction _ => fin_created w | _ => w end),
   match reaction, _fin_handler w with
   | PyReaction _, None => [EvLog DEBUG MsgCreatingFin]
   | _, _ => []
   end ++ flat_map (set_one_trace reaction (resolved reaction w)) l).
Proof.
  intros Hnorm Hl Hr. unfold set_handler.
  rewrite (bind_pure _ _ _ _ Hnorm).
  destruct reaction as [| | | | | |r|c]; try discriminate.
  - erewrite bind_ok; [| apply handler_to_set_reaction |
      apply set_loop_eq; [assumption | apply resolved_not_None]].
    now destruct (_fin_handler w).
  - erewrite bind_ok; [| apply handler_to_set_callable |
      apply set_loop_eq; [assumption | discriminate]].
    now destruct (_fin_handler w).
Qed.

Lemma set_handler_eq (l : list Z) reaction w :
  Forall (fun s => is_member s = true) l ->
  valid_reaction reaction = true ->
  set_handler (PyList (map PyInt l)) reaction w =
  (Ok tt,
   fold_left (install (resolved reaction w)) l
             (match reaction with PyReaction _ => fin_created w | _ => w end),
   match reaction, _fin_handler w with
   | PyReaction _, None => [EvLog DEBUG MsgCreatingFin]
   | _, _ => []
   end ++ flat_map (set_one_trace reaction (resolved reaction w)) l).
Proof. apply set_handler_normalized, normalize_int_list. Qed.

(** ** Rejections *)

(** C10.  A non-callable argument makes [graceful_shutdown] raise
    [TypeError] at once: the state is the one before the call (the
    stored callback and every disposition included) and nothing was
    logged or installed. *)
Theorem graceful_shutdown_rejects_non_callable (callback : PyObj) (w : World) :
  callable callback = None ->
  graceful_shutdown callback w = (Raise TypeError, w, []).
Proof. intros H. unfold graceful_shutdown. now rewrite H. Qed.

Lemma order_of_other order :
  order <> PyStr "before" -> order <> PyStr "after" -> order_of order = None.
Proof.
  intros Hb Ha. destruct order as [| |s| | | | |]; try reflexivity. simpl.
  destruct (String.eqb_spec s "before") as [->|_]; [now elim Hb|].
  destruct (String.eqb_spec s "after") as [->|_]; [now elim Ha|]. reflexivity.
Qed.

(** C9.  An [order] other than the strings "before" and "after" makes
    [chain_handler] raise [ValueError] before it reads the current
    handler: the state is the one before the call and the trace is
    empty (no call of [signal.signal]). *)
Theorem chain_handler_rejects_order (sig callback order : PyObj) (w : World) :
  order <> PyStr "before" -> order <> PyStr "after" ->
  chain_handler sig callback order w = (Raise ValueError, w, []).
Proof.
  intros Hb Ha. unfold chain_handler. now rewrite (order_of_other _ Hb Ha).
Qed.

(** ** The [Signals] enumeration *)

Lemma Signals_iter_name name n :
  In (name, n) Signals_iter -> Signals_name n = Ok name.
Proof.
  unfold Signals_iter. intros H. apply filter_In in H. destruct H as [_ H].
  cbn [fst snd] in H. destruct (Signals_name n) as [m| |]; try discriminate.
  apply String.eqb_eq in H. now subst.
Qed.

Lemma terminating_is_member name n :
  In (name, n) _terminating_by_default -> is_member n = true.
Proof.
  unfold _terminating_by_default. intros H. apply filter_In in H.
  destruct H as [H _]. unfold is_member. now rewrite (Signals_iter_name _ _ H).
Qed.

(** ** [graceful_shutdown] and the terminate handler *)

Lemma call0_user c id w :
  user_id c = Some id -> call0 c w = call_user c id None w.
Proof. destruct c; simpl; intros [= <-]; reflexivity. Qed.

Lemma handler_eq signum name cb id w :
  Signals_name signum = Ok name ->
  _graceful_shutdown_callback w = Some cb -> truthy cb = true ->
  user_id cb = Some id -> fst (fn_body id None w) = Ok tt ->
  handler signum w =
  (Raise (SystemExit (128 + signum)), snd (fn_body id None w),
   [EvLog WARNING (MsgReceivedTerminating name); EvLog INFO MsgExecutingShutdown;
    EvCall cb None]).
Proof.
  intros Hn Hcb Ht Hid Hret. unfold handler. rewrite Hn, bind_lift_ok.
  apply bind_emit. rewrite bind_gets, Hcb, Ht.
  unfold bind at 1. unfold bind at 1. unfold emit at 1.
  rewrite (call0_user _ _ _ Hid). unfold call_user.
  destruct (fn_body id None w) as [o w1]. cbn [fst snd] in *. subst o. reflexivity.
Qed.

Lemma graceful_shutdown_eq cb w :
  has_name cb = true ->
  graceful_shutdown (PyCallable cb) w =
  let w1 := with_shutdown_callback (Some cb) w in
  let l := map snd (List.filter (fun nv => negb (String.eqb (fst nv) "SIGKILL"))
                                _terminating_by_default) in
  (Ok tt,
   fold_left (install (Handler (fin_handler_of w))) l (fin_created w1),
   EvLog INFO (MsgRegistering cb) ::
   match _fin_handler w with None => [EvLog DEBUG MsgCreatingFin] | Some _ => [] end ++
   flat_map (set_one_trace (PyReaction fin) (Handler (fin_handler_of w))) l).
Proof.
  intros Hn. unfold graceful_shutdown. cbn [callable]. rewrite Hn, bind_ret_l.
  cbv zeta. apply bind_emit. rewrite bind_modify.
  rewrite <- map_map with (f := snd) (g := PyInt).
  rewrite set_handler_eq; [reflexivity| |reflexivity].
  apply List.Forall_forall. intros n Hin. apply in_map_iff in Hin.
  destruct Hin as ([name n'] & <- & Hin). apply filter_In in Hin.
  destruct Hin as [Hin _]. now apply terminating_is_member in Hin.
Qed.

(** ** [chain_handler] *)

Lemma order_of_str ord : order_of (PyStr (order_str ord)) = Some ord.
Proof. now destruct ord. Qed.

Lemma accepts_in_range sig : accepts sig = true -> in_range sig = true.
Proof.
  unfold accepts. intros H. apply andb_prop in H. destruct H as [H _].
  apply andb_prop in H. tauto.
Qed.

Lemma get_signal_setting_int sig w :
  get_signal_setting (PyInt sig) w =
  if in_range sig then (Ok (handlers w sig), w, [])
  else if (sig <? - 2 ^ 31) || (2 ^ 31 <=? sig) then (Raise OverflowError, w, [])
  else (Raise ValueError, w, []).
Proof.
  unfold get_signal_setting. cbn [py_int int_like]. rewrite bind_lift_ok.
  reflexivity.
Qed.

Lemma chain_handler_eq sig name cb ord w :
  accepts sig = true -> Signals_name sig = Ok name -> has_name cb = true ->
  let composite := ChainedHandler (next_oid w) ord cb (handlers w sig) in
  chain_handler (PyInt sig) (PyCallable cb) (PyStr (order_str ord)) w =
  (Ok tt,
   with_handlers (update (handlers w) sig (Handler composite))
                 (with_next_oid (S (next_oid w)) w),
   [EvLog INFO (MsgChaining cb name ord);
    EvLog INFO (MsgSettingHandler name (PyCallable composite));
    EvSignal sig (Handler composite) None]).
Proof.
  intros Hacc Hn Hname composite. unfold chain_handler.
  rewrite order_of_str.
  rewrite (bind_pure _ _ _ (handlers w sig)).
  2:{ rewrite get_signal_setting_int. now rewrite (accepts_in_range _ Hacc). }
  cbn [Signals_name_of int_like]. rewrite Hn, bind_lift_ok.
  cbn [callable]. rewrite Hname. apply bind_emit.
  rewrite bind_gets, bind_modify.
  rewrite (set_handler_normalized _ [sig]); [| reflexivity | | reflexivity].
  - cbn [fold_left flat_map resolved app]. unfold install, set_one_trace.
    rewrite Hn.
    assert (Hf : signal_failure sig (Handler composite) = None)
      by (apply signal_failure_accepts; [discriminate | assumption]).
    fold composite. rewrite Hf. reflexivity.
  - constructor; [|constructor]. unfold is_member. now rewrite Hn.
Qed.

Lemma calls_app t1 t2 : calls (t1 ++ t2) = calls t1 ++ calls t2.
Proof. unfold calls. apply flat_map_app. Qed.

(** A plain handler, run with user callables that return, returns and
    calls exactly [expected_calls], each with the signal number. *)
Lemma call2_plain (c : Callable) (signum : Z) :
  (forall id arg w0, fst (fn_body id arg w0) = Ok tt) ->
  plain c = true ->
  forall w, outcome (call2 c signum w) = Ok tt /\
            calls (trace (call2 c signum w)) =
            map (fun f => (f, Some signum)) (expected_calls c).
Proof.
  intros Hret.
  induction c using Callable_mut with
    (P0 := fun d => match d with
                    | Handler o =>
                        plain o = true ->
                        forall w, outcome (call2 o signum w) = Ok tt /\
                                  calls (trace (call2 o signum w)) =
                                  map (fun f => (f, Some signum)) (expected_calls o)
                    | _ => True
                    end); try exact I; try discriminate.
  - intros _ w. cbn [call2]. unfold call_user. specialize (Hret id (Some signum) w).
    destruct (fn_body id (Some signum) w) as [o w1]. cbn in Hret. subst o.
    split; reflexivity.
  - intros _ w. cbn [call2]. unfold call_user. specialize (Hret id (Some signum) w).
    destruct (fn_body id (Some signum) w) as [o w1]. cbn in Hret. subst o.
    split; reflexivity.
  - intros Hp w. cbn [plain] in Hp. apply andb_prop in Hp. destruct Hp as [Hp1 Hp2].
    specialize (IHc Hp1).
    assert (Horig : forall w0,
      outcome (match original_handler with
               | Handler o => call2 o signum
               | _ => ret tt
               end w0) = Ok tt /\
      calls (trace (match original_handler with
                    | Handler o => call2 o signum
                    | _ => ret tt
                    end w0)) =
      map (fun f => (f, Some signum)) (expected_of original_handler)).
    { intros w0. destruct original_handler; try (split; reflexivity).
      apply IHc0. exact Hp2. }
    cbn [call2 expected_calls]. destruct order.
    + destruct (IHc w) as [Ho Hc].
      destruct (call2 c signum w) as [[o1 w1] t1] eqn:E1.
      unfold outcome, trace in Ho, Hc. cbn [fst snd] in Ho, Hc. subst o1.
      destruct (Horig w1) as [Ho2 Hc2].
      set (orig := match original_handler with
                   | Handler o => call2 o signum | _ => ret tt end) in *.
      destruct (orig w1) as [[o2 w2] t2] eqn:E2.
      unfold outcome, trace in Ho2, Hc2. cbn [fst snd] in Ho2, Hc2. subst o2.
      erewrite bind_ok; [| exact E1 | exact E2].
      unfold outcome, trace. cbn [fst snd]. split; [reflexivity|].
      rewrite calls_app, Hc, Hc2, map_app. reflexivity.
    + set (orig := match original_handler with
                   | Handler o => call2 o signum | _ => ret tt end) in *.
      destruct (Horig w) as [Ho2 Hc2].
      destruct (orig w) as [[o2 w2] t2] eqn:E2.
      unfold outcome, trace in Ho2, Hc2. cbn [fst snd] in Ho2, Hc2. subst o2.
      destruct (IHc w2) as [Ho Hc].
      destruct (call2 c signum w2) as [[o1 w1] t1] eqn:E1.
      unfold outcome, trace in Ho, Hc. cbn [fst snd] in Ho, Hc. subst o1.
      erewrite bind_ok; [| exact E2 | exact E1].
      unfold outcome, trace. cbn [fst snd]. split; [reflexivity|].
      rewrite calls_app, Hc, Hc2, map_app. reflexivity.
  - exact IHc.
Qed.

(** ** The cached terminate handler *)

Lemma creations_app t1 t2 : creations (t1 ++ t2) = (creations t1 + creations t2)%nat.
Proof. unfold creations. now rewrite List.filter_app, length_app. Qed.

Lemma stable_monotone {A} (m : M A) : cache_stable m -> cache_monotone m.
Proof.
  intros H w. destruct (H w) as [Hc Ht]. unfold cached. rewrite Hc, Ht.
  split; [lia | congruence].
Qed.

Lemma stable_bind {A B} (m : M A) (k : A -> M B) :
  cache_stable m -> (forall a, cache_stable (k a)) -> cache_stable (bind m k).
Proof.
  intros Hm Hk w. specialize (Hm w). unfold bind.
  destruct (m w) as [[[a|e|s] w1] t1]; unfold world, trace in *; cbn [fst snd] in *;
    try exact Hm.
  specialize (Hk a w1). destruct (k a w1) as [[r w2] t2].
  unfold world, trace in *; cbn [fst snd] in *. rewrite creations_app.
  destruct Hm as [Hm1 Hm2], Hk as [Hk1 Hk2]. split; [congruence | lia].
Qed.

Lemma monotone_bind {A B} (m : M A) (k : A -> M B) :
  cache_monotone m -> (forall a, cache_monotone (k a)) -> cache_monotone (bind m k).
Proof.
  intros Hm Hk w. specialize (Hm w). unfold bind.
  destruct (m w) as [[[a|e|s] w1] t1]; unfold world, trace in *; cbn [fst snd] in *;
    try exact Hm.
  specialize (Hk a w1). destruct (k a w1) as [[r w2] t2].
  unfold world, trace in *; cbn [fst snd] in *. rewrite creations_app.
  destruct Hm as [Hm1 Hm2], Hk as [Hk1 Hk2]. split; [lia | auto].
Qed.

Lemma stable_try_except {A} (m : M A) (k : Exn -> M A) :
  cache_stable m -> (forall e, cache_stable (k e)) -> cache_stable (try_except m k).
Proof.
  intros Hm Hk w. specialize (Hm w). unfold try_except.
  destruct (m w) as [[[a|e|s] w1] t1]; unfold world, trace in *; cbn [fst snd] in *;
    try exact Hm.
  destruct (is_ValueError_or_OSError e); [|exact Hm].
  specialize (Hk e w1). destruct (k e w1) as [[r w2] t2].
  unfold world, trace in *; cbn [fst snd] in *. rewrite creations_app.
  destruct Hm as [Hm1 Hm2], Hk as [Hk1 Hk2]. split; [congruence | lia].
Qed.

Lemma stable_lift {A} (o : Outcome A) : cache_stable (lift o).
Proof. intros w. now split. Qed.

Lemma stable_ret {A} (a : A) : cache_stable (ret a).
Proof. intros w. now split. Qed.

Lemma stable_raise {A} e : cache_stable (@raise A e).
Proof. intros w. now split. Qed.

Lemma stable_gets {A} (f : World -> A) : cache_stable (gets f).
Proof. intros w. now split. Qed.

Lemma stable_mapM {A B} (f : A -> M B) (l : list A) :
  (forall a, cache_stable (f a)) -> cache_stable (mapM f l).
Proof.
  intros Hf. induction l as [|x l IH]; [apply stable_ret|].
  cbn [mapM]. apply stable_bind; [apply Hf|]. intros y.
  apply stable_bind; [exact IH|]. intros ys. apply stable_ret.
Qed.

Lemma stable_forM_ {A} (f : A -> M unit) (l : list A) :
  (forall a, cache_stable (f a)) -> cache_stable (forM_ l f).
Proof.
  intros Hf. induction l as [|x l IH]; [apply stable_ret|].
  cbn [forM_]. apply stable_bind; [apply Hf | intros _; exact IH].
Qed.

Lemma stable_signal_signal sig h : cache_stable (signal_signal sig h).
Proof.
  intros w. rewrite signal_signal_eq. now destruct (signal_failure sig h).
Qed.

Lemma stable_get_signal_setting sig : cache_stable (get_signal_setting sig).
Proof.
  apply stable_bind; [apply stable_lift|]. intros n w.
  unfold signal_getsignal.
  now destruct (in_range n), ((n <? - 2 ^ 31) || (2 ^ 31 <=? n)).
Qed.

Lemma stable_normalize signals : cache_stable (_normalize_signals signals).
Proof.
  assert (Hone : cache_stable (do z <- lift (py_int signals); ret [z])).
  { apply stable_bind; [apply stable_lift | intros z; apply stable_ret]. }
  destruct signals; try exact Hone.
  apply stable_mapM. intros s. apply stable_lift.
Qed.

Lemma stable_set_one reaction h sig : cache_stable (set_one reaction h sig).
Proof.
  apply stable_bind; [apply stable_lift|]. intros name.
  apply stable_bind; [intros w; now split|]. intros _.
  apply stable_try_except.
  - apply stable_bind; [apply stable_signal_signal | intros _; apply stable_ret].
  - intros e w. now split.
Qed.

Lemma monotone_create_fin_handler : cache_monotone _create_fin_handler.
Proof.
  intros w. rewrite create_fin_handler_eq. unfold world, trace, cached, fin_created.
  cbn [fst snd]. destruct (_fin_handler w) eqn:E; cbn; rewrite ?E; split;
    try reflexivity; try congruence.
Qed.

Lemma monotone_handler_to_set reaction : cache_monotone (handler_to_set reaction).
Proof.
  destruct reaction; try (apply stable_monotone, stable_raise).
  - apply monotone_bind; [apply monotone_create_fin_handler|].
    intros fh. apply stable_monotone, stable_ret.
  - apply stable_monotone, stable_ret.
Qed.

Lemma monotone_set_handler signals reaction : cache_monotone (set_handler signals reaction).
Proof.
  apply monotone_bind; [apply stable_monotone, stable_normalize|]. intros l.
  apply monotone_bind; [apply monotone_handler_to_set|]. intros h.
  apply stable_monotone, stable_forM_. intros sig. apply stable_set_one.
Qed.

Lemma monotone_graceful_shutdown callback : cache_monotone (graceful_shutdown callback).
Proof.
  unfold graceful_shutdown. destruct (callable callback) as [c|];
    [| apply stable_monotone, stable_raise].
  apply monotone_bind.
  { apply stable_monotone. destruct (has_name c); [apply stable_ret | apply stable_raise]. }
  intros _. apply monotone_bind; [apply stable_monotone; intros w; now split|].
  intros _. apply monotone_bind; [apply stable_monotone; intros w; now split|].
  intros _. apply monotone_set_handler.
Qed.

Lemma monotone_chain_handler sig callback order :
  cache_monotone (chain_handler sig callback order).
Proof.
  unfold chain_handler. destruct (order_of order) as [ord|];
    [| apply stable_monotone, stable_raise].
  apply monotone_bind; [apply stable_monotone, stable_get_signal_setting|].
  intros original. apply monotone_bind; [apply stable_monotone, stable_lift|].
  intros name. destruct (callable callback) as [cb|];
    [| apply stable_monotone, stable_raise].
  destruct (has_name cb); [| apply stable_monotone, stable_raise].
  apply monotone_bind; [apply stable_monotone; intros w; now split|].
  intros _. apply monotone_bind; [apply stable_monotone, stable_gets|].
  intros oid. apply monotone_bind; [apply stable_monotone; intros w; now split|].
  intros _. apply monotone_set_handler.
Qed.

Lemma monotone_run_op o : cache_monotone (run_op o).
Proof.
  destruct o; [apply monotone_set_handler | apply monotone_graceful_shutdown
              | apply monotone_chain_handler].
Qed.

Lemma run_ops_monotone (ops : list Op) (w : World) :
  cached (fst (run_ops ops w)) = (cached w + creations (snd (run_ops ops w)))%nat /\
  forall c, _fin_handler w = Some c -> _fin_handler (fst (run_ops ops w)) = Some c.
Proof.
  revert w. induction ops as [|o ops IH]; intros w.
  - cbn. split; [lia | auto].
  - cbn [run_ops]. destruct (monotone_run_op o w) as [H1 H2].
    destruct (run_op o w) as [[r w1] t1]. unfold world, trace in *. cbn [fst snd] in *.
    destruct (IH w1) as [H3 H4]. destruct (run_ops ops w1) as [w2 t2].
    cbn [fst snd] in *. rewrite creations_app. split; [lia | auto].
Qed.

Lemma cached_le_1 w : (cached w <= 1)%nat.
Proof. unfold cached. destruct (_fin_handler w); lia. Qed.

(** C8, as the code has it.  However a client calls [set_handler],
    [graceful_shutdown] and [chain_handler], the terminate handler is
    created at most once, and not at all when one is cached; a cached
    handler is never replaced, and every resolution of [fin] returns the
    cached object without a state change.  [__init__] caches nothing;
    the handler is created by the first resolution of any
    [SigReaction], [dflt] and [ign] included. *)
Theorem fin_handler_created_at_most_once (ops : list Op) (w : World) :
  (creations (snd (run_ops ops w)) <= 1)%nat /\
  (forall c, _fin_handler w = Some c ->
     _fin_handler (fst (run_ops ops w)) = Some c /\
     creations (snd (run_ops ops w)) = 0%nat /\
     handler_to_set (PyReaction fin) w = (Ok (Handler c), w, [])) /\
  (forall r, _fin_handler w = None ->
     handler_to_set (PyReaction r) w =
       (Ok (resolved (PyReaction r) w), fin_created w, [EvLog DEBUG MsgCreatingFin]) /\
     _fin_handler (fin_created w) = Some (FinHandler (next_oid w))) /\
  _fin_handler (world (__init__ w)) = None.
Proof.
  destruct (run_ops_monotone ops w) as [Hcount Hkeep].
  pose proof (cached_le_1 (fst (run_ops ops w))) as Hle.
  split; [lia|]. split; [|split].
  - intros c Hc. split; [auto|]. split.
    + unfold cached in Hcount at 2. rewrite Hc in Hcount. lia.
    + rewrite handler_to_set_reaction. unfold resolved, fin_handler_of, fin_created.
      now rewrite Hc.
  - intros r Hnone. rewrite handler_to_set_reaction. unfold fin_created.
    now rewrite Hnone.
  - reflexivity.
Qed.

(** ** Scopes *)

Lemma try_finally_eq {A} (body : M A) (cleanup : M unit) w r w1 t1 w2 t2 :
  body w = (r, w1, t1) -> (forall s, r <> Killed s) ->
  cleanup w1 = (Ok tt, w2, t2) ->
  try_finally body cleanup w = (r, w2, t1 ++ t2).
Proof.
  intros Hb Hk Hc. unfold try_finally. rewrite Hb.
  destruct r as [a|e|s]; [| | now elim (Hk s)]; now rewrite Hc.
Qed.

Lemma names_of_members (l : list Z) :
  Forall (fun s => is_member s = true) l ->
  exists names, forall w,
    mapM (fun s => lift (Signals_name s)) l w = (Ok names, w, []).
Proof.
  induction 1 as [|s l Hs Hl [names IH]].
  - exists []. reflexivity.
  - unfold is_member in Hs. destruct (Signals_name s) as [name| |] eqn:Hn; try discriminate.
    exists (name :: names). intros w. cbn [mapM]. rewrite Hn, bind_lift_ok.
    rewrite (bind_pure _ _ _ _ (IH w)). reflexivity.
Qed.

Lemma valid_signals_members (l : list Z) :
  Forall (fun s => valid_signal s = true) l -> Forall (fun s => is_member s = true) l.
Proof.
  intros H. eapply List.Forall_impl; [|exact H].
  intros s Hs. apply andb_prop in Hs. tauto.
Qed.

Lemma valid_signals_in_range (l : list Z) :
  Forall (fun s => valid_signal s = true) l -> forallb in_range l = true.
Proof.
  intros H. apply forallb_forall. intros s Hs.
  apply List.Forall_forall with (x := s) in H; [|assumption].
  apply andb_prop in H. tauto.
Qed.

(** *** [block_signals] *)

Lemma block_signals_eq {A} (signal_list : list Z) (block : M A) (w : World) :
  has_pthread_sigmask = true ->
  Forall (fun s => valid_signal s = true) signal_list ->
  (forall w0 s, outcome (block w0) <> Killed s) ->
  let entered := with_blocked (blocked w ∪ blockable signal_list) w in
  let left := world (block entered) in
  exists names,
    block_signals (PyList (map PyInt signal_list)) block w =
    (outcome (block entered),
     with_blocked (blocked left ∖ list_to_set signal_list) left,
     EvLog DEBUG (MsgBlocking names) :: EvSigmask SIG_BLOCK signal_list ::
     trace (block entered) ++
     [EvLog DEBUG MsgUnblocking; EvSigmask SIG_UNBLOCK signal_list]).
Proof.
  intros Hmask Hl Hk entered left.
  destruct (names_of_members _ (valid_signals_members _ Hl)) as [names Hnames].
  exists names. unfold block_signals. rewrite Hmask. cbn [negb].
  rewrite (bind_pure _ _ _ _ (normalize_int_list _ _)).
  rewrite (bind_pure _ _ _ _ (Hnames w)).
  apply bind_emit.
  pose proof (valid_signals_in_range _ Hl) as Hrange.
  erewrite try_finally_eq with (t1 := EvSigmask SIG_BLOCK signal_list :: trace (block entered)).
  - reflexivity.
  - unfold bind at 1, signal_pthread_sigmask at 1. rewrite Hrange.
    fold (blockable signal_list). fold entered.
    rewrite (surjective_result (block entered)). reflexivity.
  - exact (Hk entered).
  - fold left. unfold bind at 1, emit at 1.
    unfold bind at 1, signal_pthread_sigmask at 1. rewrite Hrange. reflexivity.
Qed.

(** C1, as the code has it.  When a [block_signals] scope ends it
    removes every signal of its own list from the blocked set, whether
    or not an enclosing scope had blocked it too; signals outside its
    list stay as the block left them.  So inside a scope for [outer],
    after a nested scope for [inner] has ended, the blocked set is the
    one before, plus the signals of [outer] and [inner] the kernel
    blocks, minus all of [inner]: a signal of both lists is no longer
    blocked, a signal of [outer] alone still is. *)
Theorem block_signals_unblocks_own_list (outer inner : list Z) (w : World) :
  has_pthread_sigmask = true ->
  Forall (fun s => valid_signal s = true) outer ->
  Forall (fun s => valid_signal s = true) inner ->
  (forall A (block : M A),
     (forall w0 s, outcome (block w0) <> Killed s) ->
     let entered := with_blocked (blocked w ∪ blockable inner) w in
     let r := block_signals (PyList (map PyInt inner)) block w in
     outcome r = outcome (block entered) /\
     blocked (world r) = blocked (world (block entered)) ∖ list_to_set inner) /\
  outcome (nested_probe outer inner w) =
    Ok ((blocked w ∪ blockable outer ∪ blockable inner) ∖ list_to_set inner) /\
  forall m, outcome (nested_probe outer inner w) = Ok m ->
    (forall s, In s inner -> s ∉ m) /\
    (forall s, In s outer -> ~ In s inner -> unblockable s = false -> s ∈ m).
Proof.
  intros Hmask Houter Hinner.
  assert (Hprobe : outcome (nested_probe outer inner w) =
    Ok ((blocked w ∪ blockable outer ∪ blockable inner) ∖ list_to_set inner)).
  { unfold nested_probe.
    set (body := (block_signals (PyList (map PyInt inner)) (ret tt);; gets blocked)).
    assert (Hbody : forall w0, body w0 =
      (Ok ((blocked w0 ∪ blockable inner) ∖ list_to_set inner),
       world (body w0), trace (body w0))).
    { intros w0. unfold body.
      destruct (block_signals_eq inner (ret tt) w0 Hmask Hinner) as [names E];
        [discriminate|].
      cbv zeta in E. unfold bind. rewrite E. reflexivity. }
    destruct (block_signals_eq outer body w Hmask Houter) as [names E].
    { intros w0 s. rewrite Hbody. discriminate. }
    cbv zeta in E. rewrite E. unfold outcome at 1. cbn [fst].
    rewrite Hbody. reflexivity. }
  split; [|split; [exact Hprobe|]].
  - intros A block Hk entered r.
    destruct (block_signals_eq inner block w Hmask Hinner Hk) as [names E].
    subst r. cbv zeta in E. rewrite E. split; reflexivity.
  - intros m Hm. rewrite Hprobe in Hm. injection Hm as <-. split.
    + intros s Hs. apply not_elem_of_difference. right.
      apply elem_of_list_to_set, list_elem_of_In. exact Hs.
    + intros s Hs Hns Hu. apply elem_of_difference. split.
      * apply elem_of_union_l, elem_of_union_r. unfold blockable.
        apply elem_of_list_to_set, list_elem_of_In, filter_In.
        split; [exact Hs | now rewrite Hu].
      * intros Hin. apply elem_of_list_to_set, list_elem_of_In in Hin. tauto.
Qed.

(** *** [temp_handler] *)

Lemma dict_set_keys d k v k' :
  In k' (map fst (dict_set d k v)) <-> k' = k \/ In k' (map fst d).
Proof.
  induction d as [|[k0 v0] d IH]; cbn [dict_set map fst In].
  - intuition.
  - destruct (Z.eqb_spec k0 k) as [->|Hne]; cbn [map fst In]; [intuition|].
    rewrite IH. intuition.
Qed.

Lemma dict_set_entries d k v k' v' :
  In (k', v') (dict_set d k v) -> (k' = k /\ v' = v) \/ In (k', v') d.
Proof.
  induction d as [|[k0 v0] d IH]; cbn [dict_set In].
  - intros [[= <- <-]|[]]. now left.
  - destruct (Z.eqb_spec k0 k) as [->|Hne]; cbn [In].
    + intros [[= <- <-]|H]; [now left | right; now right].
    + intros [H|H]; [right; now left|]. destruct (IH H); [now left | right; now right].
Qed.

Lemma dict_set_NoDup d k v : List.NoDup (map fst d) -> List.NoDup (map fst (dict_set d k v)).
Proof.
  induction d as [|[k0 v0] d IH]; cbn [dict_set map fst]; intros Hnd.
  - apply List.NoDup_cons; [intros [] | apply List.NoDup_nil].
  - destruct (Z.eqb_spec k0 k) as [->|Hne]; cbn [map fst]; [exact Hnd|].
    apply List.NoDup_cons_iff in Hnd. destruct Hnd as [Hnin Hnd].
    apply List.NoDup_cons_iff. split; [|now apply IH].
    rewrite dict_set_keys. intros [->|H]; [now elim Hne | now elim Hnin].
Qed.

Lemma snapshot_of_ok w (l : list Z) d :
  snapshot_ok w d -> snapshot_ok w (snapshot_of w l d).
Proof.
  revert d. induction l as [|s l IH]; intros d Hd; [exact Hd|].
  cbn [snapshot_of fold_left]. apply IH. destruct Hd as [Hnd Hval]. split.
  - now apply dict_set_NoDup.
  - intros k v Hin. apply dict_set_entries in Hin.
    destruct Hin as [[-> ->]|Hin]; [reflexivity | now apply Hval].
Qed.

Lemma snapshot_of_keys w (l : list Z) d k :
  In k (map fst (snapshot_of w l d)) <-> In k l \/ In k (map fst d).
Proof.
  revert d. induction l as [|s l IH]; intros d; cbn [snapshot_of fold_left In].
  - intuition.
  - fold (snapshot_of w l (dict_set d s (handlers w s))).
    rewrite IH, dict_set_keys. intuition.
Qed.

Lemma snapshot_eq (l : list Z) d w :
  forallb in_range l = true ->
  snapshot l d w = (Ok (snapshot_of w l d), w, []).
Proof.
  revert d. induction l as [|s l IH]; intros d Hr; [reflexivity|].
  cbn [forallb] in Hr. apply andb_prop in Hr. destruct Hr as [Hs Hr].
  cbn [snapshot]. rewrite (bind_pure _ _ _ (handlers w s)).
  - now apply IH.
  - rewrite get_signal_setting_int. now rewrite Hs.
Qed.

Lemma restore_one_eq entry w :
  restore_one entry w = (Ok tt, restore_step w entry, restore_trace [entry]).
Proof.
  unfold restore_one, restore_step, restore_trace. cbn [flat_map]. rewrite app_nil_r.
  destruct (snd entry) eqn:E; try reflexivity;
    (rewrite guarded_signal_eq by discriminate; unfold install;
     now destruct (signal_failure (fst entry) _)).
Qed.

Lemma restore_eq d w :
  restore d w = (Ok tt, fold_left restore_step d w, restore_trace d).
Proof.
  revert w. induction d as [|entry d IH]; intros w; [reflexivity|].
  unfold restore. cbn [forM_ fold_left].
  erewrite bind_ok; [| apply restore_one_eq | apply IH].
  unfold restore_trace. cbn [flat_map]. now rewrite app_nil_r.
Qed.

Lemma attempted_restore_trace d : attempted (restore_trace d) = restorable d.
Proof.
  induction d as [|entry d IH]; [reflexivity|].
  unfold attempted, restore_trace, restorable in *. cbn [flat_map].
  rewrite flat_map_app, IH. now destruct (snd entry).
Qed.

Lemma restorable_keys d k :
  In k (restorable d) <-> exists v, In (k, v) d /\ v <> NoPyHandler.
Proof.
  unfold restorable. rewrite in_flat_map. split.
  - intros ([k0 v0] & Hin & Hk). cbn [fst snd] in Hk.
    destruct v0; cbn in Hk; try tauto; destruct Hk as [<-|[]]; eexists; split;
      try exact Hin; discriminate.
  - intros (v & Hin & Hv). exists (k, v). split; [exact Hin|]. cbn [fst snd].
    destruct v; try tauto; now left.
Qed.

Lemma restorable_NoDup d : List.NoDup (map fst d) -> List.NoDup (restorable d).
Proof.
  induction d as [|[k v] d IH]; cbn [map fst]; intros Hnd; [constructor|].
  apply List.NoDup_cons_iff in Hnd. destruct Hnd as [Hnin Hnd].
  assert (Hk : ~ In k (restorable d)).
  { rewrite restorable_keys. intros (v0 & Hin & _). apply Hnin.
    apply in_map_iff. now exists (k, v0). }
  unfold restorable in *. cbn [flat_map fst snd].
  destruct v; cbn [app]; try (now apply IH);
    (apply List.NoDup_cons_iff; split; [exact Hk | now apply IH]).
Qed.

Lemma handlers_restore d w s h :
  (forall v, In (s, v) d -> v = h) ->
  handlers (fold_left restore_step d w) s =
  if existsb (fun e => fst e =? s) d &&
     match h with NoPyHandler => false | _ => true end &&
     match signal_failure s h with None => true | _ => false end
  then h else handlers w s.
Proof.
  revert w. induction d as [|[k v] d IH]; intros w Hval; [reflexivity|].
  cbn [fold_left existsb fst]. rewrite IH by (intros v0 H0; apply Hval; now right).
  destruct (Z.eqb_spec k s) as [->|Hne].
  - assert (v = h) as -> by (apply Hval; now left).
    cbn [orb andb]. unfold restore_step, install. cbn [fst snd].
    destruct (existsb _ d); cbn [andb];
      destruct h; cbn [andb]; try reflexivity;
      destruct (signal_failure s _); cbn [handlers with_handlers];
      try reflexivity; now rewrite update_eq.
  - cbn [orb].
    assert (Hs : handlers (restore_step w (k, v)) s = handlers w s).
    { unfold restore_step, install. cbn [fst snd].
      destruct v; try reflexivity;
        destruct (signal_failure k _); cbn [handlers with_handlers];
        try reflexivity; apply update_ne; congruence. }
    now rewrite Hs.
Qed.

Lemma temp_handler_eq {A} (signal_list : list Z) (reaction : PyObj) (block : M A) w :
  Forall (fun s => valid_signal s = true) signal_list ->
  valid_reaction reaction = true ->
  (forall w0 s, outcome (block w0) <> Killed s) ->
  let set := set_handler (PyList (map PyInt signal_list)) reaction w in
  let d := snapshot_of w signal_list [] in
  exists names,
    temp_handler (PyList (map PyInt signal_list)) reaction block w =
    (outcome (block (world set)),
     fold_left restore_step d (world (block (world set))),
     EvLog DEBUG (MsgEnterTemp names) ::
     (trace set ++ trace (block (world set))) ++
     EvLog DEBUG MsgExitTemp :: restore_trace d).
Proof.
  intros Hl Hr Hk set d.
  destruct (names_of_members _ (valid_signals_members _ Hl)) as [names Hnames].
  exists names. unfold temp_handler.
  rewrite (bind_pure _ _ _ _ (normalize_int_list _ _)).
  rewrite (bind_pure _ _ _ _ (snapshot_eq _ _ _ (valid_signals_in_range _ Hl))).
  rewrite (bind_pure _ _ _ _ (Hnames w)).
  apply bind_emit. fold d.
  assert (Hset : set_handler (PyList (map PyInt signal_list)) reaction w =
                 (Ok tt, world set, trace set)).
  { unfold set. rewrite (set_handler_eq _ _ w (valid_signals_members _ Hl) Hr).
    reflexivity. }
  erewrite try_finally_eq; [reflexivity | | apply Hk |].
  - erewrite bind_ok; [reflexivity | exact Hset | apply surjective_result].
  - apply bind_emit. apply restore_eq.
Qed.

(** C2, as the code has it.  A [temp_handler] scope over members of
    [Signals] with a valid reaction ends as its block ends (what goes
    wrong while restoring is not raised).  Afterwards every signal of
    the set whose handler before the scope was not [None] has that
    handler again.  The loop that restores calls [signal.signal]
    exactly once for each such signal and for no other; a signal whose
    handler was [None] is left as it is. *)
Theorem temp_handler_round_trip {A}
    (signal_list : list Z) (reaction : PyObj) (block : M A) (w : World) :
  Forall (fun s => valid_signal s = true) signal_list ->
  valid_reaction reaction = true ->
  (forall w0 s, outcome (block w0) <> Killed s) ->
  (forall w0 s, accepts s = false -> handlers (world (block w0)) s = handlers w0 s) ->
  let set := set_handler (PyList (map PyInt signal_list)) reaction w in
  let r := temp_handler (PyList (map PyInt signal_list)) reaction block w in
  outcome r = outcome (block (world set)) /\
  (forall s, In s signal_list -> handlers w s <> NoPyHandler ->
             handlers (world r) s = handlers w s) /\
  (forall s, In s signal_list -> handlers w s = NoPyHandler ->
             handlers (world r) s = handlers (world (block (world set))) s) /\
  exists names restores,
    trace r = EvLog DEBUG (MsgEnterTemp names) ::
              (trace set ++ trace (block (world set))) ++
              EvLog DEBUG MsgExitTemp :: restores /\
    List.NoDup (attempted restores) /\
    forall s, In s (attempted restores) <->
              In s signal_list /\ handlers w s <> NoPyHandler.
Proof.
  intros Hl Hr Hk Hblock set r.
  destruct (temp_handler_eq signal_list reaction block w Hl Hr Hk) as [names E].
  cbv zeta in E. fold set in E.
  assert (Hinside : forall s, accepts s = false -> handlers (world set) s = handlers w s).
  { intros s Hacc. unfold set.
    rewrite (set_handler_eq _ _ w (valid_signals_members _ Hl) Hr).
    unfold world. cbn [fst snd]. rewrite handlers_install_loop.
    assert (Hno : existsb (fun x => (x =? s) &&
                    match signal_failure x (resolved reaction w) with
                    | None => true | _ => false end) signal_list = false).
    { apply not_true_is_false. intros Hyes. apply existsb_exists in Hyes.
      destruct Hyes as (x & _ & Hx). apply andb_prop in Hx. destruct Hx as [Hx1 Hx2].
      apply Z.eqb_eq in Hx1. subst x.
      destruct (signal_failure s (resolved reaction w)) eqn:Hf2; [discriminate|].
      apply signal_failure_accepts in Hf2; [congruence | apply resolved_not_None]. }
    rewrite Hno. destruct reaction; try reflexivity. now rewrite handlers_fin_created. }
  assert (Hleft : forall s, accepts s = false ->
                  handlers (world (block (world set))) s = handlers w s).
  { intros s Hacc. rewrite (Hblock _ _ Hacc). now apply Hinside. }
  clearbody set. set (left := block (world set)) in *. clearbody left.
  subst r. rewrite E. clear E.
  set (d := snapshot_of w signal_list []).
  assert (Hd : snapshot_ok w d).
  { apply snapshot_of_ok. split; [apply List.NoDup_nil | intros k v []]. }
  destruct Hd as [Hnd Hval].
  assert (Hkey : forall s, In s signal_list -> In (s, handlers w s) d).
  { intros s Hs.
    assert (Hin : In s (map fst d)) by (apply snapshot_of_keys; now left).
    apply in_map_iff in Hin. destruct Hin as ([k v] & Hfst & Hin).
    cbn [fst] in Hfst. subst k. now rewrite <- (Hval s v Hin). }
  assert (Hex : forall s, In s signal_list -> existsb (fun e => fst e =? s) d = true).
  { intros s Hs. apply existsb_exists. exists (s, handlers w s).
    split; [now apply Hkey | apply Z.eqb_refl]. }
  split; [reflexivity|]. split; [|split].
  - intros s Hs Hnone.
    change (handlers (fold_left restore_step d (world left)) s = handlers w s).
    rewrite (handlers_restore d _ s (handlers w s)) by (intros v Hv; now apply Hval).
    rewrite (Hex s Hs). cbn [andb].
    destruct (signal_failure s (handlers w s)) as [e|] eqn:Hf.
    + rewrite andb_false_r. apply Hleft.
      apply not_true_is_false. intros Hacc.
      apply (signal_failure_accepts s (handlers w s) Hnone) in Hacc. congruence.
    + now destruct (handlers w s).
  - intros s Hs Hnone.
    change (handlers (fold_left restore_step d (world left)) s = handlers (world left) s).
    rewrite (handlers_restore d _ s (handlers w s)) by (intros v Hv; now apply Hval).
    rewrite Hnone. now rewrite andb_false_r.
  - exists names, (restore_trace d). split; [reflexivity|].
    rewrite attempted_restore_trace. split; [now apply restorable_NoDup|].
    intros s. rewrite restorable_keys. split.
    + intros (v & Hin & Hv). rewrite (Hval s v Hin) in Hv. split; [|exact Hv].
      assert (Hin' : In s (map fst d)) by (apply in_map_iff; now exists (s, v)).
      apply snapshot_of_keys in Hin'. destruct Hin' as [H|[]]. exact H.
    + intros [Hs Hv]. exists (handlers w s). split; [now apply Hkey | exact Hv].
Qed.

(** *** [with_timeout] *)

Lemma with_timeout_eq {A} (seconds a : Z) (block : M A) (w : World) :
  Signals_value "SIGALRM" = Some a -> accepts a = true ->
  - 2 ^ 31 <= seconds < 2 ^ 31 ->
  handlers w a <> NoPyHandler ->
  (forall s, outcome (block (armed seconds a w)) <> Killed s) ->
  let left := block (armed seconds a w) in
  with_timeout seconds block w =
  (outcome left,
   with_handlers (update (handlers (world left)) a (handlers w a))
                 (with_alarm 0 (world left)),
   EvLog DEBUG (MsgEnterTimeout seconds) ::
   EvSignal a (Handler (TimeoutHandler (next_oid w) seconds)) None ::
   EvAlarm seconds ::
   trace left ++
   [EvAlarm 0; EvSignal a (handlers w a) None; EvLog DEBUG MsgExitTimeout]).
Proof.
  intros Ha Hacc Hsec Horig Hk left. unfold with_timeout. rewrite Ha.
  rewrite bind_gets, bind_modify. apply bind_emit.
  rewrite (bind_pure _ _ _ (handlers w a)).
  2:{ rewrite get_signal_setting_int. now rewrite (accepts_in_range _ Hacc). }
  set (th := Handler (TimeoutHandler (next_oid w) seconds)).
  assert (Hth : signal_failure a th = None)
    by (apply signal_failure_accepts; [discriminate | assumption]).
  assert (Ho : signal_failure a (handlers w a) = None)
    by (apply signal_failure_accepts; assumption).
  assert (Hov : (seconds <? - 2 ^ 31) || (2 ^ 31 <=? seconds) = false).
  { apply orb_false_iff. split; [apply Z.ltb_ge | apply Z.leb_gt]; lia. }
  eapply bind_ok_cons; [rewrite signal_signal_eq, Hth; reflexivity|].
  eapply bind_ok_cons; [unfold signal_alarm; rewrite Hov; reflexivity|].
  cbn [handlers with_handlers with_next_oid alarm with_alarm].
  change (with_alarm (seconds mod 2 ^ 32)
            (with_handlers (update (handlers w) a th)
                           (with_next_oid (S (next_oid w)) w)))
    with (armed seconds a w).
  fold left. eapply try_finally_eq; [apply surjective_result | exact Hk |].
  eapply bind_ok_cons; [reflexivity|].
  eapply bind_ok_cons; [rewrite signal_signal_eq, Ho; reflexivity|].
  reflexivity.
Qed.

Lemma tick_fires a oid n w :
  Signals_value "SIGALRM" = Some a -> alarm w = 1 -> a ∉ blocked w ->
  handlers w a = Handler (TimeoutHandler oid n) ->
  tick w = (Raise (SimSigTimeoutError n), with_alarm 0 w, []).
Proof.
  intros Ha H1 Hb Hh. unfold tick. rewrite H1, Ha. cbn [Z.leb Z.eqb Z.compare Pos.eqb].
  rewrite bool_decide_eq_false_2 by exact Hb.
  unfold deliver. cbn [handlers with_alarm]. now rewrite Hh.
Qed.

Lemma tick_counts w :
  1 < alarm w -> tick w = (Ok tt, with_alarm (alarm w - 1) w, []).
Proof.
  intros H. unfold tick.
  assert ((alarm w <=? 0) = false) as -> by (apply Z.leb_gt; lia).
  assert ((alarm w =? 1) = false) as -> by (apply Z.eqb_neq; lia).
  reflexivity.
Qed.

Lemma timed_block_quiet (a : Z) (steps : list (M unit)) :
  Signals_value "SIGALRM" = Some a ->
  Forall (quiet a) steps ->
  forall w oid n,
    0 < alarm w -> handlers w a = Handler (TimeoutHandler oid n) -> a ∉ blocked w ->
    (alarm w <= Z.of_nat (length steps) ->
       outcome (timed_block steps w) = Raise (SimSigTimeoutError n)) /\
    (Z.of_nat (length steps) < alarm w -> outcome (timed_block steps w) = Ok tt).
Proof.
  intros Ha Hq. induction Hq as [|step steps Hstep Hsteps IH]; intros w oid n Hk Hh Hb.
  - cbn [length timed_block]. split; [lia | reflexivity].
  - destruct (Hstep w) as (Hso & Hsa & Hsh & Hsb).
    destruct (step w) as [[o1 w1] t1] eqn:Estep.
    unfold outcome, world in Hso, Hsa, Hsh, Hsb.
    cbn [fst snd] in Hso, Hsa, Hsh, Hsb. subst o1.
    assert (Hk1 : 0 < alarm w1) by lia.
    assert (Hh1 : handlers w1 a = Handler (TimeoutHandler oid n)) by congruence.
    assert (Hb1 : a ∉ blocked w1) by tauto.
    assert (E : outcome (timed_block (step :: steps) w) =
                outcome ((tick;; timed_block steps) w1)).
    { cbn [timed_block]. unfold bind at 1. rewrite Estep.
      now destruct ((tick;; timed_block steps) w1) as [[o2 w2] t2]. }
    rewrite E, length_cons, <- Hsa.
    destruct (Z.eq_dec (alarm w1) 1) as [H1|H1].
    + rewrite (bind_raise _ _ _ _ _ _ (tick_fires a oid n w1 Ha H1 Hb1 Hh1)).
      split; [reflexivity | lia].
    + assert (Htick : tick w1 = (Ok tt, with_alarm (alarm w1 - 1) w1, []))
        by (apply tick_counts; lia).
      rewrite (bind_pure_state _ _ _ _ _ Htick).
      destruct (IH (with_alarm (alarm w1 - 1) w1) oid n) as [IH1 IH2];
        [cbn; lia | exact Hh1 | exact Hb1 |].
      cbn [alarm with_alarm] in IH1, IH2.
      split; intros Hlen; [apply IH1 | apply IH2]; lia.
Qed.

(** X21.  A [with_timeout(seconds)] scope with
    [0 < seconds < 2^31], on a platform that has [SIGALRM] and lets its
    handler be changed, entered when the handler of [SIGALRM] is not
    [None]: however the block ends, by returning or by raising, the
    scope ends the same way, no alarm is pending afterwards and the
    handler of [SIGALRM] is the one from before the scope.  When the
    block takes more seconds than [seconds] (and [SIGALRM] is not
    blocked) the scope raises [SimSigTimeoutError]; when it takes fewer
    it returns. *)
Theorem with_timeout_bounds_block (seconds a : Z) (w : World) :
  Signals_value "SIGALRM" = Some a -> accepts a = true ->
  0 < seconds < 2 ^ 31 ->
  handlers w a <> NoPyHandler ->
  (forall A (block : M A),
     (forall s, outcome (block (armed seconds a w)) <> Killed s) ->
     let r := with_timeout seconds block w in
     outcome r = outcome (block (armed seconds a w)) /\
     alarm (world r) = 0 /\
     handlers (world r) a = handlers w a) /\
  (forall steps,
     Forall (quiet a) steps -> a ∉ blocked w ->
     let r := with_timeout seconds (timed_block steps) w in
     (seconds < Z.of_nat (length steps) ->
        outcome r = Raise (SimSigTimeoutError seconds)) /\
     (Z.of_nat (length steps) < seconds -> outcome r = Ok tt) /\
     alarm (world r) = 0 /\
     handlers (world r) a = handlers w a).
Proof.
  intros Ha Hacc Hsec Horig.
  assert (Hrange : - 2 ^ 31 <= seconds < 2 ^ 31) by lia.
  assert (Hscope : forall A (block : M A),
     (forall s, outcome (block (armed seconds a w)) <> Killed s) ->
     let r := with_timeout seconds block w in
     outcome r = outcome (block (armed seconds a w)) /\
     alarm (world r) = 0 /\
     handlers (world r) a = handlers w a).
  { intros A block Hk r. subst r.
    rewrite (with_timeout_eq seconds a block w Ha Hacc Hrange Horig Hk).
    cbv zeta. unfold outcome at 1, world at 1, world at 2. cbn [fst snd].
    split; [reflexivity|]. split; [reflexivity|].
    cbn [handlers with_handlers]. apply update_eq. }
  split; [exact Hscope|].
  intros steps Hq Hb r.
  assert (Hmod : seconds mod 2 ^ 32 = seconds) by (apply Z.mod_small; lia).
  destruct (timed_block_quiet a steps Ha Hq (armed seconds a w) (next_oid w) seconds)
    as [Hlate Hearly].
  { unfold armed. cbn [alarm with_alarm]. lia. }
  { unfold armed. cbn [handlers with_alarm with_handlers]. apply update_eq. }
  { exact Hb. }
  assert (Halarm : alarm (armed seconds a w) = seconds) by exact Hmod.
  rewrite Halarm in Hlate, Hearly.
  assert (Hk : forall s, outcome (timed_block steps (armed seconds a w)) <> Killed s).
  { intros s. destruct (Z_le_gt_dec seconds (Z.of_nat (length steps))) as [Hc|Hc].
    - rewrite (Hlate Hc). discriminate.
    - rewrite Hearly by lia. discriminate. }
  destruct (Hscope unit (timed_block steps) Hk) as (Ho & Hal & Hh).
  subst r. rewrite Ho. split; [|split; [|split]].
  - intros Hlen. apply Hlate. lia.
  - exact Hearly.
  - exact Hal.
  - exact Hh.
Qed.

(** ** Signal designators *)

Lemma lstrip_snoc (xs : list ascii) (c : ascii) :
  is_space c = false -> exists ys, lstrip (xs ++ [c]) = ys ++ [c].
Proof.
  intros Hc. induction xs as [|x xs [ys IH]]; cbn [app lstrip].
  - rewrite Hc. now exists [].
  - destruct (is_space x); [now exists ys | now exists (x :: xs)].
Qed.

(** [int] refuses a string that starts with the letter S. *)
Lemma int_of_str_S (rest : string) : int_of_str (String "S" rest) = None.
Proof.
  unfold int_of_str, strip. cbn [list_ascii_of_string].
  set (cs := list_ascii_of_string rest).
  change (lstrip ("S"%char :: cs)) with ("S"%char :: cs).
  cbn [rev]. destruct (lstrip_snoc (rev cs) "S"%char eq_refl) as [ys ->].
  rewrite rev_app_distr. reflexivity.
Qed.

Lemma available_name_prefix name v :
  In (name, v) _AVAILABLE_SIGNALS -> exists rest, name = String "S" rest.
Proof.
  unfold _AVAILABLE_SIGNALS. intros H. apply filter_In in H. destruct H as [_ H].
  apply andb_prop in H. destruct H as [H _]. cbn [fst] in H.
  destruct name as [|c rest]; [discriminate|]. cbn [String.prefix] in H.
  destruct (ascii_dec "S" c) as [<-|]; [now exists rest | discriminate].
Qed.

Lemma normalize_name name v w :
  In (name, v) _AVAILABLE_SIGNALS ->
  _normalize_signals (PyStr name) w = (Raise ValueError, w, []).
Proof.
  intros H. destruct (available_name_prefix _ _ H) as [rest ->].
  unfold _normalize_signals. cbn [py_int]. now rewrite int_of_str_S.
Qed.

End Properties.

(** * The theorems at work on Linux *)

(** [chain_handler(SIGINT, f1, "sideways")] *)
Lemma chain_handler_rejects_order_linux :
  PyStr "sideways" <> PyStr "before" /\ PyStr "sideways" <> PyStr "after" /\
  chain_handler (P:=linux) (PyInt 2) (PyCallable (PyFunction 1)) (PyStr "sideways") fresh
    = (Raise ValueError, fresh, []).
Proof.
  assert (H1 : PyStr "sideways" <> PyStr "before") by discriminate.
  assert (H2 : PyStr "sideways" <> PyStr "after") by discriminate.
  split; [exact H1|]. split; [exact H2|].
  exact (chain_handler_rejects_order (P:=linux) (PyInt 2) (PyCallable (PyFunction 1))
           (PyStr "sideways") fresh H1 H2).
Defined.

(** [graceful_shutdown(5)] *)
Lemma graceful_shutdown_rejects_non_callable_linux :
  callable (PyInt 5) = None /\
  graceful_shutdown (P:=linux) (PyInt 5) fresh = (Raise TypeError, fresh, []).
Proof.
  split; [reflexivity|].
  exact (graceful_shutdown_rejects_non_callable (P:=linux) (PyInt 5) fresh eq_refl).
Defined.

(** A scope for [SIGINT, SIGTERM] inside one for [SIGTERM, SIGUSR1]. *)
Lemma block_signals_unblocks_own_list_linux :
  has_pthread_sigmask (Platform:=linux) = true /\
  Forall (fun s => valid_signal (P:=linux) s = true) [15; 10] /\
  Forall (fun s => valid_signal (P:=linux) s = true) [2; 15] /\
  outcome (nested_probe (P:=linux) [15; 10] [2; 15] fresh) =
    Ok ((blocked fresh ∪ blockable (P:=linux) [15; 10] ∪ blockable (P:=linux) [2; 15])
        ∖ list_to_set [2; 15]).
Proof.
  assert (H1 : Forall (fun s => valid_signal (P:=linux) s = true) [15; 10])
    by (repeat constructor).
  assert (H2 : Forall (fun s => valid_signal (P:=linux) s = true) [2; 15])
    by (repeat constructor).
  destruct (block_signals_unblocks_own_list (P:=linux) [15; 10] [2; 15] fresh
              eq_refl H1 H2) as (_ & Hp & _).
  split; [reflexivity|]. split; [exact H1|]. split; [exact H2 | exact Hp].
Defined.

(** A [temp_handler] scope for [SIGINT, SIGTERM] whose block raises. *)
Lemma temp_handler_round_trip_linux :
  Forall (fun s => valid_signal (P:=linux) s = true) [2; 15] /\
  valid_reaction (PyReaction ign) = true /\
  (forall w0 s, outcome (raise (A:=unit) (UserError 0) w0) <> Killed s) /\
  (forall w0 s, accepts (P:=linux) s = false ->
     handlers (world (raise (A:=unit) (UserError 0) w0)) s = handlers w0 s) /\
  outcome (temp_handler (P:=linux) (PyList (map PyInt [2; 15])) (PyReaction ign)
             (raise (A:=unit) (UserError 0)) fresh) = Raise (UserError 0) /\
  handlers (world (temp_handler (P:=linux) (PyList (map PyInt [2; 15])) (PyReaction ign)
             (raise (A:=unit) (UserError 0)) fresh)) 2 = Handler (PyFunction 0).
Proof.
  assert (H1 : Forall (fun s => valid_signal (P:=linux) s = true) [2; 15])
    by (repeat constructor).
  assert (H2 : valid_reaction (PyReaction ign) = true) by reflexivity.
  assert (H3 : forall w0 s, outcome (raise (A:=unit) (UserError 0) w0) <> Killed s)
    by (intros w0 s; discriminate).
  assert (H4 : forall w0 s, accepts (P:=linux) s = false ->
     handlers (world (raise (A:=unit) (UserError 0) w0)) s = handlers w0 s)
    by (intros w0 s _; reflexivity).
  destruct (temp_handler_round_trip (P:=linux) [2; 15] (PyReaction ign)
              (raise (A:=unit) (UserError 0)) fresh H1 H2 H3 H4) as (Ho & Hs & _).
  split; [exact H1|]. split; [exact H2|]. split; [exact H3|]. split; [exact H4|].
  split; [exact Ho|]. apply (Hs 2); [now left | discriminate].
Defined.

(** [with_timeout(2)] around a block of three seconds. *)
Lemma with_timeout_bounds_block_linux :
  Signals_value (P:=linux) "SIGALRM" = Some 14 /\ accepts (P:=linux) 14 = true /\
  0 < 2 < 2 ^ 31 /\ handlers fresh 14 <> NoPyHandler /\
  Forall (quiet 14) three_seconds /\ (14 ∉ blocked fresh) /\
  outcome (with_timeout (P:=linux) 2 (timed_block (P:=linux) (U:=inert) three_seconds) fresh)
    = Raise (SimSigTimeoutError 2) /\
  alarm (world (with_timeout (P:=linux) 2
                  (timed_block (P:=linux) (U:=inert) three_seconds) fresh)) = 0.
Proof.
  assert (H1 : 0 < 2 < 2 ^ 31) by lia.
  assert (H2 : handlers fresh 14 <> NoPyHandler) by discriminate.
  assert (H3 : Forall (quiet 14) three_seconds).
  { unfold three_seconds.
    repeat (apply List.Forall_cons; [intros w0; repeat split; auto |]).
    apply List.Forall_nil. }
  assert (H4 : 14 ∉ blocked fresh) by (apply not_elem_of_empty).
  destruct (with_timeout_bounds_block (P:=linux) (U:=inert) 2 14 fresh
              eq_refl eq_refl H1 H2) as (_ & Ht).
  destruct (Ht three_seconds H3 H4) as (Hlate & _ & Hal & _).
  split; [reflexivity|]. split; [reflexivity|]. split; [exact H1|]. split; [exact H2|].
  split; [exact H3|]. split; [exact H4|].
  split; [apply Hlate; cbn; lia | exact Hal].
Defined.

(** * Where the code departs from the specification *)

(** Against C1: inside a scope for [SIGTERM, SIGUSR1], after a nested
    scope for [SIGINT, SIGTERM] has ended, [SIGTERM] is not blocked any
    more ([SIGUSR1] still is). *)
Lemma inner_scope_unblocks_outer_signal :
  outcome (block_signals (P:=linux) (PyList [PyInt 15; PyInt 10])
             (block_signals (P:=linux) (PyList [PyInt 2; PyInt 15]) (ret tt);;
              gets (fun w => (bool_decide (15 ∈ blocked w),
                              bool_decide (10 ∈ blocked w)))) fresh)
  = Ok (false, true).
Proof. vm_compute. reflexivity. Qed.

(** Against C2: the handler of [SIGUSR1] is [None] before the scope;
    the scope installs [SIG_IGN], calls [signal.signal] for the signal
    once (to install) and never to restore, and [SIG_IGN] stays. *)
Lemma temp_handler_keeps_override_over_None :
  handlers foreign 10 = NoPyHandler /\
  outcome (temp_handler (P:=linux) (PyInt 10) (PyReaction ign) (ret tt) foreign) = Ok tt /\
  handlers (world (temp_handler (P:=linux) (PyInt 10) (PyReaction ign) (ret tt) foreign)) 10
    = SIG_IGN /\
  attempted (trace (temp_handler (P:=linux) (PyInt 10) (PyReaction ign) (ret tt) foreign))
    = [10].
Proof. vm_compute. repeat split. Qed.

(** Against C6: the name of a signal is refused where its number is
    taken. *)
Lemma set_handler_refuses_name :
  outcome (set_handler (P:=linux) (PyStr "SIGINT") (PyReaction ign) fresh)
    = Raise ValueError /\
  outcome (set_handler (P:=linux) (PyInt 2) (PyReaction ign) fresh) = Ok tt.
Proof. vm_compute. split; reflexivity. Qed.

(** Against C8: on a new instance [set_handler(SIGINT, ign)] creates
    and caches the terminate handler although [fin] was never used. *)
Lemma ign_creates_fin_handler :
  _fin_handler (world (__init__ fresh)) = None /\
  _fin_handler (world (set_handler (P:=linux) (PyInt 2) (PyReaction ign)
                         (world (__init__ fresh)))) = Some (FinHandler 0) /\
  creations (trace (set_handler (P:=linux) (PyInt 2) (PyReaction ign)
                      (world (__init__ fresh)))) = 1%nat.
Proof. vm_compute. repeat split. Qed.

(** * Further properties of the code *)

Section Extras.
Context {P : Platform} {U : UserCode}.

(** ** The [Signals] enumeration, continued *)

Lemma available_is_member name v :
  In (name, v) _AVAILABLE_SIGNALS -> is_member v = true.
Proof.
  intros Hin. unfold is_member, Signals_name.
  destruct (List.find (fun nv => snd nv =? v) _AVAILABLE_SIGNALS) eqn:E; [reflexivity|].
  apply List.find_none with (x := (name, v)) in E; [|exact Hin].
  cbn [snd] in E. now rewrite Z.eqb_refl in E.
Qed.

Lemma Signals_name_available v name :
  Signals_name v = Ok name -> In (name, v) _AVAILABLE_SIGNALS.
Proof.
  unfold Signals_name.
  destruct (List.find (fun nv => snd nv =? v) _AVAILABLE_SIGNALS) as [[n v']|] eqn:E;
    [|discriminate].
  apply List.find_some in E. destruct E as [Hin Hv]. cbn [snd] in Hv.
  apply Z.eqb_eq in Hv. subst v'. cbn [fst]. now intros [= <-].
Qed.

Lemma Signals_iter_available name v :
  In (name, v) Signals_iter -> In (name, v) _AVAILABLE_SIGNALS.
Proof. unfold Signals_iter. intros H. now apply filter_In in H. Qed.

Lemma member_in_Signals_iter v :
  is_member v = true -> exists name, In (name, v) Signals_iter.
Proof.
  unfold is_member. destruct (Signals_name v) as [name| |] eqn:E; try discriminate.
  intros _. exists name. unfold Signals_iter. apply filter_In.
  split; [now apply Signals_name_available|].
  cbn [fst snd]. rewrite E. apply String.eqb_refl.
Qed.

Lemma Signals_value_available name v :
  Signals_value name = Some v -> In (name, v) _AVAILABLE_SIGNALS.
Proof.
  unfold Signals_value.
  destruct (List.find (fun nv => (fst nv =? name)%string) _AVAILABLE_SIGNALS)
    as [[n v']|] eqn:E; [|discriminate].
  apply List.find_some in E. destruct E as [Hin Hn]. cbn [fst] in Hn.
  apply String.eqb_eq in Hn. subst n. cbn. now intros [= <-].
Qed.

(** ** [set_handler] on one signal *)

Lemma set_handler_one v reaction w :
  is_member v = true -> valid_reaction reaction = true ->
  set_handler (PyInt v) reaction w =
  (Ok tt,
   install (resolved reaction w)
           (match reaction with PyReaction _ => fin_created w | _ => w end) v,
   match reaction, _fin_handler w with
   | PyReaction _, None => [EvLog DEBUG MsgCreatingFin]
   | _, _ => []
   end ++ set_one_trace reaction (resolved reaction w) v).
Proof.
  intros Hm Hr.
  rewrite (set_handler_normalized (PyInt v) [v] reaction w);
    [| reflexivity | now repeat constructor | exact Hr].
  cbn [fold_left flat_map]. now rewrite app_nil_r.
Qed.

Lemma install_frame h w v :
  blocked (install h w v) = blocked w /\
  alarm (install h w v) = alarm w /\
  _graceful_shutdown_callback (install h w v) = _graceful_shutdown_callback w /\
  _fin_handler (install h w v) = _fin_handler w /\
  next_oid (install h w v) = next_oid w.
Proof. unfold install. now destruct (signal_failure v h). Qed.

Lemma fin_created_frame w :
  blocked (fin_created w) = blocked w /\
  alarm (fin_created w) = alarm w /\
  _graceful_shutdown_callback (fin_created w) = _graceful_shutdown_callback w /\
  _fin_handler (fin_created w) = Some (fin_handler_of w).
Proof.
  unfold fin_created, fin_handler_of.
  destruct (_fin_handler w) eqn:E; cbn; rewrite ?E; now repeat split.
Qed.

Lemma handlers_install h w v s :
  handlers (install h w v) s =
  if (v =? s) && accepts v then
    match h with NoPyHandler => handlers w s | _ => h end
  else handlers w s.
Proof.
  unfold install.
  assert (Hcases : h = NoPyHandler \/ h <> NoPyHandler)
    by (destruct h; [right | right | left | right]; congruence).
  destruct Hcases as [->|Hh].
  - assert (Hf : signal_failure v NoPyHandler <> None).
    { unfold signal_failure. destruct main_thread, (in_range v); discriminate. }
    destruct (signal_failure v NoPyHandler); [|now elim Hf].
    now destruct ((v =? s) && accepts v).
  - destruct (accepts v) eqn:Hacc.
    + rewrite (proj2 (signal_failure_accepts v h Hh) Hacc), andb_true_r.
      cbn [handlers with_handlers]. unfold update. rewrite (Z.eqb_sym s v).
      destruct (v =? s); [now destruct h | reflexivity].
    + rewrite andb_false_r. destruct (signal_failure v h) eqn:Hf; [reflexivity|].
      apply (signal_failure_accepts v h Hh) in Hf. congruence.
Qed.

(** ** [reset_to_defaults] *)

Lemma attempted_app t1 t2 : attempted (t1 ++ t2) = attempted t1 ++ attempted t2.
Proof. unfold attempted. apply flat_map_app. Qed.

Lemma inner_app t1 t2 : inner (t1 ++ t2) = inner t1 ++ inner t2.
Proof. unfold inner. apply flat_map_app. Qed.

Lemma inner_map t : inner (map EvInner t) = t.
Proof. induction t as [|ev t IH]; [reflexivity|]. cbn. now f_equal. Qed.

Lemma could_not_reset_app t1 t2 :
  could_not_reset (t1 ++ t2) = could_not_reset t1 ++ could_not_reset t2.
Proof. unfold could_not_reset. apply flat_map_app. Qed.

Lemma could_not_reset_map t : could_not_reset (map EvInner t) = [].
Proof. induction t as [|ev t IH]; [reflexivity|]. exact IH. Qed.

Lemma attempted_set_one reaction h v :
  is_member v = true -> attempted (set_one_trace reaction h v) = [v].
Proof.
  unfold is_member, set_one_trace. destruct (Signals_name v); try discriminate.
  intros _. now destruct (signal_failure v h).
Qed.

Lemma attempted_creation reaction w :
  attempted (match reaction, _fin_handler w with
             | PyReaction _, None => [EvLog DEBUG MsgCreatingFin]
             | _, _ => []
             end) = [].
Proof. now destruct reaction, (_fin_handler w). Qed.

Lemma reset_loop_spec (l : list (string * Z)) :
  Forall (fun nv => is_member (snd nv) = true) l ->
  forall w,
    fst (fst (reset_loop l w)) = Ok tt /\
    attempted (inner (snd (reset_loop l w))) = map snd l /\
    could_not_reset (snd (reset_loop l w)) = [] /\
    (forall s, handlers (snd (fst (reset_loop l w))) s =
               if existsb (fun nv => (snd nv =? s) && accepts (snd nv)) l
               then SIG_DFL else handlers w s) /\
    blocked (snd (fst (reset_loop l w))) = blocked w /\
    alarm (snd (fst (reset_loop l w))) = alarm w /\
    _graceful_shutdown_callback (snd (fst (reset_loop l w))) =
      _graceful_shutdown_callback w /\
    _fin_handler (snd (fst (reset_loop l w))) =
      match l with [] => _fin_handler w | _ => Some (fin_handler_of w) end.
Proof.
  induction 1 as [|[name v] l Hv Hl IH]; intros w.
  - cbn. repeat split; reflexivity.
  - cbn [reset_loop snd fst map existsb]. cbn [snd] in Hv.
    rewrite (set_handler_one v (PyReaction dflt) w Hv eq_refl).
    cbn [resolved].
    set (w1 := install SIG_DFL (fin_created w) v).
    destruct (IH w1) as (Ho & Ha & Hc & Hh & Hb & Hal & Hcb & Hf).
    destruct (reset_loop l w1) as [[r w2] t2]. cbn [fst snd] in *.
    destruct (install_frame SIG_DFL (fin_created w) v) as (Ib & Ial & Icb & If & _).
    destruct (fin_created_frame w) as (Fb & Fal & Fcb & Ff).
    fold w1 in Ib, Ial, Icb, If.
    split; [exact Ho|]. split.
    { rewrite inner_app, inner_map, attempted_app, attempted_app, Ha.
      rewrite (attempted_set_one _ _ _ Hv). now destruct (_fin_handler w). }
    split.
    { now rewrite could_not_reset_app, could_not_reset_map, Hc. }
    split.
    { intros s. rewrite Hh. unfold w1. rewrite handlers_install, handlers_fin_created.
      destruct (existsb _ l); [now rewrite orb_true_r|]. rewrite orb_false_r.
      reflexivity. }
    split; [congruence|]. split; [congruence|]. split; [congruence|].
    rewrite Hf. destruct l as [|x l']; [congruence|].
    unfold fin_handler_of. rewrite If, Ff. reflexivity.
Qed.

(** X1.  [reset_to_defaults] always returns.  It calls [signal.signal]
    once for every member of [Signals] (aliases apart), in the order of
    the enumeration; afterwards every member the platform lets be
    changed has [SIG_DFL], every other signal has the handler it had.
    What the platform refuses is swallowed inside [set_handler], so the
    [except] branch of the loop is never taken.  The blocked set, the
    alarm and the shutdown callback stay as they were; the terminate
    handler is created as a side effect when none was cached. *)
Theorem reset_to_defaults_total (w : World) :
  fst (fst (reset_to_defaults w)) = Ok tt /\
  attempted (inner (snd (reset_to_defaults w))) = map snd Signals_iter /\
  could_not_reset (snd (reset_to_defaults w)) = [] /\
  (forall s, handlers (snd (fst (reset_to_defaults w))) s =
             if is_member s && accepts s then SIG_DFL else handlers w s) /\
  blocked (snd (fst (reset_to_defaults w))) = blocked w /\
  alarm (snd (fst (reset_to_defaults w))) = alarm w /\
  _graceful_shutdown_callback (snd (fst (reset_to_defaults w))) =
    _graceful_shutdown_callback w /\
  (Signals_iter <> [] ->
   _fin_handler (snd (fst (reset_to_defaults w))) = Some (fin_handler_of w)).
Proof.
  assert (Hmem : Forall (fun nv => is_member (snd nv) = true) Signals_iter).
  { apply List.Forall_forall. intros [name v] Hin. cbn [snd].
    eapply available_is_member, Signals_iter_available, Hin. }
  destruct (reset_loop_spec Signals_iter Hmem w) as (Ho & Ha & Hc & Hh & Hb & Hal & Hcb & Hf).
  unfold reset_to_defaults. destruct (reset_loop Signals_iter w) as [[r w1] t1].
  cbn [fst snd] in *.
  split; [exact Ho|]. split; [exact Ha|]. split; [exact Hc|].
  split; [|split; [exact Hb|split; [exact Hal|split; [exact Hcb|]]]].
  2:{ intros Hne. rewrite Hf. now destruct Signals_iter. }
  intros s. rewrite Hh.
  destruct (is_member s) eqn:Hs; cbn [andb].
  - destruct (member_in_Signals_iter s Hs) as [name Hin].
    destruct (accepts s) eqn:Hacc.
    + assert (Hex : existsb (fun nv => (snd nv =? s) && accepts (snd nv)) Signals_iter = true).
      { apply existsb_exists. exists (name, s). split; [exact Hin|].
        cbn [snd]. now rewrite Z.eqb_refl, Hacc. }
      now rewrite Hex.
    + assert (Hex : existsb (fun nv => (snd nv =? s) && accepts (snd nv)) Signals_iter = false).
      { apply not_true_is_false. intros Hex. apply existsb_exists in Hex.
        destruct Hex as ([n v] & _ & Hx). cbn [snd] in Hx.
        apply andb_prop in Hx. destruct Hx as [Hx1 Hx2].
        apply Z.eqb_eq in Hx1. congruence. }
      now rewrite Hex.
  - assert (Hex : existsb (fun nv => (snd nv =? s) && accepts (snd nv)) Signals_iter = false).
    { apply not_true_is_false. intros Hex. apply existsb_exists in Hex.
      destruct Hex as ([n v] & Hin & Hx). cbn [snd] in Hx.
      apply andb_prop in Hx. destruct Hx as [Hx1 _]. apply Z.eqb_eq in Hx1. subst v.
      apply Signals_iter_available, available_is_member in Hin. congruence. }
    now rewrite Hex.
Qed.

(** ** [ignore_terminal_signals] *)

Lemma Signals_getitem_value name v :
  Signals_value name = Some v ->
  in_members name = true /\
  exists canonical, Signals_getitem name = Some (canonical, v) /\
                    In (canonical, v) _AVAILABLE_SIGNALS.
Proof.
  intros Hv. pose proof (Signals_value_available _ _ Hv) as Hin. split.
  - unfold in_members. apply existsb_exists. exists (name, v).
    split; [exact Hin | apply String.eqb_refl].
  - unfold Signals_getitem. rewrite Hv.
    destruct (List.find (fun nv => snd nv =? v) _AVAILABLE_SIGNALS) as [[c v']|] eqn:E.
    + apply List.find_some in E. destruct E as [Hc Hv']. cbn [snd] in Hv'.
      apply Z.eqb_eq in Hv'. subst v'. now exists c.
    + apply List.find_none with (x := (name, v)) in E; [|exact Hin].
      cbn [snd] in E. now rewrite Z.eqb_refl in E.
Qed.

Lemma signals_to_ignore_spec m :
  In m signals_to_ignore <->
  exists name, In name terminal_signal_names /\ Signals_getitem name = Some m.
Proof.
  unfold signals_to_ignore. rewrite in_flat_map. split.
  - intros (name & Hn & Hm). exists name. split; [exact Hn|].
    destruct (in_members name); [|destruct Hm].
    destruct (Signals_getitem name) as [m'|]; [|destruct Hm].
    destruct Hm as [->|[]]. reflexivity.
  - intros (name & Hn & Hm). exists name. split; [exact Hn|].
    assert (Hmem : in_members name = true).
    { unfold Signals_getitem in Hm.
      destruct (Signals_value name) as [v|] eqn:Hv; [|discriminate].
      now apply Signals_getitem_value in Hv. }
    rewrite Hmem, Hm. now left.
Qed.

Lemma signals_to_ignore_values v :
  In v (map snd signals_to_ignore) <->
  exists name, In name terminal_signal_names /\ Signals_value name = Some v.
Proof.
  rewrite in_map_iff. split.
  - intros ([c v'] & Hv & Hin). cbn [snd] in Hv. subst v'.
    apply signals_to_ignore_spec in Hin. destruct Hin as (name & Hn & Hg).
    exists name. split; [exact Hn|]. unfold Signals_getitem in Hg.
    destruct (Signals_value name) as [v0|] eqn:Hv0; [|discriminate].
    apply List.find_some in Hg. destruct Hg as [_ Hg]. cbn [snd] in Hg.
    apply Z.eqb_eq in Hg. now subst.
  - intros (name & Hn & Hv).
    destruct (Signals_getitem_value _ _ Hv) as (_ & c & Hg & _).
    exists (c, v). split; [reflexivity|]. apply signals_to_ignore_spec. eauto.
Qed.

Lemma signals_to_ignore_members :
  Forall (fun s => is_member s = true) (map snd signals_to_ignore).
Proof.
  apply List.Forall_forall. intros v Hv. apply signals_to_ignore_values in Hv.
  destruct Hv as (name & _ & Hv).
  eapply available_is_member, Signals_value_available, Hv.
Qed.

Lemma ignored_iff s :
  existsb (fun x => (x =? s) &&
                    match signal_failure x SIG_IGN with None => true | _ => false end)
          (map snd signals_to_ignore) =
  existsb (fun name => match Signals_value name with
                       | Some v => (v =? s) && accepts v
                       | None => false
                       end) terminal_signal_names.
Proof.
  apply eq_true_iff_eq. rewrite !existsb_exists. split.
  - intros (x & Hx & Hc). apply signals_to_ignore_values in Hx.
    destruct Hx as (name & Hn & Hv). exists name. split; [exact Hn|]. rewrite Hv.
    apply andb_prop in Hc. destruct Hc as [Hc1 Hc2]. rewrite Hc1. cbn [andb].
    destruct (signal_failure x SIG_IGN) eqn:Hf; [discriminate|].
    now apply signal_failure_accepts in Hf.
  - intros (name & Hn & Hc). destruct (Signals_value name) as [v|] eqn:Hv; [|discriminate].
    exists v. split; [apply signals_to_ignore_values; eauto|].
    apply andb_prop in Hc. destruct Hc as [Hc1 Hc2]. rewrite Hc1. cbn [andb].
    now rewrite (proj2 (signal_failure_accepts v SIG_IGN ltac:(discriminate)) Hc2).
Qed.

(** X2.  [ignore_terminal_signals] always returns: of the six terminal
    signals it takes those the platform defines, so [set_handler]
    finds every one in [Signals].  Afterwards a signal has [SIG_IGN]
    when it is one of them and the platform lets it be changed, and the
    handler it had otherwise.  The blocked set, the alarm and the
    shutdown callback stay as they were. *)
Theorem ignore_terminal_signals_total (w : World) :
  fst (fst (ignore_terminal_signals w)) = Ok tt /\
  attempted (inner (snd (ignore_terminal_signals w))) = map snd signals_to_ignore /\
  (forall s, handlers (snd (fst (ignore_terminal_signals w))) s =
             if existsb (fun name => match Signals_value name with
                                     | Some v => (v =? s) && accepts v
                                     | None => false
                                     end) terminal_signal_names
             then SIG_IGN else handlers w s) /\
  blocked (snd (fst (ignore_terminal_signals w))) = blocked w /\
  alarm (snd (fst (ignore_terminal_signals w))) = alarm w /\
  _graceful_shutdown_callback (snd (fst (ignore_terminal_signals w))) =
    _graceful_shutdown_callback w.
Proof.
  unfold ignore_terminal_signals.
  pose proof signals_to_ignore_members as Hmem.
  assert (Hnil : signals_to_ignore = [] ->
                 forall s, existsb (fun name => match Signals_value name with
                                                | Some v => (v =? s) && accepts v
                                                | None => false
                                                end) terminal_signal_names = false).
  { intros Hnil s. rewrite <- ignored_iff, Hnil. reflexivity. }
  destruct signals_to_ignore as [|m l] eqn:E.
  - cbn [fst snd]. split; [reflexivity|]. split; [reflexivity|].
    split; [|now repeat split]. intros s. now rewrite (Hnil eq_refl).
  - clear Hnil. rewrite <- E in *. clear E m l.
    rewrite <- map_map with (f := snd) (g := PyInt).
    rewrite (set_handler_eq _ (PyReaction ign) w Hmem eq_refl). cbn [fst snd resolved].
    destruct (install_loop_frame SIG_IGN (map snd signals_to_ignore) (fin_created w))
      as (Hb & Hal & Hcb & _).
    destruct (fin_created_frame w) as (Fb & Fal & Fcb & _).
    split; [reflexivity|]. split.
    { cbn [inner flat_map app]. fold (inner (map EvInner
        (match _fin_handler w with
         | Some _ => []
         | None => [EvLog DEBUG MsgCreatingFin]
         end ++ flat_map (set_one_trace (PyReaction ign) SIG_IGN)
                         (map snd signals_to_ignore)))).
      rewrite inner_map, attempted_app, (attempted_set_loop _ _ _ Hmem).
      now destruct (_fin_handler w). }
    split; [|split; [congruence | split; congruence]].
    intros s. rewrite handlers_install_loop, handlers_fin_created, ignored_iff.
    reflexivity.
Qed.

(** ** [set_handler], continued *)

(** X3.  [get_signal_setting] right after [set_handler] on a batch of
    members with a valid reaction: for a signal of the batch it reports
    the handler the reaction stands for when the platform took it, and
    the handler from before the call when the platform refused it. *)
Theorem get_after_set (signal_list : list Z) (reaction : PyObj) (w : World) (v : Z) :
  Forall (fun s => is_member s = true) signal_list ->
  valid_reaction reaction = true ->
  In v signal_list -> in_range v = true ->
  let after := world (set_handler (PyList (map PyInt signal_list)) reaction w) in
  get_signal_setting (PyInt v) after =
  (Ok (if accepts v then resolved reaction w else handlers w v), after, []).
Proof.
  intros Hl Hr Hv Hrange after. rewrite get_signal_setting_int, Hrange.
  f_equal. f_equal. f_equal. unfold after.
  rewrite (set_handler_eq _ _ w Hl Hr). unfold world. cbn [fst snd].
  rewrite handlers_install_loop.
  assert (Hw : handlers (match reaction with PyReaction _ => fin_created w | _ => w end)
               = handlers w).
  { destruct reaction; try reflexivity. apply handlers_fin_created. }
  rewrite Hw. destruct (accepts v) eqn:Hacc.
  - assert (Hex : existsb (fun x => (x =? v) &&
                     match signal_failure x (resolved reaction w) with
                     | None => true | _ => false end) signal_list = true).
    { apply existsb_exists. exists v. split; [exact Hv|]. rewrite Z.eqb_refl.
      now rewrite (proj2 (signal_failure_accepts v _ (resolved_not_None reaction w)) Hacc). }
    now rewrite Hex.
  - assert (Hex : existsb (fun x => (x =? v) &&
                     match signal_failure x (resolved reaction w) with
                     | None => true | _ => false end) signal_list = false).
    { apply not_true_is_false. intros Hex. apply existsb_exists in Hex.
      destruct Hex as (x & _ & Hx). apply andb_prop in Hx. destruct Hx as [Hx1 Hx2].
      apply Z.eqb_eq in Hx1. subst x.
      destruct (signal_failure v (resolved reaction w)) eqn:Hf; [discriminate|].
      apply signal_failure_accepts in Hf; [congruence | apply resolved_not_None]. }
    now rewrite Hex.
Qed.

Lemma handler_to_set_valid reaction w :
  valid_reaction reaction = true ->
  exists w1 t1, handler_to_set reaction w = (Ok (resolved reaction w), w1, t1).
Proof.
  destruct reaction as [| | | | | |sr|c]; try discriminate; intros _.
  - rewrite handler_to_set_reaction. eauto.
  - rewrite handler_to_set_callable. eauto.
Qed.

Lemma forM__app {A} (f : A -> M unit) (l1 l2 : list A) w :
  forM_ (l1 ++ l2) f w = (forM_ l1 f;; forM_ l2 f) w.
Proof.
  revert w. induction l1 as [|x l1 IH]; intros w; cbn [app forM_].
  - now rewrite bind_ret_l.
  - unfold bind. destruct (f x w) as [[[[]|e|s] w1] t1]; try reflexivity.
    rewrite IH. unfold bind.
    destruct (forM_ l1 f w1) as [[[[]|e|s] w2] t2]; try reflexivity.
    destruct (forM_ l2 f w2) as [[r w3] t3]. now rewrite app_assoc.
Qed.

Lemma set_one_unknown reaction h sig w :
  is_member sig = false -> set_one reaction h sig w = (Raise ValueError, w, []).
Proof.
  unfold is_member, set_one, Signals_name.
  destruct (List.find (fun nv => snd nv =? sig) _AVAILABLE_SIGNALS); [discriminate|].
  reflexivity.
Qed.

(** X4.  A number that is not a member of [Signals] stops
    [set_handler] with [ValueError] where it stands in the batch: the
    signals before it have been dealt with (the state is the one
    [set_handler] leaves for them alone), no signal after it is
    touched. *)
Theorem set_handler_stops_at_unknown
    (before_it after_it : list Z) (unknown : Z) (reaction : PyObj) (w : World) :
  Forall (fun s => is_member s = true) before_it ->
  is_member unknown = false ->
  valid_reaction reaction = true ->
  let r := set_handler (PyList (map PyInt (before_it ++ unknown :: after_it))) reaction w in
  let r0 := set_handler (PyList (map PyInt before_it)) reaction w in
  outcome r = Raise ValueError /\
  world r = world r0 /\
  trace r = trace r0 /\
  attempted (trace r) = before_it.
Proof.
  intros Hl Hbad Hr r r0.
  destruct (handler_to_set_valid reaction w Hr) as (w1 & t1 & Hres).
  pose proof (set_loop_eq reaction _ before_it w1 Hl (resolved_not_None reaction w))
    as Hloop.
  assert (E0 : r0 = (Ok tt, fold_left (install (resolved reaction w)) before_it w1,
                     t1 ++ flat_map (set_one_trace reaction (resolved reaction w)) before_it)).
  { unfold r0, set_handler. rewrite (bind_pure _ _ _ _ (normalize_int_list _ _)).
    now apply (bind_ok _ _ _ _ _ _ _ _ _ Hres). }
  assert (E : r = (Raise ValueError, fold_left (install (resolved reaction w)) before_it w1,
                   t1 ++ flat_map (set_one_trace reaction (resolved reaction w)) before_it)).
  { unfold r, set_handler. rewrite (bind_pure _ _ _ _ (normalize_int_list _ _)).
    apply (bind_ok _ _ _ _ _ _ _ _ _ Hres). rewrite forM__app.
    rewrite <- (app_nil_r (flat_map _ before_it)).
    apply (bind_ok _ _ _ _ _ _ _ _ _ Hloop). cbn [forM_].
    apply bind_raise, set_one_unknown, Hbad. }
  rewrite E, E0. unfold outcome, world, trace. cbn [fst snd].
  split; [reflexivity|]. split; [reflexivity|]. split; [reflexivity|].
  rewrite attempted_app, (attempted_set_loop _ _ _ Hl).
  assert (Ht1 : attempted t1 = []).
  { destruct reaction as [| | | | | |sr|c]; try discriminate.
    - rewrite handler_to_set_reaction in Hres. apply (f_equal snd) in Hres.
      cbn [snd] in Hres. rewrite <- Hres. now destruct (_fin_handler w).
    - rewrite handler_to_set_callable in Hres. apply (f_equal snd) in Hres.
      cbn [snd] in Hres. now rewrite <- Hres. }
  now rewrite Ht1.
Qed.

Lemma mapM_lift_pure {A B} (f : A -> Outcome B) (l : list A) :
  exists o, forall w, mapM (fun x => lift (f x)) l w = (o, w, []).
Proof.
  induction l as [|x l [o IH]].
  - exists (Ok []). reflexivity.
  - cbn [mapM]. destruct (f x) as [y|e|s].
    + destruct o as [ys|e|s].
      * exists (Ok (y :: ys)). intros w. rewrite bind_lift_ok.
        now rewrite (bind_pure _ _ _ _ (IH w)).
      * exists (Raise e). intros w. rewrite bind_lift_ok.
        now rewrite (bind_raise _ _ _ _ _ _ (IH w)).
      * exists (Killed s). intros w. rewrite bind_lift_ok.
        now rewrite (bind_killed _ _ _ _ _ _ (IH w)).
    + exists (Raise e). reflexivity.
    + exists (Killed s). reflexivity.
Qed.

Lemma normalize_pure (signals : PyObj) :
  exists o, forall w, _normalize_signals signals w = (o, w, []).
Proof.
  assert (Hone : exists o, forall w,
            (do z <- lift (py_int signals); ret [z]) w = (o, w, [])).
  { destruct (py_int signals) as [z|e|s];
      [exists (Ok [z]) | exists (Raise e) | exists (Killed s)]; reflexivity. }
  destruct signals; try exact Hone. apply mapM_lift_pure.
Qed.

(** X5.  A reaction that is neither a [SigReaction] nor a callable:
    [set_handler] raises (the error of [int] when the signals do not
    normalize, [TypeError] otherwise) before it installs anything; the
    whole state is as before, the terminate handler is not created and
    nothing is logged. *)
Theorem set_handler_rejects_reaction (signals reaction : PyObj) (w : World) :
  valid_reaction reaction = false ->
  world (set_handler signals reaction w) = w /\
  trace (set_handler signals reaction w) = [] /\
  (forall l, outcome (_normalize_signals signals w) = Ok l ->
             outcome (set_handler signals reaction w) = Raise TypeError) /\
  (forall e, outcome (_normalize_signals signals w) = Raise e ->
             outcome (set_handler signals reaction w) = Raise e).
Proof.
  intros Hr. destruct (normalize_pure signals) as [o Ho]. unfold set_handler.
  rewrite Ho. unfold outcome at 1 3. cbn [fst].
  destruct o as [l|e|s].
  - rewrite (bind_pure _ _ _ _ (Ho w)).
    rewrite (bind_raise _ _ _ _ _ _ (handler_to_set_invalid reaction w Hr)).
    repeat split; try reflexivity; discriminate.
  - rewrite (bind_raise _ _ _ _ _ _ (Ho w)).
    repeat split; try reflexivity; [discriminate | now intros e0 [= <-]].
  - rewrite (bind_killed _ _ _ _ _ _ (Ho w)).
    repeat split; try reflexivity; discriminate.
Qed.

(** ** [has_sig] *)

Lemma has_sig_int v : has_sig (PyInt v) = is_member v.
Proof.
  cbn [has_sig int_like]. unfold is_member, Signals_name.
  destruct (List.find (fun nv => snd nv =? v) _AVAILABLE_SIGNALS) as [nv|] eqn:E.
  - apply existsb_exists. apply List.find_some in E. exists nv. exact E.
  - apply not_true_is_false. intros H. apply existsb_exists in H.
    destruct H as (nv & Hin & Hv). apply (List.find_none _ _ E) in Hin. congruence.
Qed.

(** X6.  [has_sig] of a number tells whether the number is a member of
    [Signals], which is exactly when [set_handler] with a valid
    reaction takes it; [has_sig] of a string holds only for names of
    the platform table, which start with SIG but not with SIG_;
    [has_sig] of anything that is neither is false. *)
Theorem has_sig_agrees_with_set_handler (v : Z) (name : string) (reaction : PyObj) (w : World) :
  valid_reaction reaction = true ->
  (has_sig (PyInt v) = true <->
   outcome (set_handler (PyInt v) reaction w) = Ok tt) /\
  (has_sig (PyInt v) = false ->
   outcome (set_handler (PyInt v) reaction w) = Raise ValueError) /\
  (has_sig (PyStr name) = true <-> exists n, In (name, n) _AVAILABLE_SIGNALS) /\
  (has_sig (PyStr name) = true ->
   String.prefix "SIG" name = true /\ String.prefix "SIG_" name = false) /\
  has_sig PyNone = false /\
  (forall items, has_sig (PyList items) = false) /\
  (forall c, has_sig (PyCallable c) = false).
Proof.
  intros Hr.
  assert (Hno : is_member v = false ->
                outcome (set_handler (PyInt v) reaction w) = Raise ValueError).
  { intros Hm. destruct (handler_to_set_valid reaction w Hr) as (w1 & t1 & Hres).
    unfold set_handler. rewrite (bind_pure _ _ _ _ (normalize_int v w)).
    erewrite bind_ok; [reflexivity | exact Hres |]. cbn [forM_].
    apply bind_raise, set_one_unknown, Hm. }
  assert (Hnames : has_sig (PyStr name) = true <-> exists n, In (name, n) _AVAILABLE_SIGNALS).
  { cbn [has_sig]. rewrite existsb_exists. split.
    - intros ([n0 v0] & Hin & Hn). cbn [fst] in Hn. apply String.eqb_eq in Hn.
      subst n0. eauto.
    - intros [n Hin]. exists (name, n). split; [exact Hin | apply String.eqb_refl]. }
  rewrite has_sig_int. split; [|split; [exact Hno|split; [exact Hnames|split]]].
  - split.
    + intros Hm. now rewrite (set_handler_one v reaction w Hm Hr).
    + intros Hok. destruct (is_member v) eqn:Hm; [reflexivity|].
      rewrite (Hno eq_refl) in Hok. discriminate.
  - intros Hs. apply Hnames in Hs. destruct Hs as [n Hin].
    unfold _AVAILABLE_SIGNALS in Hin. apply filter_In in Hin. destruct Hin as [_ Hp].
    cbn [fst] in Hp. apply andb_prop in Hp. destruct Hp as [Hp1 Hp2].
    split; [exact Hp1 | now apply negb_true_iff].
  - repeat split.
Qed.

(** ** The terminate handler, continued *)

Lemma handler_no_callback n name w :
  Signals_name n = Ok name -> no_live_callback w = true ->
  handler n w =
  (Raise (SystemExit (128 + n)), w, [EvLog WARNING (MsgReceivedTerminating name)]).
Proof.
  intros Hn Hcb. unfold handler. rewrite Hn, bind_lift_ok.
  apply bind_emit. rewrite bind_gets. unfold no_live_callback in Hcb.
  destruct (_graceful_shutdown_callback w) as [c|]; [|reflexivity].
  apply negb_true_iff in Hcb. now rewrite Hcb.
Qed.

Lemma handler_callback_raises n name cb id e w :
  Signals_name n = Ok name ->
  _graceful_shutdown_callback w = Some cb -> truthy cb = true ->
  user_id cb = Some id -> fst (fn_body id None w) = Raise e ->
  handler n w =
  (Raise e, snd (fn_body id None w),
   [EvLog WARNING (MsgReceivedTerminating name); EvLog INFO MsgExecutingShutdown;
    EvCall cb None]).
Proof.
  intros Hn Hcb Ht Hid Hret. unfold handler. rewrite Hn, bind_lift_ok.
  apply bind_emit. rewrite bind_gets, Hcb, Ht.
  unfold bind at 1. unfold bind at 1. unfold emit at 1.
  rewrite (call0_user _ _ _ Hid). unfold call_user.
  destruct (fn_body id None w) as [o w1]. cbn [fst snd] in *. subst o. reflexivity.
Qed.

Lemma fin_handler_of_closure w :
  fin_cache_ok w = true -> exists oid, fin_handler_of w = FinHandler oid.
Proof.
  unfold fin_cache_ok, fin_handler_of.
  destruct (_fin_handler w) as [[]|]; try discriminate; eauto.
Qed.

(** The state [graceful_shutdown] leaves. *)
Lemma graceful_shutdown_state cb w :
  has_name cb = true ->
  let after := world (graceful_shutdown (PyCallable cb) w) in
  outcome (graceful_shutdown (PyCallable cb) w) = Ok tt /\
  _graceful_shutdown_callback after = Some cb /\
  _fin_handler after = Some (fin_handler_of w) /\
  forall name n,
    In (name, n) _terminating_by_default -> name <> "SIGKILL" -> accepts n = true ->
    handlers after n = Handler (fin_handler_of w).
Proof.
  intros Hname after. unfold after. rewrite (graceful_shutdown_eq _ _ Hname).
  cbv zeta. unfold outcome, world. cbn [fst snd].
  set (l := map snd _). set (w1 := with_shutdown_callback (Some cb) w).
  destruct (install_loop_frame (Handler (fin_handler_of w)) l (fin_created w1))
    as (_ & _ & Hcb & Hfin & _).
  destruct (fin_created_frame w1) as (_ & _ & Fcb & Ff).
  split; [reflexivity|]. split; [now rewrite Hcb, Fcb|]. split.
  { rewrite Hfin, Ff. reflexivity. }
  intros name n Hin Hkill Hacc. rewrite handlers_install_loop.
  assert (Hf : signal_failure n (Handler (fin_handler_of w)) = None)
    by (apply signal_failure_accepts; [discriminate | assumption]).
  assert (Hex : existsb (fun x => (x =? n) &&
                   match signal_failure x (Handler (fin_handler_of w)) with
                   | None => true | _ => false end) l = true).
  { apply existsb_exists. exists n. split; [| now rewrite Z.eqb_refl, Hf].
    unfold l. apply in_map_iff. exists (name, n). split; [reflexivity|].
    apply filter_In. split; [assumption|]. cbn [fst].
    apply negb_true_iff. now apply String.eqb_neq. }
  now rewrite Hex.
Qed.

(** X7.  [set_handler(sig, fin)] on an instance whose shutdown callback
    is not set (or is falsy): when the signal is delivered the handler
    calls nothing and raises [SystemExit(128 + sig)], leaving the state
    as it is. *)
Theorem terminate_without_callback (v : Z) (w : World) :
  is_member v = true -> accepts v = true -> fin_cache_ok w = true ->
  no_live_callback w = true ->
  let after := world (set_handler (PyInt v) (PyReaction fin) w) in
  handlers after v = Handler (fin_handler_of w) /\
  deliver v after = (Raise (SystemExit (128 + v)), after, trace (deliver v after)) /\
  calls (trace (deliver v after)) = [].
Proof.
  intros Hm Hacc Hcache Hcb after.
  assert (Hafter : after = install (Handler (fin_handler_of w)) (fin_created w) v).
  { unfold after. now rewrite (set_handler_one v (PyReaction fin) w Hm eq_refl). }
  assert (Hh : handlers after v = Handler (fin_handler_of w)).
  { rewrite Hafter, handlers_install, Z.eqb_refl, Hacc. reflexivity. }
  assert (Hcb' : no_live_callback after = true).
  { unfold no_live_callback in *.
    destruct (install_frame (Handler (fin_handler_of w)) (fin_created w) v)
      as (_ & _ & Icb & _).
    destruct (fin_created_frame w) as (_ & _ & Fcb & _).
    rewrite Hafter, Icb, Fcb. exact Hcb. }
  unfold is_member in Hm. destruct (Signals_name v) as [name| |] eqn:Hn; try discriminate.
  destruct (fin_handler_of_closure w Hcache) as [oid Hoid].
  assert (Hd : deliver v after =
               (Raise (SystemExit (128 + v)), after,
                [EvLog WARNING (MsgReceivedTerminating name)])).
  { unfold deliver. rewrite Hh, Hoid. cbn [call2].
    now apply handler_no_callback. }
  split; [exact Hh|]. rewrite Hd. split; reflexivity.
Qed.

(** X8.  After [graceful_shutdown(cb)] with a callback that raises when
    it is called: a terminating signal calls [cb] once and the
    exception of [cb] comes out of the handler; [SystemExit] is not
    raised, so the process does not end with status 128 + n. *)
Theorem shutdown_callback_failure_prevents_exit
    (cb : Callable) (id : nat) (e : Exn) (w : World) :
  has_name cb = true -> truthy cb = true -> user_id cb = Some id ->
  (forall w0, fst (fn_body id None w0) = Raise e) ->
  fin_cache_ok w = true ->
  forall name n,
    In (name, n) _terminating_by_default -> name <> "SIGKILL" -> accepts n = true ->
    let after := world (graceful_shutdown (PyCallable cb) w) in
    outcome (deliver n after) = Raise e /\
    calls (trace (deliver n after)) = [(cb, None)].
Proof.
  intros Hname Htruthy Hid Hraise Hcache name n Hin Hkill Hacc after.
  destruct (graceful_shutdown_state cb w Hname) as (_ & Hcb & _ & Hh).
  fold after in Hcb, Hh. specialize (Hh name n Hin Hkill Hacc).
  destruct (fin_handler_of_closure w Hcache) as [oid Hoid].
  assert (Hn : Signals_name n = Ok name).
  { unfold _terminating_by_default in Hin. apply filter_In in Hin.
    now apply Signals_iter_name. }
  unfold deliver. rewrite Hh, Hoid. cbn [call2].
  rewrite (handler_callback_raises n name cb id e after Hn Hcb Htruthy Hid (Hraise after)).
  split; reflexivity.
Qed.

(** X9.  A second [graceful_shutdown] replaces the callback and keeps
    the terminate handler: after [graceful_shutdown(cb1)] and then
    [graceful_shutdown(cb2)] the cached handler is the object the first
    call cached, it is the disposition of the terminating signals, and
    a terminating signal calls [cb2] only. *)
Theorem graceful_shutdown_replaces_callback
    (cb1 cb2 : Callable) (id2 : nat) (w : World) :
  has_name cb1 = true -> has_name cb2 = true ->
  truthy cb2 = true -> user_id cb2 = Some id2 ->
  (forall w0, fst (fn_body id2 None w0) = Ok tt) ->
  fin_cache_ok w = true ->
  let first := world (graceful_shutdown (PyCallable cb1) w) in
  let second := world (graceful_shutdown (PyCallable cb2) first) in
  _fin_handler second = _fin_handler first /\
  creations (trace (graceful_shutdown (PyCallable cb2) first)) = 0%nat /\
  forall name n,
    In (name, n) _terminating_by_default -> name <> "SIGKILL" -> accepts n = true ->
    handlers second n = handlers first n /\
    outcome (deliver n second) = Raise (SystemExit (128 + n)) /\
    calls (trace (deliver n second)) = [(cb2, None)].
Proof.
  intros Hn1 Hn2 Ht2 Hid2 Hret Hcache first second.
  destruct (graceful_shutdown_state cb1 w Hn1) as (_ & _ & Hf1 & Hh1).
  fold first in Hf1, Hh1.
  destruct (graceful_shutdown_state cb2 first Hn2) as (_ & Hcb2 & Hf2 & Hh2).
  fold second in Hcb2, Hf2, Hh2.
  assert (Hsame : fin_handler_of first = fin_handler_of w).
  { unfold fin_handler_of at 1. now rewrite Hf1. }
  rewrite Hsame in Hf2, Hh2.
  split; [congruence|]. split.
  { destruct (monotone_graceful_shutdown (PyCallable cb2) first) as [Hc _].
    fold second in Hc. unfold cached in Hc. rewrite Hf1, Hf2 in Hc. lia. }
  intros name n Hin Hkill Hacc.
  specialize (Hh1 name n Hin Hkill Hacc). specialize (Hh2 name n Hin Hkill Hacc).
  split; [congruence|].
  destruct (fin_handler_of_closure w Hcache) as [oid Hoid].
  assert (Hn : Signals_name n = Ok name).
  { unfold _terminating_by_default in Hin. apply filter_In in Hin.
    now apply Signals_iter_name. }
  unfold deliver. rewrite Hh2, Hoid. cbn [call2].
  rewrite (handler_eq n name cb2 id2 second Hn Hcb2 Ht2 Hid2 (Hret second)).
  split; reflexivity.
Qed.

(** X10.  A callable without [__name__] (a [functools.partial], an
    instance with [__call__]) is refused with [AttributeError] by the
    log record that names it: [graceful_shutdown] does not store it and
    installs nothing, [chain_handler] (with a valid order, on a member
    in range) installs nothing. *)
Theorem nameless_callable_is_refused (cb : Callable) (sig : Z) (ord : Order) (w : World) :
  has_name cb = false ->
  is_member sig = true -> in_range sig = true ->
  graceful_shutdown (PyCallable cb) w = (Raise AttributeError, w, []) /\
  chain_handler (PyInt sig) (PyCallable cb) (PyStr (order_str ord)) w =
    (Raise AttributeError, w, []).
Proof.
  intros Hname Hm Hrange. split.
  - unfold graceful_shutdown. cbn [callable]. now rewrite Hname.
  - unfold chain_handler. rewrite order_of_str.
    rewrite (bind_pure _ _ _ (handlers w sig)).
    2:{ rewrite get_signal_setting_int. now rewrite Hrange. }
    cbn [Signals_name_of int_like]. unfold is_member in Hm.
    destruct (Signals_name sig); try discriminate.
    rewrite bind_lift_ok. cbn [callable]. now rewrite Hname.
Qed.

(** ** [chain_handler], continued *)

(** X11.  Chained with "before": when the new callback raises, the
    exception comes out of the composite and the captured handler is
    not called. *)
Theorem chain_before_failure_skips_original
    (sig : Z) (cb : Callable) (id : nat) (e : Exn) (w : World) :
  accepts sig = true -> is_member sig = true ->
  has_name cb = true -> user_id cb = Some id ->
  (forall w0, fst (fn_body id (Some sig) w0) = Raise e) ->
  let chained := world (chain_handler (PyInt sig) (PyCallable cb) (PyStr "before") w) in
  outcome (deliver sig chained) = Raise e /\
  calls (trace (deliver sig chained)) = [(cb, Some sig)].
Proof.
  intros Hacc Hm Hname Hid Hraise chained.
  unfold is_member in Hm. destruct (Signals_name sig) as [name| |] eqn:Hn; try discriminate.
  assert (Hh : handlers chained sig =
               Handler (ChainedHandler (next_oid w) before cb (handlers w sig))).
  { unfold chained. change (PyStr "before") with (PyStr (order_str before)).
    rewrite (chain_handler_eq sig name cb before w Hacc Hn Hname).
    unfold world. cbn [fst snd handlers with_handlers]. apply update_eq. }
  unfold deliver. rewrite Hh. cbn [call2].
  assert (Hcb : forall w0, call2 cb sig w0 =
                           (Raise e, snd (fn_body id (Some sig) w0), [EvCall cb (Some sig)])).
  { intros w0. specialize (Hraise w0).
    destruct cb; cbn in Hid; try discriminate; injection Hid as <-;
      cbn [call2]; unfold call_user;
      destruct (fn_body _ (Some sig) w0) as [o w1]; cbn [fst snd] in *; now subst o. }
  rewrite (bind_raise _ _ _ _ _ _ (Hcb chained)). split; reflexivity.
Qed.

(** The terminate handler never returns, and what it calls it calls
    without arguments. *)
Lemma handler_never_returns n w :
  (forall a, outcome (handler n w) <> Ok a) /\
  forall f a, In (f, a) (calls (trace (handler n w))) -> a = None.
Proof.
  unfold handler, outcome, trace, bind, lift, emit, gets, ret, raise.
  destruct (Signals_name n) as [name|e|s]; cbn [fst snd];
    [| split; [discriminate | intros f a []] | split; [discriminate | intros f a []]].
  destruct (_graceful_shutdown_callback w) as [c|]; cbn [fst snd app];
    [| split; [discriminate | intros f a []]].
  destruct (truthy c); cbn [fst snd app];
    [| split; [discriminate | intros f a []]].
  destruct c; cbn [call0]; unfold call_user, raise;
    try (split; [discriminate | intros f a []]);
    destruct (fn_body _ None w) as [[[]|e|s] w1]; cbn [fst snd app];
    (split; [discriminate | intros f a Hin; cbn in Hin; intuition congruence]).
Qed.

(** X12.  Chained with "after" over the terminate handler: when the
    signal is delivered the terminate handler runs first and never
    returns, so the composite never returns and the new callback is
    never called with the signal. *)
Theorem chain_after_terminate_skips_callback
    (sig : Z) (cb : Callable) (oid : nat) (w : World) :
  accepts sig = true -> is_member sig = true -> has_name cb = true ->
  handlers w sig = Handler (FinHandler oid) ->
  let chained := world (chain_handler (PyInt sig) (PyCallable cb) (PyStr "after") w) in
  handlers chained sig = Handler (ChainedHandler (next_oid w) after cb
                                               (Handler (FinHandler oid))) /\
  (forall a, outcome (deliver sig chained) <> Ok a) /\
  ~ In (cb, Some sig) (calls (trace (deliver sig chained))).
Proof.
  intros Hacc Hm Hname Horig chained.
  unfold is_member in Hm. destruct (Signals_name sig) as [name| |] eqn:Hn; try discriminate.
  assert (Hh : handlers chained sig =
               Handler (ChainedHandler (next_oid w) after cb (Handler (FinHandler oid)))).
  { unfold chained. change (PyStr "after") with (PyStr (order_str after)).
    rewrite (chain_handler_eq sig name cb after w Hacc Hn Hname).
    unfold world. cbn [fst snd handlers with_handlers]. rewrite update_eq.
    now rewrite Horig. }
  split; [exact Hh|]. unfold deliver. rewrite Hh. cbn [call2].
  destruct (handler_never_returns sig chained) as [Hret Hcalls].
  unfold bind. destruct (handler sig chained) as [[[[]|e|s] w1] t1];
    unfold outcome, trace in *; cbn [fst snd] in *.
  - now elim (Hret tt).
  - split; [discriminate|]. intros Hin. apply Hcalls in Hin. discriminate.
  - split; [discriminate|]. intros Hin. apply Hcalls in Hin. discriminate.
Qed.

(** X13.  [chain_handler] on a signal the platform does not let be
    changed ([SIGKILL], or any signal outside the main thread): the
    call returns normally, the composite is not installed (every
    disposition is as before) and the failure is only a warning in the
    log. *)
Theorem chain_handler_on_refused_signal
    (sig : Z) (name : string) (cb : Callable) (ord : Order) (w : World) :
  Signals_name sig = Ok name -> in_range sig = true -> accepts sig = false ->
  has_name cb = true ->
  let r := chain_handler (PyInt sig) (PyCallable cb) (PyStr (order_str ord)) w in
  outcome r = Ok tt /\
  (forall s, handlers (world r) s = handlers w s) /\
  exists e, In (EvLog WARNING (MsgCouldNotSet name e)) (trace r).
Proof.
  intros Hn Hrange Hacc Hname r.
  set (composite := ChainedHandler (next_oid w) ord cb (handlers w sig)).
  assert (Hm : is_member sig = true) by (unfold is_member; now rewrite Hn).
  destruct (signal_failure sig (Handler composite)) as [e|] eqn:Hf.
  2:{ apply signal_failure_accepts in Hf; [congruence | discriminate]. }
  assert (E : r = (Ok tt, with_next_oid (S (next_oid w)) w,
                   [EvLog INFO (MsgChaining cb name ord);
                    EvLog INFO (MsgSettingHandler name (PyCallable composite));
                    EvSignal sig (Handler composite) (Some e);
                    EvLog WARNING (MsgCouldNotSet name e)])).
  { unfold r, chain_handler. rewrite order_of_str.
    rewrite (bind_pure _ _ _ (handlers w sig)).
    2:{ rewrite get_signal_setting_int. now rewrite Hrange. }
    cbn [Signals_name_of int_like]. rewrite Hn, bind_lift_ok.
    cbn [callable]. rewrite Hname. apply bind_emit.
    rewrite bind_gets, bind_modify.
    rewrite (set_handler_one sig (PyCallable composite) _ Hm eq_refl).
    cbn [resolved app]. unfold install, set_one_trace.
    now rewrite Hn, Hf. }
  rewrite E. unfold outcome, world, trace. cbn [fst snd].
  split; [reflexivity|]. split; [reflexivity|].
  exists e. right. right. right. now left.
Qed.


(** ** Scopes, continued *)

Lemma try_finally_raise {A} (body : M A) (cleanup : M unit) w r w1 t1 e w2 t2 :
  body w = (r, w1, t1) -> (forall s, r <> Killed s) ->
  cleanup w1 = (Raise e, w2, t2) ->
  try_finally body cleanup w = (Raise e, w2, t1 ++ t2).
Proof.
  intros Hb Hk Hc. unfold try_finally. rewrite Hb.
  destruct r as [a|e0|s]; [| | now elim (Hk s)]; now rewrite Hc.
Qed.

(** X15.  [with_timeout] entered while the handler of [SIGALRM] is
    [None] (installed outside of Python): at the end of the scope the
    alarm is cancelled, then [signal.signal(SIGALRM, None)] raises
    [TypeError].  That error replaces whatever the block returned or
    raised (a [SimSigTimeoutError] too), and the handler of [SIGALRM]
    is left as the block left it: the timeout closure when the block
    did not change it. *)
Theorem with_timeout_over_foreign_handler {A}
    (seconds a : Z) (block : M A) (w : World) :
  Signals_value "SIGALRM" = Some a -> accepts a = true ->
  - 2 ^ 31 <= seconds < 2 ^ 31 ->
  handlers w a = NoPyHandler ->
  (forall s, outcome (block (armed seconds a w)) <> Killed s) ->
  let r := with_timeout seconds block w in
  outcome r = Raise TypeError /\
  alarm (world r) = 0 /\
  handlers (world r) a = handlers (world (block (armed seconds a w))) a /\
  handlers (armed seconds a w) a = Handler (TimeoutHandler (next_oid w) seconds).
Proof.
  intros Ha Hacc Hsec Horig Hk r.
  set (left := block (armed seconds a w)).
  assert (E : r = (Raise TypeError, with_alarm 0 (world left),
                   EvLog DEBUG (MsgEnterTimeout seconds) ::
                   EvSignal a (Handler (TimeoutHandler (next_oid w) seconds)) None ::
                   EvAlarm seconds ::
                   trace left ++ [EvAlarm 0; EvSignal a NoPyHandler (Some TypeError)])).
  { unfold r, with_timeout. rewrite Ha.
    rewrite bind_gets, bind_modify. apply bind_emit.
    rewrite (bind_pure _ _ _ (handlers w a)).
    2:{ rewrite get_signal_setting_int. now rewrite (accepts_in_range _ Hacc). }
    set (th := Handler (TimeoutHandler (next_oid w) seconds)).
    assert (Hth : signal_failure a th = None)
      by (apply signal_failure_accepts; [discriminate | assumption]).
    assert (Ho : signal_failure a NoPyHandler = Some TypeError).
    { unfold signal_failure. unfold accepts in Hacc.
      apply andb_prop in Hacc. destruct Hacc as [Hacc _].
      apply andb_prop in Hacc. destruct Hacc as [-> ->]. reflexivity. }
    assert (Hov : (seconds <? - 2 ^ 31) || (2 ^ 31 <=? seconds) = false).
    { apply orb_false_iff. split; [apply Z.ltb_ge | apply Z.leb_gt]; lia. }
    eapply bind_ok_cons; [rewrite signal_signal_eq, Hth; reflexivity|].
    eapply bind_ok_cons; [unfold signal_alarm; rewrite Hov; reflexivity|].
    cbn [handlers with_handlers with_next_oid alarm with_alarm].
    change (with_alarm (seconds mod 2 ^ 32)
              (with_handlers (update (handlers w) a th)
                             (with_next_oid (S (next_oid w)) w)))
      with (armed seconds a w).
    fold left. rewrite Horig.
    eapply try_finally_raise; [apply surjective_result | exact Hk |].
    eapply bind_ok_cons; [reflexivity|].
    rewrite <- (app_nil_r [EvSignal a NoPyHandler (Some TypeError)]).
    apply bind_raise. rewrite signal_signal_eq, Ho. reflexivity. }
  rewrite E. unfold outcome, world at 1 2. cbn [fst snd].
  split; [reflexivity|]. split; [reflexivity|]. split; [reflexivity|].
  unfold armed. cbn [handlers with_alarm with_handlers]. apply update_eq.
Qed.

Lemma timed_block_no_alarm (a : Z) (steps : list (M unit)) :
  Forall (quiet a) steps ->
  forall w, alarm w <= 0 -> outcome (timed_block steps w) = Ok tt.
Proof.
  induction 1 as [|step steps Hstep Hsteps IH]; intros w Hal; [reflexivity|].
  destruct (Hstep w) as (Hso & Hsa & _).
  destruct (step w) as [[o1 w1] t1] eqn:Estep.
  unfold outcome, world in Hso, Hsa. cbn [fst snd] in Hso, Hsa. subst o1.
  assert (Htick : tick w1 = (Ok tt, w1, [])).
  { unfold tick. assert ((alarm w1 <=? 0) = true) as -> by (apply Z.leb_le; lia).
    reflexivity. }
  cbn [timed_block]. unfold bind at 1. rewrite Estep.
  rewrite (bind_pure _ _ _ _ Htick).
  specialize (IH w1 ltac:(lia)).
  destruct (timed_block steps w1) as [[o2 w2] t2]. exact IH.
Qed.

(** X16.  Scopes of [with_timeout] do not nest: the inner scope arms
    its own alarm in place of the outer one and cancels the alarm when
    it ends.  When the inner block ends in time, nothing is armed for
    the rest of the outer block, which therefore never times out,
    however long it takes. *)
Theorem inner_timeout_cancels_outer
    (outer_seconds inner_seconds a : Z) (inner_steps rest_steps : list (M unit))
    (w : World) :
  Signals_value "SIGALRM" = Some a -> accepts a = true ->
  0 < outer_seconds < 2 ^ 31 -> 0 < inner_seconds < 2 ^ 31 ->
  handlers w a <> NoPyHandler -> a ∉ blocked w ->
  Forall (quiet a) inner_steps -> Forall (quiet a) rest_steps ->
  Z.of_nat (length inner_steps) < inner_seconds ->
  outcome (with_timeout outer_seconds
             (with_timeout inner_seconds (timed_block inner_steps);;
              timed_block rest_steps) w) = Ok tt.
Proof.
  intros Ha Hacc Hout Hin Horig Hb Hqi Hqr Hlen.
  set (w1 := armed outer_seconds a w).
  assert (Hh1 : handlers w1 a = Handler (TimeoutHandler (next_oid w) outer_seconds)).
  { unfold w1, armed. cbn [handlers with_alarm with_handlers]. apply update_eq. }
  assert (Hb1 : a ∉ blocked w1) by exact Hb.
  set (w2 := armed inner_seconds a w1).
  assert (Hinner : outcome (timed_block inner_steps w2) = Ok tt).
  { destruct (timed_block_quiet a inner_steps Ha Hqi w2 (next_oid w1) inner_seconds)
      as [_ Hearly].
    - unfold w2, armed. cbn [alarm with_alarm]. rewrite Z.mod_small; lia.
    - unfold w2, armed. cbn [handlers with_alarm with_handlers]. apply update_eq.
    - exact Hb1.
    - apply Hearly. unfold w2, armed. cbn [alarm with_alarm]. rewrite Z.mod_small; lia. }
  assert (Hscope : with_timeout inner_seconds (timed_block inner_steps) w1 =
                   (Ok tt,
                    world (with_timeout inner_seconds (timed_block inner_steps) w1),
                    trace (with_timeout inner_seconds (timed_block inner_steps) w1)) /\
                   alarm (world (with_timeout inner_seconds (timed_block inner_steps) w1)) = 0).
  { rewrite (with_timeout_eq inner_seconds a (timed_block inner_steps) w1 Ha Hacc).
    - cbv zeta. fold w2. rewrite Hinner. split; reflexivity.
    - lia.
    - rewrite Hh1. discriminate.
    - fold w2. rewrite Hinner. discriminate. }
  destruct Hscope as [Hscope Halarm].
  assert (Hblock : outcome ((with_timeout inner_seconds (timed_block inner_steps);;
                             timed_block rest_steps) w1) = Ok tt).
  { unfold bind. rewrite Hscope.
    pose proof (timed_block_no_alarm a rest_steps Hqr _ ltac:(rewrite Halarm; lia)) as Hrest.
    destruct (timed_block rest_steps _) as [[o3 w3] t3]. exact Hrest. }
  rewrite (with_timeout_eq outer_seconds a _ w Ha Hacc).
  - cbv zeta. fold w1. exact Hblock.
  - lia.
  - exact Horig.
  - fold w1. rewrite Hblock. discriminate.
Qed.

(** X18.  [temp_handler] with a reaction that is neither a
    [SigReaction] nor a callable: [set_handler] raises [TypeError]
    inside the [try], the block is not run, the [finally] still goes
    through the snapshot and installs every handler again, and the
    scope raises [TypeError] with every disposition as before. *)
Theorem temp_handler_rejects_reaction {A}
    (signal_list : list Z) (reaction : PyObj) (block : M A) (w : World) :
  Forall (fun s => valid_signal s = true) signal_list ->
  valid_reaction reaction = false ->
  let r := temp_handler (PyList (map PyInt signal_list)) reaction block w in
  outcome r = Raise TypeError /\
  (forall s, handlers (world r) s = handlers w s) /\
  exists names,
    trace r = EvLog DEBUG (MsgEnterTemp names) :: EvLog DEBUG MsgExitTemp ::
              restore_trace (snapshot_of w signal_list []).
Proof.
  intros Hl Hr r.
  destruct (names_of_members _ (valid_signals_members _ Hl)) as [names Hnames].
  set (d := snapshot_of w signal_list []).
  assert (E : r = (Raise TypeError, fold_left restore_step d w,
                   EvLog DEBUG (MsgEnterTemp names) :: EvLog DEBUG MsgExitTemp ::
                   restore_trace d)).
  { unfold r, temp_handler.
    rewrite (bind_pure _ _ _ _ (normalize_int_list _ _)).
    rewrite (bind_pure _ _ _ _ (snapshot_eq _ _ _ (valid_signals_in_range _ Hl))).
    rewrite (bind_pure _ _ _ _ (Hnames w)).
    apply bind_emit. fold d.
    change (EvLog DEBUG MsgExitTemp :: restore_trace d)
      with ([] ++ EvLog DEBUG MsgExitTemp :: restore_trace d).
    eapply try_finally_eq.
    - apply bind_raise. unfold set_handler.
      rewrite (bind_pure _ _ _ _ (normalize_int_list _ _)).
      apply bind_raise, handler_to_set_invalid, Hr.
    - discriminate.
    - apply bind_emit, restore_eq. }
  rewrite E. unfold outcome, world, trace. cbn [fst snd].
  split; [reflexivity|]. split; [|now exists names].
  intros s.
  assert (Hd : snapshot_ok w d).
  { apply snapshot_of_ok. split; [apply List.NoDup_nil | intros k v []]. }
  destruct Hd as [_ Hval].
  rewrite (handlers_restore d w s (handlers w s)) by (intros v Hv; now apply Hval).
  now destruct (_ && _).
Qed.

Lemma temp_handler_restores_accepted {A}
    (signal_list : list Z) (reaction : PyObj) (block : M A) (w : World) (s : Z) :
  Forall (fun k => valid_signal k = true) signal_list ->
  valid_reaction reaction = true ->
  (forall w0 k, outcome (block w0) <> Killed k) ->
  In s signal_list -> accepts s = true -> handlers w s <> NoPyHandler ->
  let set := set_handler (PyList (map PyInt signal_list)) reaction w in
  let r := temp_handler (PyList (map PyInt signal_list)) reaction block w in
  outcome r = outcome (block (world set)) /\
  handlers (world r) s = handlers w s.
Proof.
  intros Hl Hr Hk Hs Hacc Hnone set r.
  destruct (temp_handler_eq signal_list reaction block w Hl Hr Hk) as [names E].
  cbv zeta in E. fold set in E. unfold r. rewrite E. clear E.
  split; [reflexivity|].
  set (d := snapshot_of w signal_list []).
  change (handlers (fold_left restore_step d (world (block (world set)))) s =
          handlers w s).
  assert (Hd : snapshot_ok w d).
  { apply snapshot_of_ok. split; [apply List.NoDup_nil | intros k v []]. }
  destruct Hd as [_ Hval].
  assert (Hin : In s (map fst d)) by (apply snapshot_of_keys; now left).
  apply in_map_iff in Hin. destruct Hin as ([k v] & Hfst & Hin).
  cbn [fst] in Hfst. subst k.
  assert (Hex : existsb (fun e => fst e =? s) d = true).
  { apply existsb_exists. exists (s, v). split; [exact Hin | apply Z.eqb_refl]. }
  rewrite (handlers_restore d _ s (handlers w s)) by (intros v0 Hv0; now apply Hval).
  rewrite Hex, (proj2 (signal_failure_accepts s _ Hnone) Hacc).
  now destruct (handlers w s).
Qed.

(** X19.  Scopes of [temp_handler] nest: inside an outer scope, when an
    inner scope for the same signal has ended, the handler of the outer
    scope is installed again; when the outer scope has ended, the
    handler from before both is installed again. *)
Theorem temp_handler_scopes_nest {A}
    (s : Z) (outer_reaction inner_reaction : PyObj) (block : M A) (w : World) :
  valid_signal s = true -> accepts s = true -> handlers w s <> NoPyHandler ->
  valid_reaction outer_reaction = true -> valid_reaction inner_reaction = true ->
  (forall w0 k, outcome (block w0) <> Killed k) ->
  let inside := world (set_handler (PyList (map PyInt [s])) outer_reaction w) in
  handlers inside s = resolved outer_reaction w /\
  handlers (world (temp_handler (PyList (map PyInt [s])) inner_reaction block inside)) s
    = resolved outer_reaction w /\
  handlers (world (temp_handler (PyList (map PyInt [s])) outer_reaction
                     (temp_handler (PyList (map PyInt [s])) inner_reaction block) w)) s
    = handlers w s.
Proof.
  intros Hv Hacc Hnone Hro Hri Hk inside.
  assert (Hl : Forall (fun k => valid_signal k = true) [s]) by now repeat constructor.
  assert (Hinside : handlers inside s = resolved outer_reaction w).
  { unfold inside. rewrite (set_handler_eq [s] _ w (valid_signals_members _ Hl) Hro).
    unfold world. cbn [fst snd fold_left]. rewrite handlers_install, Z.eqb_refl, Hacc.
    cbn [andb]. pose proof (resolved_not_None outer_reaction w) as Hn.
    now destruct (resolved outer_reaction w). }
  split; [exact Hinside|]. split.
  - rewrite <- Hinside.
    apply (temp_handler_restores_accepted [s] inner_reaction block inside s Hl Hri Hk);
      [now left | exact Hacc |].
    rewrite Hinside. apply resolved_not_None.
  - apply (temp_handler_restores_accepted [s] outer_reaction _ w s Hl Hro);
      [| now left | exact Hacc | exact Hnone].
    intros w0 k.
    destruct (temp_handler_eq [s] inner_reaction block w0 Hl Hri Hk) as [names E].
    cbv zeta in E. rewrite E. unfold outcome at 1. cbn [fst]. apply Hk.
Qed.

(** ** What installing never does *)

Lemma installs_bind {A B} (m : M A) (k : A -> M B) :
  installs_only m -> (forall a, installs_only (k a)) -> installs_only (bind m k).
Proof.
  intros Hm Hk w. specialize (Hm w). unfold bind.
  destruct (m w) as [[[a|e|s] w1] t1]; unfold outcome, world, trace in *;
    cbn [fst snd] in *;
    [| destruct Hm as (Hm1 & Hm2 & Hm3 & Hm4); repeat split; try assumption; discriminate
     | destruct Hm as (_ & _ & _ & Hm4); now elim (Hm4 s)].
  specialize (Hk a w1). destruct (k a w1) as [[r w2] t2].
  unfold outcome, world, trace in *; cbn [fst snd] in *. rewrite calls_app.
  destruct Hm as (Hm1 & Hm2 & Hm3 & Hm4). destruct Hk as (Hk1 & Hk2 & Hk3 & Hk4).
  rewrite Hm3, Hk3. split; [congruence|]. split; [congruence|].
  split; [reflexivity | exact Hk4].
Qed.

Lemma installs_try_except {A} (m : M A) (k : Exn -> M A) :
  installs_only m -> (forall e, installs_only (k e)) -> installs_only (try_except m k).
Proof.
  intros Hm Hk w. specialize (Hm w). unfold try_except.
  destruct (m w) as [[[a|e|s] w1] t1]; unfold outcome, world, trace in *;
    cbn [fst snd] in *; [exact Hm | | exact Hm].
  destruct (is_ValueError_or_OSError e); [|exact Hm].
  specialize (Hk e w1). destruct (k e w1) as [[r w2] t2].
  unfold outcome, world, trace in *; cbn [fst snd] in *. rewrite calls_app.
  destruct Hm as (Hm1 & Hm2 & Hm3 & Hm4). destruct Hk as (Hk1 & Hk2 & Hk3 & Hk4).
  rewrite Hm3, Hk3. split; [congruence|]. split; [congruence|].
  split; [reflexivity | exact Hk4].
Qed.

Lemma installs_lift {A} (o : Outcome A) :
  (forall s, o <> Killed s) -> installs_only (lift o).
Proof. intros Ho w. now repeat split. Qed.

Lemma installs_ret {A} (a : A) : installs_only (ret a).
Proof. intros w. repeat split. discriminate. Qed.

Lemma installs_raise {A} e : installs_only (@raise A e).
Proof. intros w. repeat split. discriminate. Qed.

Lemma installs_gets {A} (f : World -> A) : installs_only (gets f).
Proof. intros w. repeat split. discriminate. Qed.

Lemma installs_log level msg : installs_only (emit (EvLog level msg)).
Proof. intros w. repeat split. discriminate. Qed.

Lemma installs_mapM {A B} (f : A -> M B) (l : list A) :
  (forall a, installs_only (f a)) -> installs_only (mapM f l).
Proof.
  intros Hf. induction l as [|x l IH]; [apply installs_ret|].
  cbn [mapM]. apply installs_bind; [apply Hf|]. intros y.
  apply installs_bind; [exact IH|]. intros ys. apply installs_ret.
Qed.

Lemma installs_forM_ {A} (f : A -> M unit) (l : list A) :
  (forall a, installs_only (f a)) -> installs_only (forM_ l f).
Proof.
  intros Hf. induction l as [|x l IH]; [apply installs_ret|].
  cbn [forM_]. apply installs_bind; [apply Hf | intros _; exact IH].
Qed.

Lemma py_int_not_killed x s : py_int x <> Killed s.
Proof.
  unfold py_int. destruct x; cbn; try discriminate.
  now destruct (int_of_str s0).
Qed.

Lemma Signals_name_not_killed v s : Signals_name v <> Killed s.
Proof. unfold Signals_name. now destruct (List.find _ _). Qed.

Lemma installs_normalize signals : installs_only (_normalize_signals signals).
Proof.
  assert (Hone : installs_only (do z <- lift (py_int signals); ret [z])).
  { apply installs_bind; [apply installs_lift, py_int_not_killed|].
    intros z. apply installs_ret. }
  destruct signals; try exact Hone.
  apply installs_mapM. intros x. apply installs_lift, py_int_not_killed.
Qed.

Lemma installs_signal_signal sig h : installs_only (signal_signal sig h).
Proof.
  intros w. rewrite signal_signal_eq.
  destruct (signal_failure sig h); repeat split; discriminate.
Qed.

Lemma installs_get_signal_setting sig : installs_only (get_signal_setting sig).
Proof.
  apply installs_bind; [apply installs_lift, py_int_not_killed|]. intros n w.
  unfold signal_getsignal.
  destruct (in_range n), ((n <? - 2 ^ 31) || (2 ^ 31 <=? n)); repeat split; discriminate.
Qed.

Lemma installs_create_fin_handler : installs_only _create_fin_handler.
Proof.
  intros w. rewrite create_fin_handler_eq. unfold fin_created.
  destruct (_fin_handler w); repeat split; discriminate.
Qed.

Lemma installs_set_handler signals reaction : installs_only (set_handler signals reaction).
Proof.
  apply installs_bind; [apply installs_normalize|]. intros l.
  apply installs_bind.
  { destruct reaction; try apply installs_raise.
    - apply installs_bind; [apply installs_create_fin_handler|].
      intros fh. apply installs_ret.
    - apply installs_ret. }
  intros h. apply installs_forM_. intros sig.
  apply installs_bind; [apply installs_lift, Signals_name_not_killed|]. intros name.
  apply installs_bind; [apply installs_log|]. intros _.
  apply installs_try_except.
  - apply installs_bind; [apply installs_signal_signal | intros _; apply installs_ret].
  - intros e. apply installs_log.
Qed.

Lemma installs_graceful_shutdown callback : installs_only (graceful_shutdown callback).
Proof.
  unfold graceful_shutdown. destruct (callable callback) as [c|];
    [| apply installs_raise].
  apply installs_bind.
  { destruct (has_name c); [apply installs_ret | apply installs_raise]. }
  intros _. apply installs_bind; [apply installs_log|].
  intros _. apply installs_bind; [intros w; repeat split; discriminate|].
  intros _. apply installs_set_handler.
Qed.

Lemma installs_chain_handler sig callback order :
  installs_only (chain_handler sig callback order).
Proof.
  unfold chain_handler. destruct (order_of order) as [ord|]; [| apply installs_raise].
  apply installs_bind; [apply installs_get_signal_setting|]. intros original.
  apply installs_bind.
  { apply installs_lift. intros s. unfold Signals_name_of.
    destruct (int_like sig); [apply Signals_name_not_killed | discriminate]. }
  intros name. destruct (callable callback) as [cb|]; [| apply installs_raise].
  destruct (has_name cb); [| apply installs_raise].
  apply installs_bind; [apply installs_log|].
  intros _. apply installs_bind; [apply installs_gets|].
  intros oid. apply installs_bind; [intros w; repeat split; discriminate|].
  intros _. apply installs_set_handler.
Qed.

(** X20.  However a client calls [set_handler], [graceful_shutdown] and
    [chain_handler], with whatever arguments: the blocked set and the
    pending alarm are never changed and no user callable is ever
    called (handlers and callbacks run on delivery only). *)
Theorem installing_runs_no_callable (ops : list Op) (w : World) :
  blocked (fst (run_ops ops w)) = blocked w /\
  alarm (fst (run_ops ops w)) = alarm w /\
  calls (snd (run_ops ops w)) = [].
Proof.
  revert w. induction ops as [|o ops IH]; intros w; [now repeat split|].
  cbn [run_ops].
  assert (Ho : installs_only (run_op o)).
  { destruct o; [apply installs_set_handler | apply installs_graceful_shutdown
                | apply installs_chain_handler]. }
  destruct (Ho w) as (H1 & H2 & H3 & _).
  destruct (run_op o w) as [[r w1] t1]. unfold world, trace in *. cbn [fst snd] in *.
  destruct (IH w1) as (H4 & H5 & H6). destruct (run_ops ops w1) as [w2 t2].
  cbn [fst snd] in *. rewrite calls_app, H3, H6. repeat split; congruence.
Qed.

End Extras.

(** * The further properties at work on Linux *)

(** [set_handler([SIGKILL, SIGINT], ign)], then [get_signal_setting]. *)
Lemma get_after_set_linux :
  Forall (fun s => is_member (P:=linux) s = true) [9; 2] /\
  valid_reaction (PyReaction ign) = true /\
  In 2 [9; 2] /\ in_range (P:=linux) 2 = true /\
  outcome (get_signal_setting (P:=linux) (PyInt 2)
             (world (set_handler (P:=linux) (PyList (map PyInt [9; 2]))
                                 (PyReaction ign) fresh))) = Ok SIG_IGN.
Proof.
  assert (H1 : Forall (fun s => is_member (P:=linux) s = true) [9; 2])
    by (repeat constructor).
  assert (H3 : In 2 [9; 2]) by (right; now left).
  pose proof (get_after_set (P:=linux) [9; 2] (PyReaction ign) fresh 2
                H1 eq_refl H3 eq_refl) as H.
  cbv zeta in H.
  split; [exact H1|]. split; [reflexivity|]. split; [exact H3|].
  split; [reflexivity|]. rewrite H. reflexivity.
Defined.

(** [set_handler([SIGINT, 999, SIGTERM], ign)] *)
Lemma set_handler_stops_at_unknown_linux :
  Forall (fun s => is_member (P:=linux) s = true) [2] /\
  is_member (P:=linux) 999 = false /\
  valid_reaction (PyReaction ign) = true /\
  outcome (set_handler (P:=linux) (PyList (map PyInt ([2] ++ 999 :: [15])))
                       (PyReaction ign) fresh) = Raise ValueError /\
  attempted (trace (set_handler (P:=linux) (PyList (map PyInt ([2] ++ 999 :: [15])))
                                (PyReaction ign) fresh)) = [2].
Proof.
  assert (H1 : Forall (fun s => is_member (P:=linux) s = true) [2])
    by (repeat constructor).
  destruct (set_handler_stops_at_unknown (P:=linux) [2] [15] 999 (PyReaction ign) fresh
              H1 eq_refl eq_refl) as (Ho & _ & _ & Ha).
  split; [exact H1|]. split; [reflexivity|]. split; [reflexivity|].
  split; [exact Ho | exact Ha].
Defined.

(** [set_handler(SIGINT, 42)] *)
Lemma set_handler_rejects_reaction_linux :
  valid_reaction (PyInt 42) = false /\
  world (set_handler (P:=linux) (PyInt 2) (PyInt 42) fresh) = fresh /\
  outcome (set_handler (P:=linux) (PyInt 2) (PyInt 42) fresh) = Raise TypeError.
Proof.
  destruct (set_handler_rejects_reaction (P:=linux) (PyInt 2) (PyInt 42) fresh eq_refl)
    as (Hw & _ & Ho & _).
  split; [reflexivity|]. split; [exact Hw|]. exact (Ho [2] eq_refl).
Defined.

(** [has_sig(2)] and [has_sig("SIGINT")] *)
Lemma has_sig_agrees_with_set_handler_linux :
  valid_reaction (PyReaction ign) = true /\
  (has_sig (P:=linux) (PyInt 2) = true <->
   outcome (set_handler (P:=linux) (PyInt 2) (PyReaction ign) fresh) = Ok tt).
Proof.
  destruct (has_sig_agrees_with_set_handler (P:=linux) 2 "SIGINT" (PyReaction ign) fresh
              eq_refl) as (H & _).
  split; [reflexivity | exact H].
Defined.

(** [set_handler(SIGTERM, fin)] on a new instance, then [SIGTERM]. *)
Lemma terminate_without_callback_linux :
  is_member (P:=linux) 15 = true /\ accepts (P:=linux) 15 = true /\
  fin_cache_ok fresh = true /\ no_live_callback fresh = true /\
  calls (trace (deliver (P:=linux) (U:=inert) 15
                  (world (set_handler (P:=linux) (PyInt 15) (PyReaction fin) fresh)))) = [].
Proof.
  destruct (terminate_without_callback (P:=linux) (U:=inert) 15 fresh
              eq_refl eq_refl eq_refl eq_refl) as (_ & _ & Hc).
  repeat (split; [reflexivity|]). exact Hc.
Defined.

(** [graceful_shutdown(f7)] with a callback that raises, then
    [SIGTERM]. *)
Lemma shutdown_callback_failure_prevents_exit_linux :
  (forall w0, fst (fn_body (UserCode:=failing) 7 None w0) = Raise (UserError 0)) /\
  fin_cache_ok fresh = true /\
  In ("SIGTERM", 15) (_terminating_by_default (P:=linux)) /\
  outcome (deliver (P:=linux) (U:=failing) 15
             (world (graceful_shutdown (P:=linux) (PyCallable (PyFunction 7)) fresh)))
    = Raise (UserError 0).
Proof.
  assert (H1 : forall w0, fst (fn_body (UserCode:=failing) 7 None w0) = Raise (UserError 0))
    by (intros w0; reflexivity).
  assert (H2 : In ("SIGTERM", 15) (_terminating_by_default (P:=linux)))
    by (vm_compute; tauto).
  assert (H3 : "SIGTERM" <> "SIGKILL") by discriminate.
  destruct (shutdown_callback_failure_prevents_exit (P:=linux) (U:=failing)
              (PyFunction 7) 7 (UserError 0) fresh eq_refl eq_refl eq_refl H1 eq_refl
              "SIGTERM" 15 H2 H3 eq_refl) as (Ho & _).
  split; [exact H1|]. split; [reflexivity|]. split; [exact H2 | exact Ho].
Defined.

(** [graceful_shutdown(f7)], then [graceful_shutdown(f8)], then
    [SIGTERM]. *)
Lemma graceful_shutdown_replaces_callback_linux :
  (forall w0, fst (fn_body (UserCode:=inert) 8 None w0) = Ok tt) /\
  fin_cache_ok fresh = true /\
  calls (trace (deliver (P:=linux) (U:=inert) 15
    (world (graceful_shutdown (P:=linux) (PyCallable (PyFunction 8))
       (world (graceful_shutdown (P:=linux) (PyCallable (PyFunction 7)) fresh))))))
    = [(PyFunction 8, None)].
Proof.
  assert (H1 : forall w0, fst (fn_body (UserCode:=inert) 8 None w0) = Ok tt)
    by (intros w0; reflexivity).
  assert (H2 : In ("SIGTERM", 15) (_terminating_by_default (P:=linux)))
    by (vm_compute; tauto).
  assert (H3 : "SIGTERM" <> "SIGKILL") by discriminate.
  destruct (graceful_shutdown_replaces_callback (P:=linux) (U:=inert)
              (PyFunction 7) (PyFunction 8) 8 fresh eq_refl eq_refl eq_refl eq_refl
              H1 eq_refl) as (_ & _ & Hs).
  destruct (Hs "SIGTERM" 15 H2 H3 eq_refl) as (_ & _ & Hc).
  split; [exact H1|]. split; [reflexivity | exact Hc].
Defined.

(** [graceful_shutdown(partial)] *)
Lemma nameless_callable_is_refused_linux :
  has_name (PyCallableObj 3 false true) = false /\
  is_member (P:=linux) 2 = true /\ in_range (P:=linux) 2 = true /\
  graceful_shutdown (P:=linux) (PyCallable (PyCallableObj 3 false true)) fresh
    = (Raise AttributeError, fresh, []).
Proof.
  destruct (nameless_callable_is_refused (P:=linux) (PyCallableObj 3 false true) 2 before
              fresh eq_refl eq_refl eq_refl) as (Hg & _).
  repeat (split; [reflexivity|]). exact Hg.
Defined.

(** [chain_handler(SIGINT, f1, "before")] with an [f1] that raises. *)
Lemma chain_before_failure_skips_original_linux :
  accepts (P:=linux) 2 = true /\ is_member (P:=linux) 2 = true /\
  (forall w0, fst (fn_body (UserCode:=failing) 1 (Some 2) w0) = Raise (UserError 0)) /\
  calls (trace (deliver (P:=linux) (U:=failing) 2
          (world (chain_handler (P:=linux) (PyInt 2) (PyCallable (PyFunction 1))
                                (PyStr "before") fresh))))
    = [(PyFunction 1, Some 2)].
Proof.
  assert (H1 : forall w0, fst (fn_body (UserCode:=failing) 1 (Some 2) w0)
                          = Raise (UserError 0)) by (intros w0; reflexivity).
  destruct (chain_before_failure_skips_original (P:=linux) (U:=failing) 2 (PyFunction 1) 1
              (UserError 0) fresh eq_refl eq_refl eq_refl eq_refl H1) as (_ & Hc).
  split; [reflexivity|]. split; [reflexivity|]. split; [exact H1 | exact Hc].
Defined.

(** [chain_handler(SIGTERM, f1, "after")] over the terminate handler. *)
Lemma chain_after_terminate_skips_callback_linux :
  accepts (P:=linux) 15 = true /\ is_member (P:=linux) 15 = true /\
  handlers terminating 15 = Handler (FinHandler 0) /\
  ~ In (PyFunction 1, Some 15)
       (calls (trace (deliver (P:=linux) (U:=inert) 15
          (world (chain_handler (P:=linux) (PyInt 15) (PyCallable (PyFunction 1))
                                (PyStr "after") terminating))))).
Proof.
  destruct (chain_after_terminate_skips_callback (P:=linux) (U:=inert) 15 (PyFunction 1) 0
              terminating eq_refl eq_refl eq_refl eq_refl) as (_ & _ & Hc).
  repeat (split; [reflexivity|]). exact Hc.
Defined.

(** [chain_handler(SIGKILL, f1, "before")] *)
Lemma chain_handler_on_refused_signal_linux :
  Signals_name (P:=linux) 9 = Ok "SIGKILL" /\ in_range (P:=linux) 9 = true /\
  accepts (P:=linux) 9 = false /\
  outcome (chain_handler (P:=linux) (PyInt 9) (PyCallable (PyFunction 1))
                         (PyStr (order_str before)) fresh) = Ok tt.
Proof.
  destruct (chain_handler_on_refused_signal (P:=linux) 9 "SIGKILL" (PyFunction 1) before
              fresh eq_refl eq_refl eq_refl eq_refl) as (Ho & _).
  repeat (split; [reflexivity|]). exact Ho.
Defined.

(** [with_timeout(2)] around a block of three seconds, entered while
    the handler of [SIGALRM] is [None]. *)
Lemma with_timeout_over_foreign_handler_linux :
  Signals_value (P:=linux) "SIGALRM" = Some 14 /\ accepts (P:=linux) 14 = true /\
  - 2 ^ 31 <= 2 < 2 ^ 31 /\ handlers foreign_alarm 14 = NoPyHandler /\
  (forall s, outcome (timed_block (P:=linux) (U:=inert) three_seconds
                                  (armed 2 14 foreign_alarm)) <> Killed s) /\
  outcome (with_timeout (P:=linux) 2 (timed_block (P:=linux) (U:=inert) three_seconds)
                        foreign_alarm) = Raise TypeError.
Proof.
  assert (H1 : - 2 ^ 31 <= 2 < 2 ^ 31) by lia.
  assert (H2 : forall s, outcome (timed_block (P:=linux) (U:=inert) three_seconds
                                    (armed 2 14 foreign_alarm)) <> Killed s)
    by (intros s; vm_compute; discriminate).
  destruct (with_timeout_over_foreign_handler (P:=linux) 2 14
              (timed_block (P:=linux) (U:=inert) three_seconds) foreign_alarm
              eq_refl eq_refl H1 eq_refl H2) as (Ho & _).
  split; [reflexivity|]. split; [reflexivity|]. split; [exact H1|].
  split; [reflexivity|]. split; [exact H2 | exact Ho].
Defined.

(** [with_timeout(2)] around [with_timeout(5)] around nothing, followed
    by three seconds of work. *)
Lemma inner_timeout_cancels_outer_linux :
  Signals_value (P:=linux) "SIGALRM" = Some 14 /\ accepts (P:=linux) 14 = true /\
  0 < 2 < 2 ^ 31 /\ 0 < 5 < 2 ^ 31 /\
  handlers fresh 14 <> NoPyHandler /\ (14 ∉ blocked fresh) /\
  Forall (quiet 14) [] /\ Forall (quiet 14) three_seconds /\
  Z.of_nat (length (A:=M unit) []) < 5 /\
  outcome (with_timeout (P:=linux) 2
             (with_timeout (P:=linux) 5 (timed_block (P:=linux) (U:=inert) []);;
              timed_block (P:=linux) (U:=inert) three_seconds) fresh) = Ok tt.
Proof.
  assert (H1 : 0 < 2 < 2 ^ 31) by lia.
  assert (H2 : 0 < 5 < 2 ^ 31) by lia.
  assert (H3 : handlers fresh 14 <> NoPyHandler) by discriminate.
  assert (H4 : 14 ∉ blocked fresh) by (apply not_elem_of_empty).
  assert (H5 : Forall (quiet 14) []) by (apply List.Forall_nil).
  assert (H6 : Forall (quiet 14) three_seconds).
  { unfold three_seconds.
    repeat (apply List.Forall_cons; [intros w0; repeat split; auto |]).
    apply List.Forall_nil. }
  assert (H7 : Z.of_nat (length (A:=M unit) []) < 5) by (cbn; lia).
  pose proof (inner_timeout_cancels_outer (P:=linux) (U:=inert) 2 5 14 [] three_seconds
                fresh eq_refl eq_refl H1 H2 H3 H4 H5 H6 H7) as H.
  repeat (split; [first [reflexivity | assumption]|]). exact H.
Defined.

(** [temp_handler([SIGINT, SIGTERM], 42)] *)
Lemma temp_handler_rejects_reaction_linux :
  Forall (fun s => valid_signal (P:=linux) s = true) [2; 15] /\
  valid_reaction (PyInt 42) = false /\
  outcome (temp_handler (P:=linux) (PyList (map PyInt [2; 15])) (PyInt 42)
                        (ret tt) fresh) = Raise TypeError.
Proof.
  assert (H1 : Forall (fun s => valid_signal (P:=linux) s = true) [2; 15])
    by (repeat constructor).
  destruct (temp_handler_rejects_reaction (P:=linux) [2; 15] (PyInt 42) (ret tt) fresh
              H1 eq_refl) as (Ho & _).
  split; [exact H1|]. split; [reflexivity | exact Ho].
Defined.

(** [temp_handler(SIGINT, ign)] around [temp_handler(SIGINT, dflt)]. *)
Lemma temp_handler_scopes_nest_linux :
  valid_signal (P:=linux) 2 = true /\ accepts (P:=linux) 2 = true /\
  handlers fresh 2 <> NoPyHandler /\
  (forall w0 k, outcome (ret tt w0) <> Killed k) /\
  handlers (world (temp_handler (P:=linux) (PyList (map PyInt [2])) (PyReaction ign)
                     (temp_handler (P:=linux) (PyList (map PyInt [2])) (PyReaction dflt)
                                   (ret tt)) fresh)) 2
    = Handler (PyFunction 0).
Proof.
  assert (H1 : handlers fresh 2 <> NoPyHandler) by discriminate.
  assert (H2 : forall w0 k, outcome (ret tt w0) <> Killed k)
    by (intros w0 k; discriminate).
  destruct (temp_handler_scopes_nest (P:=linux) 2 (PyReaction ign) (PyReaction dflt)
              (ret tt) fresh eq_refl eq_refl H1 eq_refl eq_refl H2) as (_ & _ & Hh).
  split; [reflexivity|]. split; [reflexivity|]. split; [exact H1|].
  split; [exact H2 | exact Hh].
Defined.

(** * The operations, case by case *)

Section Cases.
Context {P : Platform} {U : UserCode}.

(** ** [set_handler] on any batch of numbers *)

Lemma known_prefix_members (l : list Z) :
  Forall (fun s => is_member s = true) (known_prefix l).
Proof.
  induction l as [|s l IH]; cbn [known_prefix]; [apply List.Forall_nil|].
  destruct (is_member s) eqn:Hs; [now apply List.Forall_cons | apply List.Forall_nil].
Qed.

Lemma known_prefix_all (l : list Z) :
  forallb is_member l = true -> known_prefix l = l.
Proof.
  induction l as [|s l IH]; cbn [forallb known_prefix]; [reflexivity|].
  destruct (is_member s); cbn [andb]; [|discriminate]. intros H. now rewrite IH.
Qed.

Lemma known_prefix_split (l : list Z) :
  forallb is_member l = false ->
  exists unknown rest,
    l = known_prefix l ++ unknown :: rest /\ is_member unknown = false.
Proof.
  induction l as [|s l IH]; cbn [forallb known_prefix]; [discriminate|].
  destruct (is_member s) eqn:Hs; cbn [andb].
  - intros H. destruct (IH H) as (u & rest & E & Hu).
    exists u, rest. split; [cbn [app]; now rewrite <- E | exact Hu].
  - intros _. exists s, l. split; [reflexivity | exact Hs].
Qed.

Lemma set_loop_any reaction h (l : list Z) w :
  h <> NoPyHandler ->
  forM_ l (set_one reaction h) w =
  (if forallb is_member l then Ok tt else Raise ValueError,
   fold_left (install h) (known_prefix l) w,
   flat_map (set_one_trace reaction h) (known_prefix l)).
Proof.
  intros Hh. revert w. induction l as [|s l IH]; intros w; [reflexivity|].
  cbn [forM_ forallb known_prefix]. destruct (is_member s) eqn:Hs; cbn [andb].
  - erewrite bind_ok; [reflexivity | now apply set_one_eq | apply IH].
  - now rewrite (bind_raise _ _ _ _ _ _ (set_one_unknown reaction h s w Hs)).
Qed.

Lemma set_handler_any (l : list Z) reaction w :
  valid_reaction reaction = true ->
  set_handler (PyList (map PyInt l)) reaction w =
  (if forallb is_member l then Ok tt else Raise ValueError,
   fold_left (install (resolved reaction w)) (known_prefix l)
             (match reaction with PyReaction _ => fin_created w | _ => w end),
   match reaction, _fin_handler w with
   | PyReaction _, None => [EvLog DEBUG MsgCreatingFin]
   | _, _ => []
   end ++ flat_map (set_one_trace reaction (resolved reaction w)) (known_prefix l)).
Proof.
  intros Hr. unfold set_handler.
  rewrite (bind_pure _ _ _ _ (normalize_int_list l w)).
  destruct reaction as [| | | | | |r|c]; try discriminate.
  - erewrite bind_ok; [| apply handler_to_set_reaction |
      apply set_loop_any, resolved_not_None].
    now destruct (_fin_handler w).
  - erewrite bind_ok; [| apply handler_to_set_callable |
      apply set_loop_any; discriminate].
    now destruct (_fin_handler w).
Qed.

(** What the loop leaves for a signal it got to. *)
Lemma set_loop_effect reaction h (l : list Z) w s :
  Forall (fun x => is_member x = true) l -> In s l ->
  match signal_failure s h with
  | None => handlers (fold_left (install h) l w) s = h
  | Some e =>
      handlers (fold_left (install h) l w) s = handlers w s /\
      In (EvSignal s h (Some e)) (flat_map (set_one_trace reaction h) l) /\
      exists name, Signals_name s = Ok name /\
                   In (EvLog WARNING (MsgCouldNotSet name e))
                      (flat_map (set_one_trace reaction h) l)
  end.
Proof.
  intros Hl Hs. rewrite handlers_install_loop.
  destruct (signal_failure s h) as [e|] eqn:Hf.
  - assert (Hex : existsb (fun x => (x =? s) &&
                    match signal_failure x h with None => true | _ => false end) l = false).
    { apply not_true_is_false. intros Hex. apply existsb_exists in Hex.
      destruct Hex as (x & _ & Hx). apply andb_prop in Hx. destruct Hx as [Hx1 Hx2].
      apply Z.eqb_eq in Hx1. subst x. now rewrite Hf in Hx2. }
    rewrite Hex. split; [reflexivity|].
    apply List.Forall_forall with (x := s) in Hl; [|assumption]. unfold is_member in Hl.
    destruct (Signals_name s) as [name| |] eqn:Hn; try discriminate.
    split.
    + apply in_flat_map. exists s. split; [exact Hs|].
      unfold set_one_trace. rewrite Hn, Hf. right. now left.
    + exists name. split; [reflexivity|]. apply in_flat_map. exists s.
      split; [exact Hs|]. unfold set_one_trace. rewrite Hn, Hf. right. right. now left.
  - assert (Hex : existsb (fun x => (x =? s) &&
                    match signal_failure x h with None => true | _ => false end) l = true).
    { apply existsb_exists. exists s. split; [assumption|]. now rewrite Z.eqb_refl, Hf. }
    now rewrite Hex.
Qed.

(** C7.  [set_handler] on a batch of numbers with a valid reaction goes
    through the batch in order.  For a member of [Signals] a refusal of
    the platform is caught: the signal keeps its handler, a warning is
    logged and the loop goes on; a member the platform accepts gets the
    new handler.  The first number that is not a member of [Signals]
    ends the call with [ValueError] (of [Signals(sig).name], which
    stands outside the [try]): [signal.signal] is called for the
    signals before it and for no other, and signals the loop did not
    get to keep their handlers.  The call returns normally exactly when
    every number of the batch is a member. *)
Theorem set_handler_batch_outcome (signal_list : list Z) (reaction : PyObj) (w : World) :
  valid_reaction reaction = true ->
  let r := set_handler (PyList (map PyInt signal_list)) reaction w in
  let h := resolved reaction w in
  outcome r = (if forallb is_member signal_list then Ok tt else Raise ValueError) /\
  attempted (trace r) = known_prefix signal_list /\
  (forall s, In s (known_prefix signal_list) ->
     match signal_failure s h with
     | None => handlers (world r) s = h
     | Some e =>
         handlers (world r) s = handlers w s /\
         In (EvSignal s h (Some e)) (trace r) /\
         exists name, Signals_name s = Ok name /\
                      In (EvLog WARNING (MsgCouldNotSet name e)) (trace r)
     end) /\
  (forall s, ~ In s (known_prefix signal_list) ->
     handlers (world r) s = handlers w s) /\
  (forallb is_member signal_list = true -> known_prefix signal_list = signal_list) /\
  (forallb is_member signal_list = false ->
   exists unknown rest,
     signal_list = known_prefix signal_list ++ unknown :: rest /\
     is_member unknown = false /\
     ~ In unknown (attempted (trace r))).
Proof.
  intros Hr r h. subst r h. rewrite (set_handler_any _ _ _ Hr).
  unfold outcome, world, trace. cbn [fst snd].
  set (h := resolved reaction w). set (done := known_prefix signal_list).
  set (w0 := match reaction with PyReaction _ => fin_created w | _ => w end).
  assert (Hw0 : handlers w0 = handlers w).
  { unfold w0. destruct reaction; try reflexivity. apply handlers_fin_created. }
  pose proof (known_prefix_members signal_list) as Hdone. fold done in Hdone.
  assert (Hatt : attempted (match reaction, _fin_handler w with
                            | PyReaction _, None => [EvLog DEBUG MsgCreatingFin]
                            | _, _ => []
                            end ++ flat_map (set_one_trace reaction h) done) = done).
  { rewrite attempted_app, attempted_creation. cbn [app].
    now apply attempted_set_loop. }
  split; [reflexivity|]. split; [exact Hatt|]. split; [|split; [|split]].
  - intros s Hs. pose proof (set_loop_effect reaction h done w0 s Hdone Hs) as He.
    rewrite Hw0 in He. destruct (signal_failure s h) as [e|]; [|exact He].
    destruct He as (He1 & He2 & name & He3 & He4).
    split; [exact He1|]. split; [apply in_or_app; now right|].
    exists name. split; [exact He3 | apply in_or_app; now right].
  - intros s Hs. rewrite handlers_install_loop, Hw0.
    assert (Hex : existsb (fun x => (x =? s) &&
                    match signal_failure x h with None => true | _ => false end) done = false).
    { apply not_true_is_false. intros Hex. apply existsb_exists in Hex.
      destruct Hex as (x & Hx & Hx'). apply andb_prop in Hx'. destruct Hx' as [Hx1 _].
      apply Z.eqb_eq in Hx1. subst x. now elim Hs. }
    now rewrite Hex.
  - apply known_prefix_all.
  - intros Hbad. destruct (known_prefix_split _ Hbad) as (u & rest & E & Hu).
    exists u, rest. fold done in E. split; [exact E|]. split; [exact Hu|].
    rewrite Hatt. intros Hin.
    apply List.Forall_forall with (x := u) in Hdone; [congruence | exact Hin].
Qed.

(** ** [graceful_shutdown] and delivery *)

Lemma handler_shutdown_run signum name cb id w :
  Signals_name signum = Ok name ->
  _graceful_shutdown_callback w = Some cb -> truthy cb = true ->
  user_id cb = Some id ->
  handler signum w = shutdown_run cb id name signum w.
Proof.
  intros Hn Hcb Ht Hid. unfold handler, shutdown_run. rewrite Hn, bind_lift_ok.
  apply bind_emit. rewrite bind_gets, Hcb, Ht.
  unfold bind at 1. unfold bind at 1. unfold emit at 1.
  rewrite (call0_user _ _ _ Hid). unfold call_user.
  destruct (fn_body id None w) as [[[]|e|s] w1]; reflexivity.
Qed.

Lemma graceful_shutdown_refused cb w name n :
  has_name cb = true ->
  In (name, n) _terminating_by_default -> accepts n = false ->
  handlers (world (graceful_shutdown (PyCallable cb) w)) n = handlers w n.
Proof.
  intros Hname Hin Hacc. rewrite (graceful_shutdown_eq _ _ Hname). cbv zeta.
  unfold world. cbn [fst snd]. rewrite handlers_install_loop.
  set (fh := Handler (fin_handler_of w)).
  assert (Hex : existsb (fun x => (x =? n) &&
                  match signal_failure x fh with None => true | _ => false end)
                  (map snd (List.filter (fun nv => negb (String.eqb (fst nv) "SIGKILL"))
                                        _terminating_by_default)) = false).
  { apply not_true_is_false. intros Hex. apply existsb_exists in Hex.
    destruct Hex as (x & _ & Hx). apply andb_prop in Hx. destruct Hx as [Hx1 Hx2].
    apply Z.eqb_eq in Hx1. subst x.
    destruct (signal_failure n fh) eqn:Hf; [discriminate|].
    apply signal_failure_accepts in Hf; [congruence | discriminate]. }
  rewrite Hex. rewrite handlers_fin_created. reflexivity.
Qed.

(** C3.  After [graceful_shutdown(cb)], for a user callable [cb] that
    has a [__name__] and is truthy: the callback is stored, the
    terminate handler is cached, and every signal of
    [_terminating_by_default] other than [SIGKILL] has the cached
    terminate handler as its disposition when the platform lets it be
    changed, and the disposition it had when it does not.  Whenever
    such a signal [n] is delivered while that disposition and that
    callback stand, [cb] runs exactly once, without arguments; when
    [cb] returns the handler raises [SystemExit(128 + n)], and when
    [cb] raises its exception leaves the handler instead. *)
Theorem graceful_shutdown_then_delivery (cb : Callable) (id : nat) (w : World) :
  has_name cb = true -> truthy cb = true -> user_id cb = Some id ->
  fin_cache_ok w = true ->
  let r := graceful_shutdown (PyCallable cb) w in
  outcome r = Ok tt /\
  _graceful_shutdown_callback (world r) = Some cb /\
  _fin_handler (world r) = Some (fin_handler_of w) /\
  forall name n,
    In (name, n) _terminating_by_default -> name <> "SIGKILL" ->
    (accepts n = false -> handlers (world r) n = handlers w n) /\
    (accepts n = true ->
     handlers (world r) n = Handler (fin_handler_of w) /\
     forall w',
       handlers w' n = Handler (fin_handler_of w) ->
       _graceful_shutdown_callback w' = Some cb ->
       deliver n w' = shutdown_run cb id name n w' /\
       calls (trace (deliver n w')) = [(cb, None)] /\
       world (deliver n w') = snd (fn_body id None w') /\
       (fst (fn_body id None w') = Ok tt ->
        outcome (deliver n w') = Raise (SystemExit (128 + n))) /\
       (forall e, fst (fn_body id None w') = Raise e ->
                  outcome (deliver n w') = Raise e)).
Proof.
  intros Hname Htruthy Hid Hcache r.
  destruct (graceful_shutdown_state cb w Hname) as (Ho & Hcb & Hfin & Hh).
  cbv zeta in Hcb, Hfin, Hh.
  split; [exact Ho|]. split; [exact Hcb|]. split; [exact Hfin|].
  intros name n Hin Hkill. split.
  { intros Hacc. now apply (graceful_shutdown_refused cb w name n). }
  intros Hacc. split; [now apply (Hh name n)|].
  intros w' Hw' Hcb'.
  destruct (fin_handler_of_closure w Hcache) as [oid Hoid].
  assert (Hn : Signals_name n = Ok name).
  { unfold _terminating_by_default in Hin. apply filter_In in Hin.
    now apply Signals_iter_name. }
  assert (Hd : deliver n w' = shutdown_run cb id name n w').
  { unfold deliver. rewrite Hw', Hoid. cbn [call2].
    now apply handler_shutdown_run. }
  rewrite Hd. unfold shutdown_run, outcome, world, trace. cbn [fst snd].
  split; [reflexivity|]. split; [reflexivity|]. split; [reflexivity|].
  split; [now intros -> | now intros e ->].
Qed.

(** ** [chain_handler] and delivery *)

Lemma call2_user c id signum w :
  user_id c = Some id ->
  call2 c signum w =
  (fst (fn_body id (Some signum) w), snd (fn_body id (Some signum) w),
   [EvCall c (Some signum)]).
Proof.
  intros Hid. destruct c; cbn in Hid; try discriminate; injection Hid as <-;
    cbn [call2]; unfold call_user; now destruct (fn_body _ (Some signum) w).
Qed.

Lemma bind_ret_r (m : M unit) w : (m;; ret tt) w = m w.
Proof.
  unfold bind, ret. destruct (m w) as [[[[]|e|s] w1] t1]; try reflexivity.
  now rewrite app_nil_r.
Qed.

Lemma deliver_chained sig oid ord cb original w :
  handlers w sig = Handler (ChainedHandler oid ord cb original) ->
  deliver sig w =
  match ord with
  | before => (call2 cb sig;; call_if_callable original sig) w
  | after => (call_if_callable original sig;; call2 cb sig) w
  end.
Proof.
  intros Hh. unfold deliver. rewrite Hh. cbn [call2]. now destruct ord.
Qed.

Lemma user_sequence_eq c1 id1 c2 id2 signum w :
  user_id c1 = Some id1 -> user_id c2 = Some id2 ->
  (call2 c1 signum;; call2 c2 signum) w = user_sequence c1 id1 c2 id2 signum w.
Proof.
  intros H1 H2. unfold bind, user_sequence. rewrite (call2_user _ _ _ _ H1).
  destruct (fn_body id1 (Some signum) w) as [[[]|e|s] w1]; cbn [fst snd]; try reflexivity.
  now rewrite (call2_user _ _ _ _ H2).
Qed.

(** C5.  [chain_handler(sig, cb, order)], for a member of [Signals] the
    platform lets be changed and a callback that has a [__name__],
    reads the handler installed for [sig] and installs a closure that
    captures it; no other signal is touched.  When the signal is
    delivered the closure makes two calls in the order [order] asks
    for: with "before" the callback and then the captured handler, with
    "after" the captured handler and then the callback.  A captured
    [SIG_DFL], [SIG_IGN] or [None] is not called.  The second call is
    made only when the first has returned: what ends the first call
    otherwise ends the closure.  When every user callable returns,
    whatever the captured handler called is still called, so chains
    nest. *)
Theorem chain_handler_sequences_calls
    (sig : Z) (cb : Callable) (ord : Order) (w : World) :
  accepts sig = true -> is_member sig = true -> has_name cb = true ->
  let original := handlers w sig in
  let composite := ChainedHandler (next_oid w) ord cb original in
  let r := chain_handler (PyInt sig) (PyCallable cb) (PyStr (order_str ord)) w in
  outcome r = Ok tt /\
  handlers (world r) sig = Handler composite /\
  (forall s, s <> sig -> handlers (world r) s = handlers w s) /\
  forall w', handlers w' sig = Handler composite ->
    deliver sig w' =
      match ord with
      | before => (call2 cb sig;; call_if_callable original sig) w'
      | after => (call_if_callable original sig;; call2 cb sig) w'
      end /\
    (forall i, user_id cb = Some i ->
       match original with
       | Handler o =>
           forall j, user_id o = Some j ->
             deliver sig w' =
             match ord with
             | before => user_sequence cb i o j sig w'
             | after => user_sequence o j cb i sig w'
             end
       | _ =>
           deliver sig w' =
           (fst (fn_body i (Some sig) w'), snd (fn_body i (Some sig) w'),
            [EvCall cb (Some sig)])
       end) /\
    ((forall id arg w0, fst (fn_body id arg w0) = Ok tt) ->
     plain cb = true -> plain_disposition original = true ->
     outcome (deliver sig w') = Ok tt /\
     calls (trace (deliver sig w')) =
       map (fun f => (f, Some sig))
           (match ord with
            | before => expected_calls cb ++ expected_of original
            | after => expected_of original ++ expected_calls cb
            end) /\
     forall f, In f (expected_of original) ->
               In (f, Some sig) (calls (trace (deliver sig w')))).
Proof.
  intros Hacc Hm Hname original composite r.
  unfold is_member in Hm.
  destruct (Signals_name sig) as [name| |] eqn:Hn; try discriminate.
  subst r. rewrite (chain_handler_eq _ _ _ _ _ Hacc Hn Hname).
  unfold outcome at 1, world. cbn [fst snd handlers with_handlers].
  split; [reflexivity|]. split; [apply update_eq|].
  split; [intros s Hs; now apply update_ne|].
  intros w' Hw'.
  pose proof (deliver_chained sig _ ord cb original w' Hw') as Hd.
  split; [exact Hd|]. split.
  - intros i Hi. destruct original as [| | |o] eqn:Eo.
    + rewrite Hd. destruct ord; cbn [call_if_callable];
        [rewrite bind_ret_r | rewrite bind_ret_l]; now apply call2_user.
    + rewrite Hd. destruct ord; cbn [call_if_callable];
        [rewrite bind_ret_r | rewrite bind_ret_l]; now apply call2_user.
    + rewrite Hd. destruct ord; cbn [call_if_callable];
        [rewrite bind_ret_r | rewrite bind_ret_l]; now apply call2_user.
    + intros j Hj. rewrite Hd. destruct ord; cbn [call_if_callable];
        now apply user_sequence_eq.
  - intros Hret Hpcb Hporig.
    assert (Hpc : plain composite = true).
    { cbn [plain composite]. rewrite Hpcb. cbn [andb].
      unfold plain_disposition in Hporig. now destruct original. }
    unfold deliver. rewrite Hw'.
    destruct (call2_plain composite sig Hret Hpc w') as [Ho Hc].
    assert (Hexp : expected_calls composite =
                   match ord with
                   | before => expected_calls cb ++ expected_of original
                   | after => expected_of original ++ expected_calls cb
                   end) by (unfold composite; now destruct ord).
    rewrite Hexp in Hc. split; [exact Ho|]. split; [exact Hc|].
    intros f Hf. rewrite Hc. apply in_map_iff. exists f. split; [reflexivity|].
    destruct ord; apply in_or_app; tauto.
Qed.

(** ** Signal designators, operation by operation *)

Lemma set_handler_int v reaction w :
  set_handler (PyInt v) reaction w = set_handler (PyList (map PyInt [v])) reaction w.
Proof.
  unfold set_handler.
  rewrite (bind_pure (_normalize_signals (PyInt v)) _ w [v] (normalize_int v w)).
  now rewrite (bind_pure _ _ w [v] (normalize_int_list [v] w)).
Qed.

Lemma temp_handler_int {A} v reaction (block : M A) w :
  temp_handler (PyInt v) reaction block w =
  temp_handler (PyList (map PyInt [v])) reaction block w.
Proof.
  unfold temp_handler.
  rewrite (bind_pure (_normalize_signals (PyInt v)) _ w [v] (normalize_int v w)).
  now rewrite (bind_pure _ _ w [v] (normalize_int_list [v] w)).
Qed.

Lemma block_signals_int {A} v (block : M A) w :
  block_signals (PyInt v) block w = block_signals (PyList (map PyInt [v])) block w.
Proof.
  unfold block_signals. destruct (negb has_pthread_sigmask); [reflexivity|].
  rewrite (bind_pure (_normalize_signals (PyInt v)) _ w [v] (normalize_int v w)).
  now rewrite (bind_pure _ _ w [v] (normalize_int_list [v] w)).
Qed.

Lemma chain_handler_member v name cb ord w :
  Signals_name v = Ok name -> in_range v = true -> has_name cb = true ->
  let composite := ChainedHandler (next_oid w) ord cb (handlers w v) in
  chain_handler (PyInt v) (PyCallable cb) (PyStr (order_str ord)) w =
  (Ok tt,
   install (Handler composite) (with_next_oid (S (next_oid w)) w) v,
   EvLog INFO (MsgChaining cb name ord) ::
   set_one_trace (PyCallable composite) (Handler composite) v).
Proof.
  intros Hn Hrange Hname composite.
  assert (Hm : is_member v = true) by (unfold is_member; now rewrite Hn).
  unfold chain_handler. rewrite order_of_str.
  rewrite (bind_pure _ _ _ (handlers w v)).
  2:{ rewrite get_signal_setting_int. now rewrite Hrange. }
  cbn [Signals_name_of int_like]. rewrite Hn, bind_lift_ok.
  cbn [callable]. rewrite Hname. apply bind_emit.
  rewrite bind_gets, bind_modify.
  now rewrite (set_handler_one v (PyCallable composite) _ Hm eq_refl).
Qed.

(** C6.  For a member of [Signals] with name [name] and value [v], a
    number the [signal] module takes: [set_handler],
    [get_signal_setting], [chain_handler], [temp_handler] and
    [block_signals] take the integer [v]; none of them fails because of
    it, and [signal.signal] is called for [v].  The string [name] makes
    [int] raise [ValueError], so each of the five raises it and changes
    nothing.  Only [has_sig] takes both the name and the number. *)
Theorem designators_by_operation (name : string) (v : Z) (w : World) :
  In (name, v) _AVAILABLE_SIGNALS -> in_range v = true ->
  (forall reaction,
     valid_reaction reaction = true ->
     outcome (set_handler (PyInt v) reaction w) = Ok tt /\
     attempted (trace (set_handler (PyInt v) reaction w)) = [v]) /\
  get_signal_setting (PyInt v) w = (Ok (handlers w v), w, []) /\
  (forall cb ord,
     has_name cb = true ->
     outcome (chain_handler (PyInt v) (PyCallable cb) (PyStr (order_str ord)) w) = Ok tt /\
     attempted (trace (chain_handler (PyInt v) (PyCallable cb)
                                     (PyStr (order_str ord)) w)) = [v]) /\
  (forall A reaction (block : M A),
     valid_reaction reaction = true ->
     (forall w0 s, outcome (block w0) <> Killed s) ->
     outcome (temp_handler (PyInt v) reaction block w) =
     outcome (block (world (set_handler (PyInt v) reaction w)))) /\
  (forall A (block : M A),
     has_pthread_sigmask = true ->
     (forall w0 s, outcome (block w0) <> Killed s) ->
     outcome (block_signals (PyInt v) block w) =
     outcome (block (with_blocked (blocked w ∪ blockable [v]) w))) /\
  has_sig (PyInt v) = true /\
  (forall reaction,
     set_handler (PyStr name) reaction w = (Raise ValueError, w, [])) /\
  get_signal_setting (PyStr name) w = (Raise ValueError, w, []) /\
  (forall callback order,
     chain_handler (PyStr name) callback order w = (Raise ValueError, w, [])) /\
  (forall A reaction (block : M A),
     temp_handler (PyStr name) reaction block w = (Raise ValueError, w, [])) /\
  (forall A (block : M A),
     has_pthread_sigmask = true ->
     block_signals (PyStr name) block w = (Raise ValueError, w, [])) /\
  has_sig (PyStr name) = true.
Proof.
  intros Hin Hrange.
  pose proof (available_is_member _ _ Hin) as Hm.
  assert (Hv : Forall (fun s => valid_signal s = true) [v]).
  { apply List.Forall_cons; [|apply List.Forall_nil].
    unfold valid_signal. now rewrite Hm, Hrange. }
  pose proof (normalize_name _ _ w Hin) as Hnorm.
  assert (Hget : get_signal_setting (PyStr name) w = (Raise ValueError, w, [])).
  { destruct (available_name_prefix _ _ Hin) as [rest ->].
    unfold get_signal_setting. cbn [py_int]. now rewrite int_of_str_S. }
  split; [|split; [|split; [|split; [|split; [|split]]]]].
  - intros reaction Hr. rewrite (set_handler_one v reaction w Hm Hr).
    unfold outcome, trace. cbn [fst snd]. split; [reflexivity|].
    now rewrite attempted_app, attempted_creation, (attempted_set_one _ _ _ Hm).
  - rewrite get_signal_setting_int. now rewrite Hrange.
  - intros cb ord Hname. unfold is_member in Hm.
    destruct (Signals_name v) as [nm| |] eqn:Hn; try discriminate.
    rewrite (chain_handler_member v nm cb ord w Hn Hrange Hname). cbv zeta.
    unfold outcome, trace. cbn [fst snd]. split; [reflexivity|].
    change (attempted ([EvLog INFO (MsgChaining cb nm ord)] ++
                       set_one_trace (PyCallable (ChainedHandler (next_oid w) ord cb
                                                    (handlers w v)))
                                     (Handler (ChainedHandler (next_oid w) ord cb
                                                    (handlers w v))) v) = [v]).
    rewrite attempted_app. cbn [app attempted flat_map].
    apply attempted_set_one. unfold is_member. now rewrite Hn.
  - intros A reaction block Hr Hk.
    rewrite temp_handler_int, set_handler_int.
    destruct (temp_handler_eq [v] reaction block w Hv Hr Hk) as [names E].
    cbv zeta in E. now rewrite E.
  - intros A block Hmask Hk. rewrite block_signals_int.
    destruct (block_signals_eq [v] block w Hmask Hv Hk) as [names E].
    cbv zeta in E. now rewrite E.
  - cbn [has_sig int_like]. apply existsb_exists. exists (name, v).
    split; [exact Hin | apply Z.eqb_refl].
  - split; [|split; [exact Hget|split; [|split; [|split]]]].
    + intros reaction. unfold set_handler. now rewrite (bind_raise _ _ _ _ _ _ Hnorm).
    + intros callback order. unfold chain_handler.
      destruct (order_of order); [|reflexivity].
      now rewrite (bind_raise _ _ _ _ _ _ Hget).
    + intros A reaction block. unfold temp_handler.
      now rewrite (bind_raise _ _ _ _ _ _ Hnorm).
    + intros A block Hmask. unfold block_signals. rewrite Hmask. cbn [negb].
      now rewrite (bind_raise _ _ _ _ _ _ Hnorm).
    + cbn [has_sig]. apply existsb_exists. exists (name, v).
      split; [exact Hin | apply String.eqb_refl].
Qed.

(** ** [with_timeout] over a handler that is [None] *)

Lemma with_timeout_None_eq {A} (seconds a : Z) (block : M A) (w : World) :
  Signals_value "SIGALRM" = Some a -> accepts a = true ->
  - 2 ^ 31 <= seconds < 2 ^ 31 ->
  handlers w a = NoPyHandler ->
  (forall s, outcome (block (armed seconds a w)) <> Killed s) ->
  let left := block (armed seconds a w) in
  with_timeout seconds block w =
  (Raise TypeError, with_alarm 0 (world left),
   EvLog DEBUG (MsgEnterTimeout seconds) ::
   EvSignal a (Handler (TimeoutHandler (next_oid w) seconds)) None ::
   EvAlarm seconds ::
   trace left ++ [EvAlarm 0; EvSignal a NoPyHandler (Some TypeError)]).
Proof.
  intros Ha Hacc Hsec Horig Hk left. unfold with_timeout. rewrite Ha.
  rewrite bind_gets, bind_modify. apply bind_emit.
  rewrite (bind_pure _ _ _ (handlers w a)).
  2:{ rewrite get_signal_setting_int. now rewrite (accepts_in_range _ Hacc). }
  set (th := Handler (TimeoutHandler (next_oid w) seconds)).
  assert (Hth : signal_failure a th = None)
    by (apply signal_failure_accepts; [discriminate | assumption]).
  assert (Ho : signal_failure a NoPyHandler = Some TypeError).
  { unfold signal_failure. unfold accepts in Hacc.
    apply andb_prop in Hacc. destruct Hacc as [Hacc _].
    apply andb_prop in Hacc. destruct Hacc as [-> ->]. reflexivity. }
  assert (Hov : (seconds <? - 2 ^ 31) || (2 ^ 31 <=? seconds) = false).
  { apply orb_false_iff. split; [apply Z.ltb_ge | apply Z.leb_gt]; lia. }
  eapply bind_ok_cons; [rewrite signal_signal_eq, Hth; reflexivity|].
  eapply bind_ok_cons; [unfold signal_alarm; rewrite Hov; reflexivity|].
  cbn [handlers with_handlers with_next_oid alarm with_alarm].
  change (with_alarm (seconds mod 2 ^ 32)
            (with_handlers (update (handlers w) a th)
                           (with_next_oid (S (next_oid w)) w)))
    with (armed seconds a w).
  fold left. rewrite Horig.
  eapply try_finally_raise; [apply surjective_result | exact Hk |].
  eapply bind_ok_cons; [reflexivity|].
  rewrite <- (app_nil_r [EvSignal a NoPyHandler (Some TypeError)]).
  apply bind_raise. rewrite signal_signal_eq, Ho. reflexivity.
Qed.

(** A second under the timeout closure: the closure stays installed,
    whether the alarm goes off or not. *)
Lemma tick_keeps_timeout_handler a oid n w :
  Signals_value "SIGALRM" = Some a ->
  handlers w a = Handler (TimeoutHandler oid n) ->
  handlers (world (tick w)) a = Handler (TimeoutHandler oid n) /\
  forall s, outcome (tick w) <> Killed s.
Proof.
  intros Ha Hh. unfold tick. destruct (alarm w <=? 0); [now split|].
  destruct (alarm w =? 1); [|now split]. rewrite Ha.
  destruct (bool_decide (a ∈ blocked w)); [now split|].
  unfold deliver. cbn [handlers with_alarm]. rewrite Hh. now split.
Qed.

Lemma timed_block_keeps_timeout_handler (a : Z) (steps : list (M unit)) :
  Signals_value "SIGALRM" = Some a ->
  Forall (quiet a) steps ->
  forall w oid n,
    handlers w a = Handler (TimeoutHandler oid n) ->
    handlers (world (timed_block steps w)) a = Handler (TimeoutHandler oid n) /\
    forall s, outcome (timed_block steps w) <> Killed s.
Proof.
  intros Ha Hq. induction Hq as [|step steps Hstep Hsteps IH]; intros w oid n Hh.
  - cbn. split; [exact Hh | discriminate].
  - destruct (Hstep w) as (Hso & _ & Hsh & _).
    destruct (step w) as [[o1 w1] t1] eqn:Estep.
    unfold outcome, world in Hso, Hsh. cbn [fst snd] in Hso, Hsh. subst o1.
    assert (Hh1 : handlers w1 a = Handler (TimeoutHandler oid n)) by congruence.
    destruct (tick_keeps_timeout_handler a oid n w1 Ha Hh1) as [Hth Htk].
    assert (E : timed_block (step :: steps) w =
                match tick w1 with
                | (Ok _, w2, t2) =>
                    let '(r, w3, t3) := timed_block steps w2 in (r, w3, t1 ++ t2 ++ t3)
                | (Raise e, w2, t2) => (Raise e, w2, t1 ++ t2)
                | (Killed s, w2, t2) => (Killed s, w2, t1 ++ t2)
                end).
    { cbn [timed_block]. unfold bind at 1. rewrite Estep. unfold bind.
      destruct (tick w1) as [[[[]|e|s] w2] t2]; try reflexivity.
      now destruct (timed_block steps w2) as [[o3 w3] t3]. }
    rewrite E. clear E.
    destruct (tick w1) as [[[[]|e|s] w2] t2] eqn:Etick;
      unfold outcome, world in Hth, Htk; cbn [fst snd] in Hth, Htk.
    + destruct (IH w2 oid n Hth) as [IH1 IH2].
      destruct (timed_block steps w2) as [[o3 w3] t3].
      unfold outcome, world in *. cbn [fst snd] in *. split; [exact IH1 | exact IH2].
    + unfold outcome, world. cbn [fst snd]. split; [exact Hth | discriminate].
    + now elim (Htk s).
Qed.

(** C4.  [with_timeout(seconds)] entered while the handler of
    [SIGALRM] is [None] (installed outside of Python), around a block
    of steps of one second each that leave the alarm alone: whether the
    block ends in time or the alarm goes off inside it, the scope ends
    with the [TypeError] of [signal.signal(SIGALRM, None)], raised in
    the [finally].  The alarm is cancelled, but the handler of
    [SIGALRM] is not the one from before the scope: the timeout closure
    stays installed. *)
Theorem with_timeout_restore_fails_over_None
    (seconds a : Z) (steps : list (M unit)) (w : World) :
  Signals_value "SIGALRM" = Some a -> accepts a = true ->
  0 < seconds < 2 ^ 31 ->
  handlers w a = NoPyHandler -> a ∉ blocked w ->
  Forall (quiet a) steps ->
  let inside := timed_block steps (armed seconds a w) in
  let r := with_timeout seconds (timed_block steps) w in
  (Z.of_nat (length steps) < seconds -> outcome inside = Ok tt) /\
  (seconds <= Z.of_nat (length steps) ->
     outcome inside = Raise (SimSigTimeoutError seconds)) /\
  outcome r = Raise TypeError /\
  alarm (world r) = 0 /\
  handlers (world r) a = Handler (TimeoutHandler (next_oid w) seconds) /\
  handlers (world r) a <> handlers w a /\
  attempted (trace r) = a :: attempted (trace inside) ++ [a] /\
  In (EvSignal a NoPyHandler (Some TypeError)) (trace r).
Proof.
  intros Ha Hacc Hsec Horig Hb Hq inside r.
  assert (Harmed : handlers (armed seconds a w) a =
                   Handler (TimeoutHandler (next_oid w) seconds)).
  { unfold armed. cbn [handlers with_alarm with_handlers]. apply update_eq. }
  assert (Hmod : alarm (armed seconds a w) = seconds).
  { unfold armed. cbn [alarm with_alarm]. apply Z.mod_small. lia. }
  destruct (timed_block_quiet a steps Ha Hq (armed seconds a w) (next_oid w) seconds)
    as [Hlate Hearly]; [lia | exact Harmed | exact Hb |].
  rewrite Hmod in Hlate, Hearly.
  destruct (timed_block_keeps_timeout_handler a steps Ha Hq
              (armed seconds a w) (next_oid w) seconds Harmed) as [Hkeep Hk].
  fold inside in Hlate, Hearly, Hkeep, Hk.
  assert (E : r = (Raise TypeError, with_alarm 0 (world inside),
                   EvLog DEBUG (MsgEnterTimeout seconds) ::
                   EvSignal a (Handler (TimeoutHandler (next_oid w) seconds)) None ::
                   EvAlarm seconds ::
                   trace inside ++ [EvAlarm 0; EvSignal a NoPyHandler (Some TypeError)])).
  { unfold r. apply with_timeout_None_eq; try assumption. lia. }
  split; [exact Hearly|]. split; [exact Hlate|].
  set (wl := world inside) in *. set (tl := trace inside) in *.
  rewrite E. unfold outcome, world, trace. cbn [fst snd].
  split; [reflexivity|]. split; [reflexivity|].
  cbn [handlers with_alarm]. split; [exact Hkeep|].
  split; [rewrite Hkeep, Horig; discriminate|]. split.
  - change (attempted ([EvLog DEBUG (MsgEnterTimeout seconds);
                        EvSignal a (Handler (TimeoutHandler (next_oid w) seconds)) None;
                        EvAlarm seconds] ++
                       tl ++ [EvAlarm 0; EvSignal a NoPyHandler (Some TypeError)])
            = a :: attempted tl ++ [a]).
    rewrite !attempted_app. reflexivity.
  - right. right. right. apply in_or_app. right. right. now left.
Qed.

End Cases.

(** * The cases at work on Linux *)

(** [set_handler([SIGKILL, 999, SIGTERM], ign)]: the refusal of
    [SIGKILL] is caught, 999 ends the call with [ValueError], and
    [SIGTERM] is never reached. *)
Lemma set_handler_batch_outcome_linux :
  valid_reaction (PyReaction ign) = true /\
  outcome (set_handler (P:=linux) (PyList (map PyInt [9; 999; 15])) (PyReaction ign) fresh)
    = Raise ValueError /\
  attempted (trace (set_handler (P:=linux) (PyList (map PyInt [9; 999; 15]))
                                (PyReaction ign) fresh)) = [9] /\
  handlers (world (set_handler (P:=linux) (PyList (map PyInt [9; 999; 15]))
                               (PyReaction ign) fresh)) 15 = SIG_DFL.
Proof.
  assert (H : valid_reaction (PyReaction ign) = true) by reflexivity.
  destruct (set_handler_batch_outcome (P:=linux) [9; 999; 15] (PyReaction ign) fresh H)
    as (Ho & Ha & _ & Hk & _).
  split; [exact H|]. split; [exact Ho|]. split; [exact Ha|].
  apply (Hk 15). intros [Hin|[]]. discriminate Hin.
Defined.

(** [graceful_shutdown(f7)], then [SIGTERM] arrives: [f7] runs and the
    handler raises [SystemExit(143)]. *)
Lemma graceful_shutdown_then_delivery_linux :
  fin_cache_ok fresh = true /\
  In ("SIGTERM", 15) (_terminating_by_default (P:=linux)) /\
  handlers (world (graceful_shutdown (P:=linux) (PyCallable (PyFunction 7)) fresh)) 15
    = Handler (FinHandler 0) /\
  outcome (deliver (P:=linux) (U:=inert) 15
             (world (graceful_shutdown (P:=linux) (PyCallable (PyFunction 7)) fresh)))
    = Raise (SystemExit 143) /\
  calls (trace (deliver (P:=linux) (U:=inert) 15
             (world (graceful_shutdown (P:=linux) (PyCallable (PyFunction 7)) fresh))))
    = [(PyFunction 7, None)].
Proof.
  assert (H1 : fin_cache_ok fresh = true) by reflexivity.
  assert (H2 : In ("SIGTERM", 15) (_terminating_by_default (P:=linux)))
    by (vm_compute; tauto).
  destruct (graceful_shutdown_then_delivery (P:=linux) (U:=inert)
              (PyFunction 7) 7 fresh eq_refl eq_refl eq_refl H1) as (_ & Hcb & _ & Hs).
  destruct (Hs "SIGTERM" 15 H2) as [_ Hacc]; [discriminate|].
  destruct (Hacc eq_refl) as [Hh Hd].
  destruct (Hd _ Hh Hcb) as (_ & Hc & _ & Hok & _).
  split; [exact H1|]. split; [exact H2|]. split; [exact Hh|].
  split; [exact (Hok eq_refl) | exact Hc].
Defined.

(** [chain_handler(SIGINT, f1, "before")] over the interpreter's own
    handler [f0]: on delivery [f1] is called, then [f0]. *)
Lemma chain_handler_sequences_calls_linux :
  accepts (P:=linux) 2 = true /\ is_member (P:=linux) 2 = true /\
  deliver (P:=linux) (U:=inert) 2
    (world (chain_handler (P:=linux) (PyInt 2) (PyCallable (PyFunction 1))
                          (PyStr "before") fresh))
    = user_sequence (U:=inert) (PyFunction 1) 1 (PyFunction 0) 0 2
        (world (chain_handler (P:=linux) (PyInt 2) (PyCallable (PyFunction 1))
                              (PyStr "before") fresh)) /\
  calls (trace (deliver (P:=linux) (U:=inert) 2
          (world (chain_handler (P:=linux) (PyInt 2) (PyCallable (PyFunction 1))
                                (PyStr "before") fresh))))
    = [(PyFunction 1, Some 2); (PyFunction 0, Some 2)].
Proof.
  destruct (chain_handler_sequences_calls (P:=linux) (U:=inert) 2 (PyFunction 1) before fresh
              eq_refl eq_refl eq_refl) as (_ & Hh & _ & Hd).
  destruct (Hd _ Hh) as (_ & Hu & Hn).
  destruct (Hn (fun id arg w0 => eq_refl) eq_refl eq_refl) as (_ & Hc & _).
  split; [reflexivity|]. split; [reflexivity|].
  split; [exact (Hu 1%nat eq_refl 0%nat eq_refl) | exact Hc].
Defined.

(** The name and the number of [SIGINT]. *)
Lemma designators_by_operation_linux :
  In ("SIGINT", 2) (_AVAILABLE_SIGNALS (P:=linux)) /\
  in_range (P:=linux) 2 = true /\
  get_signal_setting (P:=linux) (PyInt 2) fresh = (Ok (handlers fresh 2), fresh, []) /\
  get_signal_setting (P:=linux) (PyStr "SIGINT") fresh = (Raise ValueError, fresh, []) /\
  (forall callback order,
     chain_handler (P:=linux) (PyStr "SIGINT") callback order fresh
     = (Raise ValueError, fresh, [])) /\
  has_sig (P:=linux) (PyStr "SIGINT") = true.
Proof.
  assert (H1 : In ("SIGINT", 2) (_AVAILABLE_SIGNALS (P:=linux)))
    by (vm_compute; tauto).
  assert (H2 : in_range (P:=linux) 2 = true) by reflexivity.
  destruct (designators_by_operation (P:=linux) "SIGINT" 2 fresh H1 H2)
    as (_ & Hg & _ & _ & _ & _ & _ & Hn & Hc & _ & _ & Hs).
  split; [exact H1|]. split; [exact H2|]. split; [exact Hg|].
  split; [exact Hn|]. split; [exact Hc | exact Hs].
Defined.

(** [with_timeout(2)] around a block of one second, entered while the
    handler of [SIGALRM] is [None]: the block ends in time and the
    scope raises [TypeError]; the timeout closure stays installed. *)
Lemma with_timeout_restore_fails_over_None_linux :
  Signals_value (P:=linux) "SIGALRM" = Some 14 /\ accepts (P:=linux) 14 = true /\
  0 < 2 < 2 ^ 31 /\ handlers foreign_alarm 14 = NoPyHandler /\
  (14 ∉ blocked foreign_alarm) /\ Forall (quiet 14) [ret tt] /\
  outcome (timed_block (P:=linux) (U:=inert) [ret tt] (armed 2 14 foreign_alarm)) = Ok tt /\
  outcome (with_timeout (P:=linux) 2 (timed_block (P:=linux) (U:=inert) [ret tt])
             foreign_alarm) = Raise TypeError /\
  handlers (world (with_timeout (P:=linux) 2 (timed_block (P:=linux) (U:=inert) [ret tt])
                     foreign_alarm)) 14 = Handler (TimeoutHandler 0 2).
Proof.
  assert (H1 : 0 < 2 < 2 ^ 31) by lia.
  assert (H2 : handlers foreign_alarm 14 = NoPyHandler) by reflexivity.
  assert (H3 : 14 ∉ blocked foreign_alarm) by (apply not_elem_of_empty).
  assert (H4 : Forall (quiet 14) [ret tt]).
  { apply List.Forall_cons; [intros w0; repeat split; auto | apply List.Forall_nil]. }
  destruct (with_timeout_restore_fails_over_None (P:=linux) (U:=inert) 2 14 [ret tt]
              foreign_alarm eq_refl eq_refl H1 H2 H3 H4)
    as (Hin & _ & Ho & _ & Hh & _).
  split; [reflexivity|]. split; [reflexivity|]. split; [exact H1|]. split; [exact H2|].
  split; [exact H3|]. split; [exact H4|].
  split; [apply Hin; cbn; lia|]. split; [exact Ho | exact Hh].
Defined.

(** * Where the code departs from the specification, continued *)

(** Against C3: after [graceful_shutdown(f7)] with an [f7] that raises,
    [SIGTERM] has the terminate handler, the handler calls [f7] once,
    and the exception of [f7] comes out: [SystemExit(143)] is not
    raised. *)
Lemma raising_callback_forestalls_exit :
  outcome (graceful_shutdown (P:=linux) (PyCallable (PyFunction 7)) fresh) = Ok tt /\
  handlers (world (graceful_shutdown (P:=linux) (PyCallable (PyFunction 7)) fresh)) 15
    = Handler (FinHandler 0) /\
  outcome (deliver (P:=linux) (U:=failing) 15
             (world (graceful_shutdown (P:=linux) (PyCallable (PyFunction 7)) fresh)))
    = Raise (UserError 0) /\
  outcome (deliver (P:=linux) (U:=failing) 15
             (world (graceful_shutdown (P:=linux) (PyCallable (PyFunction 7)) fresh)))
    <> Raise (SystemExit (128 + 15)) /\
  calls (trace (deliver (P:=linux) (U:=failing) 15
             (world (graceful_shutdown (P:=linux) (PyCallable (PyFunction 7)) fresh))))
    = [(PyFunction 7, None)].
Proof.
  split; [reflexivity|]. split; [reflexivity|]. split; [reflexivity|].
  split; [|reflexivity]. vm_compute. discriminate.
Qed.

(** Against C5: chained with "after" over the terminate handler, the
    new callback [f1] is never called when [SIGTERM] is delivered;
    chained with "before", a new callback that raises keeps the handler
    installed before, [f0], from being called. *)
Lemma chained_call_cut_short :
  handlers terminating 15 = Handler (FinHandler 0) /\
  outcome (deliver (P:=linux) (U:=inert) 15
             (world (chain_handler (P:=linux) (PyInt 15) (PyCallable (PyFunction 1))
                                   (PyStr "after") terminating)))
    = Raise (SystemExit 143) /\
  calls (trace (deliver (P:=linux) (U:=inert) 15
             (world (chain_handler (P:=linux) (PyInt 15) (PyCallable (PyFunction 1))
                                   (PyStr "after") terminating)))) = [] /\
  handlers fresh 2 = Handler (PyFunction 0) /\
  outcome (deliver (P:=linux) (U:=failing) 2
             (world (chain_handler (P:=linux) (PyInt 2) (PyCallable (PyFunction 1))
                                   (PyStr "before") fresh)))
    = Raise (UserError 0) /\
  calls (trace (deliver (P:=linux) (U:=failing) 2
             (world (chain_handler (P:=linux) (PyInt 2) (PyCallable (PyFunction 1))
                                   (PyStr "before") fresh))))
    = [(PyFunction 1, Some 2)].
Proof. vm_compute. repeat split. Qed.
